(** * AIOS chat backend: conversation memory, quota and permission layer

    A shallow embedding of the policy logic of [server.js] (the Express
    application of the AIOS chat backend) and the properties its
    specification states about it.

    Conventions.
    - The three hosted services (Gemini, Pinecone, Supabase) and the
      JavaScript runtime functions whose result depends on Unicode tables
      or on the clock are fields of an environment record [Env]; every
      theorem quantifies over it.
    - Supabase tables are part of the explicit state [World]; every
      database call site can return an error or throw, as chosen by the
      environment.
    - A JavaScript string whose [length] or [slice] the code uses is a list
      of UTF-16 code units; a string that is only compared, searched or
      concatenated is a [string].
    - The history array of a conversation is shared between the handler
      and the chat session of the Gemini SDK, which pushes onto it; what
      the session pushes is written out in [sdk_push]. *)

From Stdlib Require Import ZArith List String Ascii Bool Lia DecimalString.
From Stdlib Require Import DecimalZ DecimalPos.
From stdpp Require Import base option list gmap strings sorting.
From Equations Require Import Equations.

Import ListNotations.
Local Open Scope Z_scope.
Local Open Scope string_scope.
Local Open Scope list_scope.

(** ** JavaScript idioms used by the server *)

Module JS.

(** [Array.prototype.slice] and [String.prototype.slice]: a negative index
    counts from the end, every index is clamped to the length. *)
Definition rel_index (len : nat) (k : Z) : nat :=
  if (k <? 0)%Z then Z.to_nat (Z.max (Z.of_nat len + k) 0)
  else Nat.min (Z.to_nat k) len.

Definition slice {A} (l : list A) (start : Z) (stop : option Z) : list A :=
  let len := length l in
  let from := rel_index len start in
  let to := match stop with Some e => rel_index len e | None => len end in
  take (to - from)%nat (drop from l).

(** [x ?? d] on a nullable value. *)
Definition nullish {A} (x : option A) (d : A) : A :=
  match x with Some a => a | None => d end.

(** [!s] is false exactly for a defined, non-empty string. *)
Definition truthy_string (s : option string) : bool :=
  match s with
  | Some s => negb (String.eqb s "")
  | None => false
  end.

(** [b || false] and [!b] on a nullable boolean column. *)
Definition truthy_bool (b : option bool) : bool :=
  match b with Some true => true | _ => false end.

(** [n || d] on a nullable number: [null] and [0] are falsy. *)
Definition number_or (n : option Z) (d : Z) : Z :=
  match n with
  | Some z => if (z =? 0)%Z then d else z
  | None => d
  end.

(** [s || d] on a nullable string: [null] and the empty string are falsy. *)
Definition string_or (s : option string) (d : string) : string :=
  match s with
  | Some v => if String.eqb v "" then d else v
  | None => d
  end.

(** [c >= k] where [c] may be [null], which the comparison converts to 0. *)
Definition ge_nullable (c : option Z) (k : Z) : bool :=
  match c with
  | Some n => (k <=? n)%Z
  | None => (k <=? 0)%Z
  end.

(** [s.includes(sub)]. *)
Fixpoint includes (sub s : string) : bool :=
  String.prefix sub s ||
  match s with
  | EmptyString => false
  | String _ rest => includes sub rest
  end.

(** A template literal's [${n}] for an integer [n]. *)
Definition number_to_string (n : Z) : string :=
  NilZero.string_of_int (Z.to_int n).

Definition LF : string := String "010"%char EmptyString.

(** [l.join(sep)]. *)
Fixpoint join (sep : string) (l : list string) : string :=
  match l with
  | [] => ""
  | [x] => x
  | x :: rest => x ++ sep ++ join sep rest
  end.

End JS.

(** ** Document chunker ([POST /api/upload-document], chunking block) *)

Module Chunker.

Definition MAX_CHUNK_SIZE : nat := Z.to_nat 8000.

Section Loop.
Context {A : Type}.

(** [for (let i = 0; i < text.length; i += MAX_CHUNK_SIZE)
       chunks.push(text.slice(i, i + MAX_CHUNK_SIZE));]
    as the loop from index [i] with the chunks pushed so far. *)
Equations? chunk_loop (text : list A) (i : nat) (chunks : list (list A))
  : list (list A) by wf (length text - i)%nat lt :=
  chunk_loop text i chunks with lt_dec i (length text) := {
    | left _ =>
        chunk_loop text (i + MAX_CHUNK_SIZE)%nat
          (chunks ++
           [JS.slice text (Z.of_nat i) (Some (Z.of_nat (i + MAX_CHUNK_SIZE)))])
    | right _ => chunks }.
Proof. unfold MAX_CHUNK_SIZE. lia. Qed.

(** The chunking block: texts longer than the maximum go through the loop,
    any other text is pushed whole. *)
Definition chunk (text : list A) : list (list A) :=
  if (MAX_CHUNK_SIZE <? length text)%nat then chunk_loop text 0 []
  else [text].

End Loop.

End Chunker.

(** ** Data model *)

(** A conversation turn as the Gemini SDK takes it:
    [{ role: 'user' | 'model', parts }], where a part is [{ text }] or
    [{ inlineData: { mimeType, data } }]. *)
Inductive Role := user | model.

Inductive Part :=
| TextPart (t : string)
| InlineData (mimeType data : string).

Record Turn := { role : Role; parts : list Part }.

(** JSON values of response bodies. *)
#[warnings="-register-all"]
Inductive Json :=
| JNull
| JBool (b : bool)
| JNum (n : Z)
| JStr (s : string)
| JArr (items : list Json)
| JObj (fields : list (string * Json)).

(** [res.status(code).json(body)]; [res.json(body)] has status 200. *)
Record Response := { status : Z; body : Json }.

(** Rows of the Supabase tables the modelled routes touch.  Nullable columns
    are options. *)
Record UserRow := {
  u_role : option string;
  can_use_rag : option bool;
  can_upload_documents : option bool;
  can_edit_documents : option bool;
  can_delete_documents : option bool;
  daily_message_quota : option Z;
  u_organization_id : option string;
  first_name : option string;
  u_email : option string }.

Record OrgRow := {
  org_id : string;
  org_code : string;
  default_can_use_rag : option bool;
  default_can_upload_documents : option bool;
  default_can_edit_documents : option bool;
  default_can_delete_documents : option bool;
  default_daily_message_quota : option Z }.

Record UsageRow := { user_id : string; date : string; prompts_count : Z }.

Record MessageRow := { chat_id : string; msg_role : string; content : string }.

(** The process-wide [conversations] map and the database.  A key of
    [conversations] is the value of [conversationId]: a string, or [null]
    ([None]).  [users] is keyed by its primary key [id]; the other tables
    are row lists, read through filters. *)
Record World := {
  conversations : gmap (option string) (list Turn);
  users : gmap string UserRow;
  organizations : list OrgRow;
  daily_usage : list UsageRow;
  messages : list MessageRow }.

(** A Pinecone match. *)
Record Metadata := { md_source : option string; md_text : option string }.

Record Match := { match_id : string; metadata : option Metadata }.

(** ** Environment: external services and runtime *)

(** Result of a call that may throw. *)
Inductive Try (A : Type) :=
| Returned (a : A)
| Thrown (message : string).
Arguments Returned {A} a.
Arguments Thrown {A} message.

(** Behaviour of one Supabase call: it works, it resolves to
    [{ data: null, error }], or it throws (rejects). *)
Inductive Fault :=
| NoFault
| ReturnsError (message : string)
| Throws (message : string).

(** The database call sites of the modelled routes. *)
Inductive Site :=
| QuotaUser      (* checkDailyQuota: users *)
| QuotaUsage     (* checkDailyQuota: daily_usage *)
| UsageSelect    (* incrementDailyUsage: select *)
| UsageUpdate    (* incrementDailyUsage: update *)
| UsageInsert    (* incrementDailyUsage: insert *)
| ChatMessages   (* /api/chat: messages count *)
| ChatRagUser    (* /api/chat: users, RAG permission *)
| PermUser       (* /api/users/me/permissions: users *)
| JoinOrg        (* /api/organizations/join: organizations *)
| JoinUser.      (* /api/organizations/join: users update *)

(** What [supabase.auth.getUser] yields for a valid token. *)
Record Identity := { identity_id : string; identity_email : option string }.

(** Custom claims of the decoded JWT. *)
Record Claims := { claim_app_role : option string;
                   claim_organization_id : option string }.

Definition Embedding := list Z.

Record Env := {
  (** [String.prototype.toLowerCase] and [toUpperCase] *)
  toLowerCase : string -> string;
  toUpperCase : string -> string;
  (** [new Date().toISOString().split('T')[0]] *)
  today : string;
  (** [supabase.auth.getUser(token)]: [None] for an error or no user *)
  auth_getUser : string -> Try (option Identity);
  (** [jwt.decode(token)]: [None] for [null] *)
  jwt_decode : string -> option Claims;
  db_fault : Site -> Fault;
  (** [generateEmbedding(text)] *)
  generateEmbedding : string -> Try Embedding;
  (** [index.namespace('').query({ vector, topK, includeMetadata })] *)
  index_query : Embedding -> Z -> Try (list Match);
  (** [model.startChat({ history, ... })], [chat.sendMessage(prompt)] and
      [response.text()], by the history at the time of the call; the
      generation config and the system instruction are constants of the
      call.  [Returned reply] is a response with a candidate whose text
      is [reply]: the chat session of the SDK, which keeps the array it
      was given, has then pushed two turns onto it (see [sdk_push]).
      [Thrown] is a call that throws, in [sendMessage] or in [text()],
      before the session has pushed anything. *)
  sendMessage : list Turn -> string -> Try string }.

(** ** Requests *)

(** A property of a JSON body: missing ([undefined]), [null], or a value
    of the type the code expects. *)
Inductive Field (A : Type) :=
| Absent
| Null
| Value (a : A).
Arguments Absent {A}.
Arguments Null {A}.
Arguments Value {A} a.

(** The properties of [req.body] the modelled routes read.  [message],
    [forceRAG] and [chatId] are only tested for truth before they are
    used, so [None] stands for a missing property and for [null] alike;
    [conversationId] is a key of the map and is sent back, so the three
    cases are kept apart; [None] for [org_code] is a body without the
    property. *)
Record Body := {
  message : option string;
  conversationId : Field string;
  forceRAG : option bool;
  chatId : option string;
  body_org_code : option string }.

(** [conversationId = 'default'] in the destructuring of [req.body]: the
    default stands in for a missing property only, [null] stays [null]. *)
Definition conversationId_of (b : Body) : option string :=
  match conversationId b with
  | Absent => Some "default"
  | Null => None
  | Value id => Some id
  end.

Record HttpRequest := { authorization : option string; req_body : Body }.

(** [req.user] as [authenticateUser] attaches it. *)
Record AuthUser := {
  id : string;
  email : option string;
  app_role : option string;
  organization_id : option string }.

(** The Express request object: the HTTP request and the properties the
    middlewares attach. *)
Record Req := {
  http : HttpRequest;
  req_user : option AuthUser;
  userDbId : option string;
  currentUsage : option Z;
  usageDate : option string }.

Definition incoming (h : HttpRequest) : Req :=
  {| http := h; req_user := None; userDbId := None; currentUsage := None;
     usageDate := None |}.

(** ** Effects: state, early response, exception *)

(** The state a request runs in: the world, and the log of the calls made
    to the model (an observation, the server does not read it). *)
Record Sys := { world : World; model_calls : list (list Turn * string) }.

(** A computation either goes on with a value, has sent the response
    ([return res.status(..).json(..)]), or has thrown. *)
Inductive Outcome (A : Type) :=
| Done (a : A)
| Sent (r : Response)
| Raised (message : string).
Arguments Done {A} a.
Arguments Sent {A} r.
Arguments Raised {A} message.

Definition M (A : Type) : Type := Sys -> Outcome A * Sys.

Definition ret {A} (a : A) : M A := fun s => (Done a, s).

Definition bind {A B} (c : M A) (k : A -> M B) : M B :=
  fun s =>
    match c s with
    | (Done a, s') => k a s'
    | (Sent r, s') => (Sent r, s')
    | (Raised e, s') => (Raised e, s')
    end.

Notation "x <- c ;; k" := (bind c (fun x => k))
  (at level 100, c at next level, right associativity).

Definition respond {A} (code : Z) (b : Json) : M A :=
  fun s => (Sent {| status := code; body := b |}, s).

Definition raise {A} (e : string) : M A := fun s => (Raised e, s).

(** [try { body } catch (error) { handler }] *)
Definition try_catch {A} (body : M A) (handler : string -> M A) : M A :=
  fun s =>
    match body s with
    | (Raised e, s') => handler e s'
    | r => r
    end.

Definition get_world : M World := fun s => (Done (world s), s).

Definition set_world (w : World) : M unit :=
  fun s => (Done tt, {| world := w; model_calls := model_calls s |}).

Definition lift_try {A} (t : Try A) : M A :=
  match t with
  | Returned a => ret a
  | Thrown e => raise e
  end.

(** The response a request ended with, if any. *)
Definition response_of {A} (o : Outcome A) : option Response :=
  match o with
  | Sent r => Some r
  | _ => None
  end.

(** ** Supabase calls *)

(** What a query resolves to: [{ data, error }]. *)
Record QueryResult (A : Type) := { data : option A; error : option string }.
Arguments data {A} _.
Arguments error {A} _.

(** [.single()]: the row when exactly one matches, an error otherwise. *)
Definition single {A} (rows : list A) : QueryResult A :=
  match rows with
  | [r] => {| data := Some r; error := None |}
  | _ => {| data := None;
            error := Some "JSON object requested, multiple (or no) rows returned" |}
  end.

Definition query_single {A} (env : Env) (site : Site)
    (rows : World -> list A) : M (QueryResult A) :=
  fun s =>
    match db_fault env site with
    | NoFault => (Done (single (rows (world s))), s)
    | ReturnsError e => (Done {| data := None; error := Some e |}, s)
    | Throws e => (Raised e, s)
    end.

(** An update or insert; the result is the [error] of the call. *)
Definition db_write (env : Env) (site : Site) (f : World -> World)
  : M (option string) :=
  fun s =>
    match db_fault env site with
    | NoFault =>
        (Done None, {| world := f (world s); model_calls := model_calls s |})
    | ReturnsError e => (Done (Some e), s)
    | Throws e => (Raised e, s)
    end.

(** [from('users').select(..).eq('id', uid)] *)
Definition users_by_id (uid : string) (w : World) : list UserRow :=
  match users w !! uid with
  | Some u => [u]
  | None => []
  end.

(** [from('daily_usage').select(..).eq('user_id', uid).eq('date', d)] *)
Definition usage_matches (uid d : string) (r : UsageRow) : bool :=
  String.eqb (user_id r) uid && String.eqb (date r) d.

Definition usage_rows (uid d : string) (w : World) : list UsageRow :=
  List.filter (usage_matches uid d) (daily_usage w).

(** [from('organizations').select(..).eq('org_code', code)] *)
Definition orgs_by_code (code : string) (w : World) : list OrgRow :=
  List.filter (fun o => String.eqb (org_code o) code) (organizations w).

(** The number of persisted messages of a chat. *)
Definition persisted_messages (c : string) (w : World) : Z :=
  Z.of_nat (length (List.filter (fun m => String.eqb (chat_id m) c)
                      (messages w))).

(** [from('messages').select('*', { count: 'exact' }).eq('chat_id', c)]:
    the [count] of the result, [null] on an error. *)
Definition messages_count (env : Env) (c : string) : M (option Z) :=
  fun s =>
    match db_fault env ChatMessages with
    | NoFault => (Done (Some (persisted_messages c (world s))), s)
    | ReturnsError _ => (Done None, s)
    | Throws e => (Raised e, s)
    end.

Definition with_daily_usage (rows : list UsageRow) (w : World) : World :=
  {| conversations := conversations w; users := users w;
     organizations := organizations w; daily_usage := rows;
     messages := messages w |}.

Definition with_users (us : gmap string UserRow) (w : World) : World :=
  {| conversations := conversations w; users := us;
     organizations := organizations w; daily_usage := daily_usage w;
     messages := messages w |}.

Definition with_conversations (cs : gmap (option string) (list Turn))
    (w : World)
  : World :=
  {| conversations := cs; users := users w;
     organizations := organizations w; daily_usage := daily_usage w;
     messages := messages w |}.

(** [.update({ prompts_count: n }).eq('user_id', uid).eq('date', d)] *)
Definition update_usage (uid d : string) (n : Z) (w : World) : World :=
  with_daily_usage
    (map (fun r => if usage_matches uid d r
                   then {| user_id := user_id r; date := date r;
                           prompts_count := n |}
                   else r)
       (daily_usage w)) w.

(** [.insert([row])] *)
Definition insert_usage (row : UsageRow) (w : World) : World :=
  with_daily_usage (daily_usage w ++ [row]) w.

(** ** Server *)

Module CHAT_CONFIG.
Definition MAX_HISTORY_GEMINI : Z := 20.
Definition MAX_MESSAGES_PER_CHAT : Z := 200.
Definition SUGGEST_NEW_CHAT_AT : Z := 100.
Definition WARN_LONG_CHAT_AT : Z := 50.
End CHAT_CONFIG.

Definition error_body (e : string) : Json := JObj [("error", JStr e)].

Definition json_of_string (s : option string) : Json :=
  match s with Some v => JStr v | None => JNull end.

(** [req.user.id]; a [TypeError] when [req.user] is undefined. *)
Definition req_user_id (req : Req) : M string :=
  match req_user req with
  | Some u => ret (id u)
  | None => raise "Cannot read properties of undefined (reading 'id')"
  end.

(** [authenticateUser] (the later of the two declarations, which is the
    one in force). *)
Definition authenticateUser (env : Env) (req : Req) : M Req :=
  try_catch
    (let authHeader := authorization (http req) in
     match authHeader with
     | None => respond 401 (error_body "Token manquant")
     | Some h =>
         if negb (JS.truthy_string authHeader) || negb (String.prefix "Bearer " h)
         then respond 401 (error_body "Token manquant")
         else
           let token := String.substring 7 (String.length h - 7) h in
           r <- lift_try (auth_getUser env token) ;;
           match r with
           | None => respond 401 (error_body "Token invalide")
           | Some u =>
               let decoded := jwt_decode env token in
               let role_claim :=
                 match decoded with
                 | Some c => match claim_app_role c with
                             | Some "" => None
                             | x => x
                             end
                 | None => None
                 end in
               let org_claim :=
                 match decoded with
                 | Some c => match claim_organization_id c with
                             | Some "" => None
                             | x => x
                             end
                 | None => None
                 end in
               ret {| http := http req;
                      req_user := Some {| id := identity_id u;
                                          email := identity_email u;
                                          app_role := role_claim;
                                          organization_id := org_claim |};
                      userDbId := userDbId req;
                      currentUsage := currentUsage req;
                      usageDate := usageDate req |}
           end
     end)
    (fun _ => respond 401 (error_body "Authentification échouée")).

(** [user.role === 'admin'] *)
Definition is_admin (u : UserRow) : bool :=
  match u_role u with
  | Some r => String.eqb r "admin"
  | None => false
  end.

(** [checkDailyQuota]: [Done req'] is [next()] with the request as the
    middleware left it. *)
Definition checkDailyQuota (env : Env) (req : Req) : M Req :=
  try_catch
    (userId <- req_user_id req ;;
     r <- query_single env QuotaUser (users_by_id userId) ;;
     match error r, data r with
     | None, Some u =>
         if is_admin u then ret req
         else
           match daily_message_quota u with
           | None => ret req
           | Some limit =>
               let today := today env in
               usage <- query_single env QuotaUsage (usage_rows userId today) ;;
               let currentCount :=
                 match data usage with
                 | Some row => JS.number_or (Some (prompts_count row)) 0
                 | None => 0
                 end in
               if (limit <=? currentCount)%Z
               then respond 429
                      (JObj [("error", JStr "Quota journalier atteint");
                             ("limit", JNum limit);
                             ("used", JNum currentCount)])
               else ret {| http := http req; req_user := req_user req;
                           userDbId := Some userId;
                           currentUsage := Some currentCount;
                           usageDate := Some today |}
           end
     | _, _ => ret req
     end)
    (fun _ => ret req).

(** [incrementDailyUsage] *)
Definition incrementDailyUsage (env : Env) (userDbId date : string) : M unit :=
  try_catch
    (existing <- query_single env UsageSelect (usage_rows userDbId date) ;;
     match data existing with
     | Some row =>
         _ <- db_write env UsageUpdate
                (update_usage userDbId date (prompts_count row + 1)) ;;
         ret tt
     | None =>
         _ <- db_write env UsageInsert
                (insert_usage {| user_id := userDbId; date := date;
                                 prompts_count := 1 |}) ;;
         ret tt
     end)
    (fun _ => ret tt).

(** [containsSpecificEntityNames] *)
Definition entityNames : list string :=
  [ "pétrin"; "petrin"; "pétrin d'or"; "petrin d'or";
    "rousseau"; "antoine rousseau";
    "jean moreau"; "moreau";
    "nathalie girard"; "nathalie";
    "julie martin"; "julie";
    "thomas durand"; "thomas";
    "expertise rousseau";
    "bella vita"; "tech solutions" ].

Definition cabinetPhrases : list string :=
  [ "notre cabinet"; "notre équipe"; "notre ca"; "notre chiffre";
    "nos clients"; "nos projets"; "nos honoraires";
    "mon cabinet"; "mon client"; "mon équipe" ].

Definition containsSpecificEntityNames (env : Env) (message : string) : bool :=
  let lowerMessage := toLowerCase env message in
  let hasEntity :=
    existsb (fun name => JS.includes name lowerMessage) entityNames in
  let hasCabinetPhrase :=
    existsb (fun phrase => JS.includes phrase lowerMessage) cabinetPhrases in
  hasEntity || hasCabinetPhrase.

(** The block a match contributes to the context. *)
Definition format_match (m : Match) : string :=
  let source := match metadata m with Some md => md_source md | None => None end in
  let txt := match metadata m with Some md => md_text md | None => None end in
  "[Source: " ++ JS.string_or source "Unknown" ++ "]" ++ JS.LF
  ++ JS.string_or txt "".

(** [getRelevantContext(query, topK = 3)] *)
Definition getRelevantContext (env : Env) (query : string) (topK : Z)
  : M string :=
  try_catch
    (queryEmbedding <- lift_try (generateEmbedding env query) ;;
     matches <- lift_try (index_query env queryEmbedding topK) ;;
     let contexts := map format_match matches in
     ret (JS.join (JS.LF ++ JS.LF ++ "---" ++ JS.LF ++ JS.LF) contexts))
    (fun _ => ret "").

(** The prompt sent to the model: the message, or the message under the
    documentary context when the context is a non-empty string. *)
Definition enhancedMessage (message context : string) : string :=
  if negb (String.eqb context "")
  then "CONTEXTE DOCUMENTAIRE :" ++ JS.LF ++ context ++ JS.LF ++ JS.LF
       ++ "---" ++ JS.LF ++ JS.LF ++ "QUESTION : " ++ message ++ JS.LF
       ++ JS.LF
       ++ "Utilise le contexte ci-dessus pour répondre avec précision."
  else message.

Definition text_turn (r : Role) (t : string) : Turn :=
  {| role := r; parts := [TextPart t] |}.

(** The history array after a call of the SDK's chat session has
    returned.  The session holds the array [startChat] was given, not a
    copy, and pushes onto it the request as a user turn and the content of
    the answer as a model turn; the content is taken to be the one text
    part [response.text()] returns. *)
Definition sdk_push (history : list Turn) (request : list Part)
    (reply : string) : list Turn :=
  history ++ [ {| role := user; parts := request |}; text_turn model reply ].

(** [model.startChat({ history })] followed by [chat.sendMessage(prompt)];
    the call is recorded before the model answers or throws. *)
Definition log_call (history : list Turn) (prompt : string) (s : Sys) : Sys :=
  {| world := world s;
     model_calls := model_calls s ++ [(history, prompt)] |}.

(** The reply, and the array [history] names after the call. *)
Definition gemini_chat (env : Env) (history : list Turn) (prompt : string)
  : M (string * list Turn) :=
  fun s =>
    match sendMessage env history prompt with
    | Returned reply =>
        (Done (reply, sdk_push history [TextPart prompt] reply),
         log_call history prompt s)
    | Thrown e => (Raised e, log_call history prompt s)
    end.

(** The advisory notice for a message count below the hard limit. *)
Definition uiMessage_for (messageCount : option Z) : Json :=
  let shown := match messageCount with
               | Some n => JS.number_to_string n
               | None => "null"
               end in
  let count := match messageCount with Some n => JNum n | None => JNull end in
  if JS.ge_nullable messageCount CHAT_CONFIG.SUGGEST_NEW_CHAT_AT
     && negb (JS.ge_nullable messageCount (CHAT_CONFIG.SUGGEST_NEW_CHAT_AT + 2))
  then JObj [("type", JStr "warning");
             ("text", JStr ("💡 Ce chat a " ++ shown
                ++ " messages. Pour un nouveau sujet, créez un nouveau chat."));
             ("count", count)]
  else if JS.ge_nullable messageCount CHAT_CONFIG.WARN_LONG_CHAT_AT
          && negb (JS.ge_nullable messageCount (CHAT_CONFIG.WARN_LONG_CHAT_AT + 2))
  then JObj [("type", JStr "info");
             ("text", JStr ("ℹ️ Chat long (" ++ shown
                ++ " messages). Les messages les plus anciens ne sont plus dans le contexte."));
             ("count", count)]
  else JNull.

(** The sliding window applied to the history read from the map. *)
Definition window (history : list Turn) : list Turn :=
  if (CHAT_CONFIG.MAX_HISTORY_GEMINI <? Z.of_nat (length history))%Z
  then JS.slice history (- CHAT_CONFIG.MAX_HISTORY_GEMINI) None
  else history.

(** The handler of [POST /api/chat] runs, in this order, the four blocks
    below around the model call. *)

(** The chat length check ([if (chatId) { ... }]): the advisory notice, or
    the response that rejects the request. *)
Definition chat_limit_check (env : Env) (chatId : option string) : M Json :=
  match chatId with
  | Some c =>
      if JS.truthy_string (Some c) then
        messageCount <- messages_count env c ;;
        if JS.ge_nullable messageCount CHAT_CONFIG.MAX_MESSAGES_PER_CHAT
        then respond 400
               (JObj [("error", JStr "chat_limit_reached");
                      ("message", JStr "Ce chat a atteint la limite de 200 messages. Créez un nouveau chat pour continuer.");
                      ("messageCount",
                       match messageCount with
                       | Some n => JNum n
                       | None => JNull
                       end)])
        else ret (uiMessage_for messageCount)
      else ret JNull
  | None => ret JNull
  end.

(** The RAG permission check
    ([if (forceRAG || containsSpecificEntityNames(message)) { ... }]). *)
Definition rag_permission_check (env : Env) (req : Req) (forceRAG : bool)
    (message : string) : M unit :=
  if forceRAG || containsSpecificEntityNames env message
  then
    uid <- req_user_id req ;;
    r <- query_single env ChatRagUser (users_by_id uid) ;;
    match data r with
    | Some u =>
        if negb (is_admin u) && negb (JS.truthy_bool (can_use_rag u))
        then respond 403 (error_body "Accès RAG désactivé pour votre compte")
        else ret tt
    | None => ret tt
    end
  else ret tt.

(** [needsContext] and the retrieval it commands. *)
Definition needsContext (env : Env) (forceRAG : bool) (message : string)
  : bool :=
  if forceRAG then true else containsSpecificEntityNames env message.

Definition retrieve_context (env : Env) (forceRAG : bool) (message : string)
  : M string :=
  if needsContext env forceRAG message
  then getRelevantContext env message 3
  else ret "".

(** [if (req.userDbId && req.usageDate) incrementDailyUsage(..)].  The call
    is not awaited; its effect is applied here, in the order the calls are
    issued. *)
Definition record_usage (env : Env) (req : Req) : M unit :=
  match userDbId req, usageDate req with
  | Some u, Some d =>
      if JS.truthy_string (Some u) && JS.truthy_string (Some d)
      then incrementDailyUsage env u d
      else ret tt
  | _, _ => ret tt
  end.

(** [history.push(user turn, model turn); conversations.set(id, history)],
    on the array as the SDK left it.  When the history read was not
    sliced the array is the one the map holds, and every push shows in the
    map at once; [set] then stores the same array, so the map after the
    two statements is the same in both cases. *)
Definition remember (conversationId : option string) (history : list Turn)
    (message reply : string) : M unit :=
  w <- get_world ;;
  set_world
    (with_conversations
       (<[conversationId :=
            history ++ [text_turn user message; text_turn model reply]]>
          (conversations w)) w).

(** The handler of [POST /api/chat], after the two middlewares.  The
    fire-and-forget [log_gemini_usage] call writes a table no modelled
    route reads and cannot fail the request; it is left out. *)
Definition chat_handler (env : Env) (req : Req) : M unit :=
  try_catch
    (let b := req_body (http req) in
     let conversationId := conversationId_of b in
     let forceRAG := JS.nullish (forceRAG b) false in
     match message b with
     | None => respond 400 (error_body "Message requis")
     | Some message =>
         if negb (JS.truthy_string (Some message))
         then respond 400 (error_body "Message requis")
         else
           uiMessage <- chat_limit_check env (chatId b) ;;
           w <- get_world ;;
           let history :=
             window (default [] (conversations w !! conversationId)) in
           _ <- rag_permission_check env req forceRAG message ;;
           context <- retrieve_context env forceRAG message ;;
           answered <- gemini_chat env history
                         (enhancedMessage message context) ;;
           let reply := answered.1 in
           let history := answered.2 in
           _ <- remember conversationId history message reply ;;
           _ <- record_usage env req ;;
           respond 200
             (JObj [("response", JStr reply);
                    ("conversationId", json_of_string conversationId);
                    ("hasContext", JBool (negb (String.eqb context "")));
                    ("uiMessage", uiMessage)])
     end)
    (fun e =>
       respond 500 (JObj [("error", JStr "Erreur serveur");
                          ("details", JStr e)])).

(** [app.post('/api/chat', authenticateUser, checkDailyQuota, handler)] *)
Definition post_api_chat (env : Env) (h : HttpRequest) : M unit :=
  req <- authenticateUser env (incoming h) ;;
  req <- checkDailyQuota env req ;;
  chat_handler env req.

(** The capability view [GET /api/users/me/permissions] computes from the
    user row. *)
Record Permissions := {
  p_can_use_rag : bool;
  p_can_upload_documents : bool;
  p_can_edit_documents : bool;
  p_can_delete_documents : bool;
  p_daily_message_quota : Z }.

Definition permissions_of (userData : UserRow) : Permissions :=
  {| p_can_use_rag :=
       match can_use_rag userData with Some false => false | _ => true end;
     p_can_upload_documents := JS.truthy_bool (can_upload_documents userData);
     p_can_edit_documents := JS.truthy_bool (can_edit_documents userData);
     p_can_delete_documents := JS.truthy_bool (can_delete_documents userData);
     p_daily_message_quota := JS.number_or (daily_message_quota userData) 50 |}.

Definition permissions_json (p : Permissions) : Json :=
  JObj [("can_use_rag", JBool (p_can_use_rag p));
        ("can_upload_documents", JBool (p_can_upload_documents p));
        ("can_edit_documents", JBool (p_can_edit_documents p));
        ("can_delete_documents", JBool (p_can_delete_documents p));
        ("daily_message_quota", JNum (p_daily_message_quota p))].

(** The handler of [GET /api/users/me/permissions]. *)
Definition permissions_handler (env : Env) (req : Req) : M unit :=
  try_catch
    (uid <- req_user_id req ;;
     r <- query_single env PermUser (users_by_id uid) ;;
     match error r with
     | Some _ => respond 500 (error_body "Failed to load permissions")
     | None =>
         match data r with
         | None => raise "Cannot read properties of null (reading 'role')"
         | Some userData =>
             respond 200
               (JObj [("success", JBool true);
                      ("role", JStr (JS.string_or (u_role userData) "employee"));
                      ("first_name", json_of_string (first_name userData));
                      ("email", json_of_string (u_email userData));
                      ("permissions",
                       permissions_json (permissions_of userData))])
         end
     end)
    (fun e => respond 500 (error_body e)).

Definition get_my_permissions (env : Env) (h : HttpRequest) : M unit :=
  req <- authenticateUser env (incoming h) ;;
  permissions_handler env req.

(** [defaultPermissions] of [POST /api/organizations/join]. *)
Definition defaultPermissions (org : OrgRow) : Permissions :=
  {| p_can_use_rag := JS.nullish (default_can_use_rag org) false;
     p_can_upload_documents := JS.nullish (default_can_upload_documents org) true;
     p_can_edit_documents := JS.nullish (default_can_edit_documents org) false;
     p_can_delete_documents := JS.nullish (default_can_delete_documents org) false;
     p_daily_message_quota := JS.nullish (default_daily_message_quota org) 50 |}.

(** [.update({ organization_id: org.id, role: 'employee',
               ...defaultPermissions })] on one user row. *)
Definition join_update (org : OrgRow) (u : UserRow) : UserRow :=
  let p := defaultPermissions org in
  {| u_role := Some "employee";
     can_use_rag := Some (p_can_use_rag p);
     can_upload_documents := Some (p_can_upload_documents p);
     can_edit_documents := Some (p_can_edit_documents p);
     can_delete_documents := Some (p_can_delete_documents p);
     daily_message_quota := Some (p_daily_message_quota p);
     u_organization_id := Some (org_id org);
     first_name := first_name u;
     u_email := u_email u |}.

Definition json_of_bool (b : option bool) : Json :=
  match b with Some v => JBool v | None => JNull end.

Definition json_of_number (n : option Z) : Json :=
  match n with Some v => JNum v | None => JNull end.

Definition org_json (org : OrgRow) : Json :=
  JObj [("id", JStr (org_id org));
        ("org_code", JStr (org_code org));
        ("default_can_use_rag", json_of_bool (default_can_use_rag org));
        ("default_can_upload_documents",
         json_of_bool (default_can_upload_documents org));
        ("default_can_edit_documents",
         json_of_bool (default_can_edit_documents org));
        ("default_can_delete_documents",
         json_of_bool (default_can_delete_documents org));
        ("default_daily_message_quota",
         json_of_number (default_daily_message_quota org))].

(** The handler of [POST /api/organizations/join]. *)
Definition join_handler (env : Env) (req : Req) : M unit :=
  try_catch
    (match body_org_code (req_body (http req)) with
     | None =>
         raise "Cannot read properties of undefined (reading 'toUpperCase')"
     | Some code =>
         r <- query_single env JoinOrg (orgs_by_code (toUpperCase env code)) ;;
         match error r, data r with
         | None, Some org =>
             uid <- req_user_id req ;;
             userError <- db_write env JoinUser
                            (fun w => with_users
                                        (alter (join_update org) uid (users w))
                                        w) ;;
             match userError with
             | Some e => raise e
             | None =>
                 respond 200 (JObj [("success", JBool true);
                                    ("organization", org_json org)])
             end
         | _, _ => respond 404 (error_body "Organisation introuvable")
         end
     end)
    (fun e => respond 500 (error_body e)).

Definition post_organizations_join (env : Env) (h : HttpRequest) : M unit :=
  req <- authenticateUser env (incoming h) ;;
  join_handler env req.

(** ** Sequences of chat requests *)

(** Requests served one after the other, each under the behaviour the
    services show at that time. *)
Fixpoint serve (reqs : list (Env * HttpRequest)) (s : Sys)
  : list (Outcome unit) * Sys :=
  match reqs with
  | [] => ([], s)
  | (env, h) :: rest =>
      let (o, s1) := post_api_chat env h s in
      let (os, s2) := serve rest s1 in
      (o :: os, s2)
  end.






(** The stored history of a conversation: [conversations.get(cid) || []]. *)
Definition stored (cid : option string) (s : Sys) : list Turn :=
  default [] (conversations (world s) !! cid).

(** ** A request of [POST /api/chat] in the large *)

Definition conversation_of (req : Req) : option string :=
  conversationId_of (req_body (http req)).

Definition force_of (req : Req) : bool :=
  JS.nullish (forceRAG (req_body (http req))) false.

Definition answer_body (reply : string) (cid : option string)
    (context : string) (uiMessage : Json) : Json :=
  JObj [("response", JStr reply);
        ("conversationId", json_of_string cid);
        ("hasContext", JBool (negb (String.eqb context "")));
        ("uiMessage", uiMessage)].

Definition failure_body (e : string) : Json :=
  JObj [("error", JStr "Erreur serveur"); ("details", JStr e)].

Definition remembered (cid : option string) (history : list Turn)
    (message reply : string) (s : Sys) : Sys :=
  {| world :=
       with_conversations
         (<[cid := history ++ [text_turn user message; text_turn model reply]]>
            (conversations (world s))) (world s);
     model_calls := model_calls s |}.

(** The three ways the handler ends: it refuses the request before the
    model is called and changes nothing; the model is called and throws;
    the model answers, the history with the turns of the SDK and of the
    handler is stored and the usage recorded. *)
Inductive chat_run (env : Env) (req : Req) (s : Sys)
  : Outcome unit -> Sys -> Prop :=
| chat_refused r :
    status r <> 200%Z ->
    chat_run env req s (Sent r) s
| chat_model_failed m ctx e :
    message (req_body (http req)) = Some m ->
    retrieve_context env (force_of req) m s = (Done ctx, s) ->
    sendMessage env (window (stored (conversation_of req) s))
      (enhancedMessage m ctx) = Thrown e ->
    chat_run env req s
      (Sent {| status := 500; body := failure_body e |})
      (log_call (window (stored (conversation_of req) s))
         (enhancedMessage m ctx) s)
| chat_answered m ctx reply ui s2 :
    message (req_body (http req)) = Some m ->
    retrieve_context env (force_of req) m s = (Done ctx, s) ->
    sendMessage env (window (stored (conversation_of req) s))
      (enhancedMessage m ctx) = Returned reply ->
    record_usage env req
      (remembered (conversation_of req)
         (sdk_push (window (stored (conversation_of req) s))
            [TextPart (enhancedMessage m ctx)] reply) m reply
         (log_call (window (stored (conversation_of req) s))
            (enhancedMessage m ctx) s)) = (Done tt, s2) ->
    chat_run env req s
      (Sent {| status := 200;
               body := answer_body reply (conversation_of req) ctx ui |})
      s2.

(** The environment with the three calls of [incrementDailyUsage] behaving
    as [f] says, everything else as in [env]. *)
Definition with_usage_faults (f : Site -> Fault) (env : Env) : Env :=
  {| toLowerCase := toLowerCase env;
     toUpperCase := toUpperCase env;
     today := today env;
     auth_getUser := auth_getUser env;
     jwt_decode := jwt_decode env;
     db_fault := fun site =>
       match site with
       | UsageSelect | UsageUpdate | UsageInsert => f site
       | _ => db_fault env site
       end;
     generateEmbedding := generateEmbedding env;
     index_query := index_query env;
     sendMessage := sendMessage env |}.

(** ** The permission resolution as the specification words it *)

(** For a capability without a user override: the organization's default,
    and the fallback constant when the organization has none. *)
Definition spec_effective {A} (org_default : option A) (fallback : A) : A :=
  match org_default with
  | Some v => v
  | None => fallback
  end.

Definition spec_permissions (fallback : Permissions) (org : OrgRow)
  : Permissions :=
  {| p_can_use_rag :=
       spec_effective (default_can_use_rag org) (p_can_use_rag fallback);
     p_can_upload_documents :=
       spec_effective (default_can_upload_documents org)
         (p_can_upload_documents fallback);
     p_can_edit_documents :=
       spec_effective (default_can_edit_documents org)
         (p_can_edit_documents fallback);
     p_can_delete_documents :=
       spec_effective (default_can_delete_documents org)
         (p_can_delete_documents fallback);
     p_daily_message_quota :=
       spec_effective (default_daily_message_quota org)
         (p_daily_message_quota fallback) |}.

(** The user belongs to the organization. *)
Definition member_of (u : UserRow) (org : OrgRow) : Prop :=
  u_organization_id u = Some (org_id org).

(** An employee whose record carries no override. *)
Definition employee_without_override (u : UserRow) : Prop :=
  u_role u = Some "employee"
  /\ can_use_rag u = None
  /\ can_upload_documents u = None
  /\ can_edit_documents u = None
  /\ can_delete_documents u = None
  /\ daily_message_quota u = None.

(** ** Vocabulary of the statements *)

(** A computation that leaves the state as it found it. *)
Definition quiet {A} (c : M A) : Prop := forall s, (c s).2 = s.

(** What [incrementDailyUsage] and [record_usage] leave alone. *)
Definition same_but_usage (s s' : Sys) : Prop :=
  model_calls s' = model_calls s
  /\ conversations (world s') = conversations (world s)
  /\ users (world s') = users (world s)
  /\ organizations (world s') = organizations (world s)
  /\ messages (world s') = messages (world s).

(** A computation that only touches the usage table, and one that sends no
    response. *)
Definition usage_only {A} (c : M A) : Prop :=
  forall s, same_but_usage s (c s).2.

Definition silent {A} (c : M A) : Prop :=
  forall s r, (c s).1 <> Sent r.

(** The request with [req.user] attached by [authenticateUser]. *)
Definition authenticated (req : Req) (au : AuthUser) : Req :=
  {| http := http req; req_user := Some au; userDbId := userDbId req;
     currentUsage := currentUsage req; usageDate := usageDate req |}.

(** The request as [checkDailyQuota] passes it on below the limit, and the
    response it sends at the limit. *)
Definition attach_usage (req : Req) (uid : string) (count : Z) (d : string)
  : Req :=
  {| http := http req; req_user := req_user req; userDbId := Some uid;
     currentUsage := Some count; usageDate := Some d |}.

Definition quota_denied (limit used : Z) : Response :=
  {| status := 429;
     body := JObj [("error", JStr "Quota journalier atteint");
                   ("limit", JNum limit); ("used", JNum used)] |}.

(** Today's usage count of a user: the count of the row for (user, date),
    0 when there is none. *)
Inductive recorded_usage (uid d : string) (w : World) : Z -> Prop :=
| usage_none : usage_rows uid d w = [] -> recorded_usage uid d w 0
| usage_one row :
    usage_rows uid d w = [row] -> recorded_usage uid d w (prompts_count row).

(** The embedding call or the vector query throws. *)
Definition retrieval_fails (env : Env) (query : string) (topK : Z) : Prop :=
  (exists e, generateEmbedding env query = Thrown e)
  \/ (exists v e, generateEmbedding env query = Returned v
                  /\ index_query env v topK = Thrown e).

(** The response of a chat that has reached the hard limit. *)
Definition chat_limit_reached (count : Z) : Response :=
  {| status := 400;
     body := JObj [("error", JStr "chat_limit_reached");
                   ("message", JStr "Ce chat a atteint la limite de 200 messages. Créez un nouveau chat pour continuer.");
                   ("messageCount", JNum count)] |}.

(** The user row cannot be loaded: no row, an error, or an exception. *)
Definition user_unavailable (env : Env) (uid : string) (s : Sys) : Prop :=
  users (world s) !! uid = None \/ db_fault env QuotaUser <> NoFault.

(** ** Sample data *)

Definition sample_text : list Z := repeat 7%Z (Z.to_nat 20000).

Module Sample.

Definition employee : UserRow :=
  {| u_role := Some "employee";
     can_use_rag := Some true;
     can_upload_documents := Some false;
     can_edit_documents := Some false;
     can_delete_documents := Some false;
     daily_message_quota := Some 50;
     u_organization_id := Some "org-1";
     first_name := Some "Julie";
     u_email := Some "julie@example.com" |}.

(** One employee, no usage yet, no conversation. *)
Definition world0 : World :=
  {| conversations := ∅;
     users := {[ "u1" := employee ]};
     organizations := [];
     daily_usage := [];
     messages := [] |}.

Definition start : Sys := {| world := world0; model_calls := [] |}.

(** Every service works; the model answers "ok"; the token "t1" belongs to
    user "u1". *)
Definition env : Env :=
  {| toLowerCase := fun s => s;
     toUpperCase := fun s => s;
     today := "2025-01-15";
     auth_getUser := fun token =>
       Returned (if String.eqb token "t1"
                 then Some {| identity_id := "u1";
                              identity_email := Some "julie@example.com" |}
                 else None);
     jwt_decode := fun _ => None;
     db_fault := fun _ => NoFault;
     generateEmbedding := fun _ => Returned [];
     index_query := fun _ _ => Returned [];
     sendMessage := fun _ _ => Returned "ok" |}.

Definition hello : HttpRequest :=
  {| authorization := Some "Bearer t1";
     req_body := {| message := Some "bonjour";
                    conversationId := Value "c1";
                    forceRAG := None;
                    chatId := None;
                    body_org_code := None |} |}.

(** The same world with today's quota of "u1" used up. *)
Definition start_exhausted : Sys :=
  {| world := with_daily_usage
                [{| user_id := "u1"; date := "2025-01-15";
                    prompts_count := 50 |}] world0;
     model_calls := [] |}.

(** The same world without the row of user "u1". *)
Definition start_without_user : Sys :=
  {| world := with_users ∅ world0; model_calls := [] |}.

Definition message_row : MessageRow :=
  {| chat_id := "chat-1"; msg_role := "user"; content := "bonjour" |}.

(** The same world with a chat of 200 persisted messages, and a request
    for that chat. *)
Definition start_full_chat : Sys :=
  {| world := {| conversations := ∅;
                 users := {[ "u1" := employee ]};
                 organizations := [];
                 daily_usage := [];
                 messages := repeat message_row 200 |};
     model_calls := [] |}.

Definition hello_full_chat : HttpRequest :=
  {| authorization := Some "Bearer t1";
     req_body := {| message := Some "bonjour";
                    conversationId := Value "c1";
                    forceRAG := None;
                    chatId := Some "chat-1";
                    body_org_code := None |} |}.

(** Every service works but the count query on [messages], which
    resolves to [{ count: null, error }]. *)
Definition env_count_down : Env :=
  {| toLowerCase := fun s => s;
     toUpperCase := fun s => s;
     today := "2025-01-15";
     auth_getUser := auth_getUser env;
     jwt_decode := fun _ => None;
     db_fault := fun site =>
       match site with
       | ChatMessages => ReturnsError "connection refused"
       | _ => NoFault
       end;
     generateEmbedding := fun _ => Returned [];
     index_query := fun _ _ => Returned [];
     sendMessage := fun _ _ => Returned "ok" |}.

(** Every service works but the embedding provider; the request forces
    retrieval. *)
Definition env_embedding_down : Env :=
  {| toLowerCase := fun s => s;
     toUpperCase := fun s => s;
     today := "2025-01-15";
     auth_getUser := auth_getUser env;
     jwt_decode := fun _ => None;
     db_fault := fun _ => NoFault;
     generateEmbedding := fun _ => Thrown "embedding unavailable";
     index_query := fun _ _ => Returned [];
     sendMessage := fun _ _ => Returned "ok" |}.

Definition hello_forced : HttpRequest :=
  {| authorization := Some "Bearer t1";
     req_body := {| message := Some "bonjour";
                    conversationId := Value "c1";
                    forceRAG := Some true;
                    chatId := None;
                    body_org_code := None |} |}.

(** An employee without any override, and two organizations with the same
    id whose defaults for uploads differ. *)
Definition bare_employee : UserRow :=
  {| u_role := Some "employee";
     can_use_rag := None;
     can_upload_documents := None;
     can_edit_documents := None;
     can_delete_documents := None;
     daily_message_quota := None;
     u_organization_id := Some "org-1";
     first_name := None;
     u_email := None |}.

Definition org_uploads (allowed : bool) : OrgRow :=
  {| org_id := "org-1";
     org_code := "ORG-AB12C";
     default_can_use_rag := None;
     default_can_upload_documents := Some allowed;
     default_can_edit_documents := None;
     default_can_delete_documents := None;
     default_daily_message_quota := Some 30 |}.

(** A world where "u1" has a bare record and the organization exists, and
    the request by which "u1" joins it. *)
Definition start_before_join : Sys :=
  {| world := {| conversations := ∅;
                 users := {[ "u1" := bare_employee ]};
                 organizations := [org_uploads true];
                 daily_usage := [];
                 messages := [] |};
     model_calls := [] |}.

Definition join_request : HttpRequest :=
  {| authorization := Some "Bearer t1";
     req_body := {| message := None;
                    conversationId := Absent;
                    forceRAG := None;
                    chatId := None;
                    body_org_code := Some "ORG-AB12C" |} |}.

Definition julie : AuthUser :=
  {| id := "u1"; email := Some "julie@example.com"; app_role := None;
     organization_id := None |}.

Definition admin_row : UserRow :=
  {| u_role := Some "admin";
     can_use_rag := Some true;
     can_upload_documents := Some true;
     can_edit_documents := Some true;
     can_delete_documents := Some true;
     daily_message_quota := Some 999999;
     u_organization_id := Some "org-1";
     first_name := Some "Julie";
     u_email := Some "julie@example.com" |}.

(** The same world with "u1" an administrator. *)
Definition start_admin : Sys :=
  {| world := with_users {[ "u1" := admin_row ]} world0; model_calls := [] |}.

End Sample.


(** * The other routes on the conversation memory *)

(** ** [DELETE /api/chat/:id] *)

(** [conversations.delete(id); res.json({ message })]: no middleware, no
    check.  The id is a segment of the path, a string. *)
Definition delete_chat (id : string) : M unit :=
  w <- get_world ;;
  _ <- set_world (with_conversations (delete (Some id) (conversations w)) w) ;;
  respond 200 (JObj [("message", JStr "Historique supprimé")]).

(** ** [POST /api/chat-with-file] *)

(** [req.file] as multer's memory storage hands it over. *)
Record UploadedFile := {
  mimetype : string;
  originalname : string;
  buffer : list Byte.byte }.

(** The multipart request after [upload.single('file')]; a field of a
    multipart form is a string or is missing. *)
Record FileRequest := {
  file_message : option string;
  file_conversationId : option string;
  file_chatId : option string;
  file_upload : option UploadedFile }.

(** The runtime and the libraries the file routes call. *)
Record FileEnv := {
  (** [String.prototype.trim] *)
  trim : string -> string;
  (** [buffer.toString('base64')] and [buffer.toString('utf-8')] *)
  base64 : list Byte.byte -> string;
  utf8 : list Byte.byte -> string;
  (** [JSON.stringify(JSON.parse(text), null, 2)]; [None] when
      [JSON.parse] throws *)
  json_pretty : string -> option string;
  (** [(await mammoth.extractRawText({ buffer })).value] *)
  extractRawText : list Byte.byte -> Try string;
  (** [XLSX.read] and, for each name of [SheetNames] in order, the name
      and [XLSX.utils.sheet_to_csv] of the sheet *)
  read_sheets : list Byte.byte -> Try (list (string * string));
  (** the [messages] count query of the route *)
  file_messages_fault : Fault;
  (** [model.startChat({ history, ... })],
      [chat.sendMessage(messageParts)] and [response.text()]; the chat
      session treats the array as in [sendMessage] of [Env] *)
  sendParts : list Turn -> list Part -> Try string }.

(** [parseDOCX] *)
Definition parseDOCX (fenv : FileEnv) (buffer : list Byte.byte) : M string :=
  try_catch (lift_try (extractRawText fenv buffer))
    (fun _ => raise "Impossible de lire le DOCX").

(** [parseXLSX] *)
Definition parseXLSX (fenv : FileEnv) (buffer : list Byte.byte) : M string :=
  try_catch
    (sheets <- lift_try (read_sheets fenv buffer) ;;
     let text :=
       fold_left
         (fun (text : string) (sheet : string * string) =>
            (text ++ JS.LF ++ "=== " ++ fst sheet ++ " ===" ++ JS.LF
             ++ snd sheet ++ JS.LF)%string)
         sheets "" in
     ret (trim fenv text))
    (fun _ => raise "Impossible de lire le fichier Excel").

Definition DOCX_MIME : string :=
  "application/vnd.openxmlformats-officedocument.wordprocessingml.document".

Definition XLSX_MIME : string :=
  "application/vnd.openxmlformats-officedocument.spreadsheetml.sheet".

(** [prepareGeminiFileContent] *)
Definition prepareGeminiFileContent (fenv : FileEnv) (file : UploadedFile)
  : M Part :=
  let mimetype := mimetype file in
  let buffer := buffer file in
  if String.prefix "image/" mimetype
  then ret (InlineData mimetype (base64 fenv buffer))
  else if String.eqb mimetype "application/pdf"
  then ret (InlineData "application/pdf" (base64 fenv buffer))
  else if String.eqb mimetype DOCX_MIME
  then docxText <- parseDOCX fenv buffer ;; ret (TextPart docxText)
  else if String.eqb mimetype XLSX_MIME
          || String.eqb mimetype "application/vnd.ms-excel"
  then xlsxText <- parseXLSX fenv buffer ;; ret (TextPart xlsxText)
  else if String.eqb mimetype "application/json"
  then
    let jsonText := utf8 fenv buffer in
    match json_pretty fenv jsonText with
    | Some pretty => ret (TextPart pretty)
    | None => ret (TextPart jsonText)
    end
  else if String.prefix "text/" mimetype
          || String.eqb mimetype "application/xml"
          || String.eqb mimetype "text/xml"
          || String.eqb mimetype "text/markdown"
  then ret (TextPart (utf8 fenv buffer))
  else raise ("Type de fichier non supporté: " ++ mimetype).

(** The [messages] count query, under a given behaviour of the call. *)
Definition messages_count_under (f : Fault) (c : string) : M (option Z) :=
  fun s =>
    match f with
    | NoFault => (Done (Some (persisted_messages c (world s))), s)
    | ReturnsError _ => (Done None, s)
    | Throws e => (Raised e, s)
    end.

(** The handler of [POST /api/chat-with-file].  The route has no
    authentication and no quota middleware.  The fire-and-forget
    [log_gemini_usage] call is left out as in [chat_handler]. *)
Definition chat_with_file_handler (fenv : FileEnv) (r : FileRequest) : M unit :=
  try_catch
    (let conversationId := Some (JS.nullish (file_conversationId r) "default") in
     match file_message r, file_upload r with
     | Some message, Some file =>
         if negb (JS.truthy_string (Some message))
         then respond 400 (error_body "Message et fichier requis")
         else
           _ <- match file_chatId r with
                | Some c =>
                    if JS.truthy_string (Some c) then
                      messageCount <-
                        messages_count_under (file_messages_fault fenv) c ;;
                      if JS.ge_nullable messageCount
                           CHAT_CONFIG.MAX_MESSAGES_PER_CHAT
                      then respond 400
                             (JObj [("error", JStr "chat_limit_reached");
                                    ("message", JStr "Ce chat a atteint la limite de 200 messages.");
                                    ("messageCount",
                                     match messageCount with
                                     | Some n => JNum n
                                     | None => JNull
                                     end)])
                      else ret tt
                    else ret tt
                | None => ret tt
                end ;;
           w <- get_world ;;
           let history :=
             window (default [] (conversations w !! conversationId)) in
           fileContent <- prepareGeminiFileContent fenv file ;;
           let messageParts :=
             fileContent
             :: (if JS.truthy_string (Some (trim fenv message))
                 then [TextPart message]
                 else []) in
           reply <- lift_try (sendParts fenv history messageParts) ;;
           let history := sdk_push history messageParts reply in
           _ <- remember conversationId history
                  ("[Fichier: " ++ originalname file ++ "] " ++ message) reply ;;
           respond 200
             (JObj [("response", JStr reply);
                    ("conversationId", json_of_string conversationId);
                    ("fileName", JStr (originalname file));
                    ("uiMessage", JNull)])
     | _, _ => respond 400 (error_body "Message et fichier requis")
     end)
    (fun e =>
       respond 500 (JObj [("error", JStr "Erreur traitement fichier");
                          ("details", JStr e)])).

Definition file_cid (r : FileRequest) : option string :=
  Some (JS.nullish (file_conversationId r) "default").

(** ** Calls of the three routes, one after the other *)

Inductive Call :=
| ChatCall (env : Env) (h : HttpRequest)
| FileCall (fenv : FileEnv) (r : FileRequest)
| ClearCall (id : string).

Definition run_call (c : Call) : M unit :=
  match c with
  | ChatCall env h => post_api_chat env h
  | FileCall fenv r => chat_with_file_handler fenv r
  | ClearCall id => delete_chat id
  end.

Fixpoint run_calls (calls : list Call) (s : Sys) : list (Outcome unit) * Sys :=
  match calls with
  | [] => ([], s)
  | c :: rest =>
      let (o, s1) := run_call c s in
      let (os, s2) := run_calls rest s1 in
      (o :: os, s2)
  end.

(** The MIME types [prepareGeminiFileContent] has a branch for
    ([text/xml] and [text/markdown] are among those that start with
    [text/]). *)
Definition supported_mime (mimetype : string) : bool :=
  String.prefix "image/" mimetype
  || String.eqb mimetype "application/pdf"
  || String.eqb mimetype DOCX_MIME
  || String.eqb mimetype XLSX_MIME
  || String.eqb mimetype "application/vnd.ms-excel"
  || String.eqb mimetype "application/json"
  || String.prefix "text/" mimetype
  || String.eqb mimetype "application/xml".

(** Every stored history has at most [n] turns. *)
Definition histories_within (n : nat) (s : Sys) : Prop :=
  forall c history,
    conversations (world s) !! c = Some history -> (length history <= n)%nat.

(** ** Further vocabulary and sample data *)

(** The two advisory notices of the chat route. *)
Definition suggest_new_chat (count : Z) : Json :=
  JObj [("type", JStr "warning");
        ("text", JStr ("💡 Ce chat a " ++ JS.number_to_string count
           ++ " messages. Pour un nouveau sujet, créez un nouveau chat."));
        ("count", JNum count)].

Definition long_chat_notice (count : Z) : Json :=
  JObj [("type", JStr "info");
        ("text", JStr ("ℹ️ Chat long (" ++ JS.number_to_string count
           ++ " messages). Les messages les plus anciens ne sont plus dans le contexte."));
        ("count", JNum count)].

(** The user row is there and [used] prompts are on record for today. *)
Definition on_record (env : Env) (au : AuthUser) (u : UserRow) (used : Z)
    (s : Sys) : Prop :=
  users (world s) !! id au = Some u
  /\ recorded_usage (id au) (today env) (world s) used.

Definition status_of (o : Outcome unit) : option Z :=
  match o with
  | Sent r => Some (status r)
  | _ => None
  end.

Module Sample2.

(** The vector store answers with one match; everything else as in
    [Sample.env]. *)
Definition env_with_match : Env :=
  {| toLowerCase := fun s => s;
     toUpperCase := fun s => s;
     today := "2025-01-15";
     auth_getUser := auth_getUser Sample.env;
     jwt_decode := fun _ => None;
     db_fault := fun _ => NoFault;
     generateEmbedding := fun _ => Returned [];
     index_query := fun _ _ =>
       Returned [ {| match_id := "doc-1";
                     metadata := Some {| md_source := Some "bilan.pdf";
                                         md_text := Some "CA 2024" |} |} ];
     sendMessage := fun _ _ => Returned "ok" |}.

(** An employee whose RAG access is switched off, with a quota of 3. *)
Definition no_rag_employee : UserRow :=
  {| u_role := Some "employee";
     can_use_rag := Some false;
     can_upload_documents := Some false;
     can_edit_documents := Some false;
     can_delete_documents := Some false;
     daily_message_quota := Some 3;
     u_organization_id := Some "org-1";
     first_name := Some "Julie";
     u_email := Some "julie@example.com" |}.

Definition start_no_rag : Sys :=
  {| world := with_users {[ "u1" := no_rag_employee ]} Sample.world0;
     model_calls := [] |}.

(** A chat of 100 persisted messages. *)
Definition start_100_messages : Sys :=
  {| world := {| conversations := ∅;
                 users := {[ "u1" := Sample.employee ]};
                 organizations := [];
                 daily_usage := [];
                 messages := repeat Sample.message_row 100 |};
     model_calls := [] |}.

(** A file service where everything works; a PNG picture and a request
    that sends it without token. *)
Definition fenv : FileEnv :=
  {| trim := fun s => s;
     base64 := fun _ => "aGVsbG8=";
     utf8 := fun _ => "hello";
     json_pretty := fun t => Some t;
     extractRawText := fun _ => Returned "docx text";
     read_sheets := fun _ => Returned [("Feuil1", "a,b")];
     file_messages_fault := NoFault;
     sendParts := fun _ _ => Returned "vu" |}.

Definition picture : UploadedFile :=
  {| mimetype := "image/png"; originalname := "photo.png"; buffer := [] |}.

Definition archive : UploadedFile :=
  {| mimetype := "application/zip"; originalname := "a.zip"; buffer := [] |}.

Definition file_request (f : UploadedFile) : FileRequest :=
  {| file_message := Some "que vois-tu ?";
     file_conversationId := Some "c1";
     file_chatId := None;
     file_upload := Some f |}.

End Sample2.

(** * Administration of permissions and organizations *)

(** A call to the database at a place outside [Site], under a given
    behaviour of the call. *)
Definition select_single_under {A} (f : Fault) (rows : World -> list A)
  : M (QueryResult A) :=
  fun s =>
    match f with
    | NoFault => (Done (single (rows (world s))), s)
    | ReturnsError e => (Done {| data := None; error := Some e |}, s)
    | Throws e => (Raised e, s)
    end.

Definition write_under (f : Fault) (g : World -> World) : M (option string) :=
  fun s =>
    match f with
    | NoFault =>
        (Done None, {| world := g (world s); model_calls := model_calls s |})
    | ReturnsError e => (Done (Some e), s)
    | Throws e => (Raised e, s)
    end.

(** ** [PATCH /api/users/:id/permissions] *)

(** The column after [.update({ column: field })]: the client sends the
    object as JSON, which leaves out a property that is [undefined]. *)
Definition updated {A} (field : Field A) (old : option A) : option A :=
  match field with
  | Absent => old
  | Null => None
  | Value a => Some a
  end.

(** The five properties of [req.body] the route reads. *)
Record PermissionsBody := {
  body_can_use_rag : Field bool;
  body_can_upload_documents : Field bool;
  body_can_edit_documents : Field bool;
  body_can_delete_documents : Field bool;
  body_daily_message_quota : Field Z }.

(** [.update({ can_use_rag: req.body.can_use_rag, ... })] on one row. *)
Definition permissions_update (b : PermissionsBody) (u : UserRow) : UserRow :=
  {| u_role := u_role u;
     can_use_rag := updated (body_can_use_rag b) (can_use_rag u);
     can_upload_documents :=
       updated (body_can_upload_documents b) (can_upload_documents u);
     can_edit_documents :=
       updated (body_can_edit_documents b) (can_edit_documents u);
     can_delete_documents :=
       updated (body_can_delete_documents b) (can_delete_documents u);
     daily_message_quota :=
       updated (body_daily_message_quota b) (daily_message_quota u);
     u_organization_id := u_organization_id u;
     first_name := first_name u;
     u_email := u_email u |}.

(** The behaviour of the three database calls of the route. *)
Record PatchFaults := {
  requester_select : Fault;
  target_select : Fault;
  permissions_write : Fault }.

(** [a.organization_id !== b.organization_id] on two nullable columns. *)
Definition same_organization (a b : UserRow) : bool :=
  bool_decide (u_organization_id a = u_organization_id b).

Definition with_permissions (targetUserId : string) (b : PermissionsBody)
    (w : World) : World :=
  with_users (alter (permissions_update b) targetUserId (users w)) w.

(** The handler of [PATCH /api/users/:id/permissions]. *)
Definition patch_permissions_handler (pf : PatchFaults) (req : Req)
    (targetUserId : string) (b : PermissionsBody) : M unit :=
  try_catch
    (requesterId <- req_user_id req ;;
     r <- select_single_under (requester_select pf) (users_by_id requesterId) ;;
     match error r, data r with
     | None, Some requester =>
         if negb (is_admin requester)
         then respond 403
                (error_body "Seuls les admins peuvent modifier des permissions")
         else
           t <- select_single_under (target_select pf)
                  (users_by_id targetUserId) ;;
           match error t, data t with
           | None, Some targetUser =>
               if negb (same_organization targetUser requester)
               then respond 403 (error_body "Organisations différentes")
               else if is_admin targetUser
               then respond 403
                      (error_body "Impossible de modifier un administrateur")
               else
                 updateError <- write_under (permissions_write pf)
                                  (with_permissions targetUserId b) ;;
                 match updateError with
                 | Some _ =>
                     respond 500 (error_body "Erreur mise à jour permissions")
                 | None => respond 200 (JObj [("success", JBool true)])
                 end
           | _, _ => respond 404 (error_body "Utilisateur cible introuvable")
           end
     | _, _ => respond 500 (error_body "Erreur vérification requester")
     end)
    (fun _ => respond 500 (error_body "Erreur serveur permissions")).

(** [app.patch('/api/users/:id/permissions', authenticateUser, handler)] *)
Definition patch_user_permissions (env : Env) (pf : PatchFaults)
    (h : HttpRequest) (targetUserId : string) (b : PermissionsBody) : M unit :=
  req <- authenticateUser env (incoming h) ;;
  patch_permissions_handler pf req targetUserId b.

(** ** [POST /api/organizations/create] *)

Record CreateEnv := {
  (** [process.env.ADMIN_SECRET] *)
  env_ADMIN_SECRET : option string;
  (** [Math.random().toString(36).substr(2, 5).toUpperCase()] *)
  random_suffix : string;
  (** the insert into [organizations], and the row it returns for a code:
      the generated id and the column defaults *)
  organization_insert : Fault;
  inserted_row : string -> OrgRow }.

Definition with_organizations (orgs : list OrgRow) (w : World) : World :=
  {| conversations := conversations w; users := users w;
     organizations := orgs; daily_usage := daily_usage w;
     messages := messages w |}.

(** [.insert({ name, org_code, owner_id }).select().single()] *)
Definition insert_organization (cenv : CreateEnv) (org_code : string)
  : M (QueryResult OrgRow) :=
  fun s =>
    match organization_insert cenv with
    | NoFault =>
        let row := inserted_row cenv org_code in
        (Done {| data := Some row; error := None |},
         {| world := with_organizations (organizations (world s) ++ [row])
                       (world s);
            model_calls := model_calls s |})
    | ReturnsError e => (Done {| data := None; error := Some e |}, s)
    | Throws e => (Raised e, s)
    end.

(** The handler of [POST /api/organizations/create].  The object literal
    of the [users] update names [can_upload_documents] and
    [can_edit_documents] as shorthand properties; no such binding is in
    scope, so evaluating the literal throws a [ReferenceError] before
    [update] is called. *)
Definition create_organization_handler (cenv : CreateEnv) (req : Req)
    (admin_code : option string) : M unit :=
  try_catch
    (let ADMIN_SECRET := JS.string_or (env_ADMIN_SECRET cenv) "AIOS-ADMIN-2025" in
     if negb (bool_decide (admin_code = Some ADMIN_SECRET))
     then respond 403 (error_body "Code admin invalide")
     else
       let org_code := ("ORG-" ++ random_suffix cenv)%string in
       _ <- req_user_id req ;;
       r <- insert_organization cenv org_code ;;
       match error r with
       | Some e => raise e
       | None =>
           match data r with
           | None => raise "Cannot read properties of null (reading 'id')"
           | Some _ => raise "can_upload_documents is not defined"
           end
       end)
    (fun e => respond 500 (error_body e)).

Definition post_organizations_create (env : Env) (cenv : CreateEnv)
    (h : HttpRequest) (admin_code : option string) : M unit :=
  req <- authenticateUser env (incoming h) ;;
  create_organization_handler cenv req admin_code.

(** ** [PATCH /api/organizations/:id/permissions] *)

(** The properties of [req.body] that are columns of the model: [id] and
    [org_code], a string when present, and the five defaults.  The route
    hands the body to [update] as it is. *)
Record OrgUpdates := {
  upd_id : option string;
  upd_org_code : option string;
  upd_default_can_use_rag : Field bool;
  upd_default_can_upload_documents : Field bool;
  upd_default_can_edit_documents : Field bool;
  upd_default_can_delete_documents : Field bool;
  upd_default_daily_message_quota : Field Z }.

(** [.update(updates)] on one row. *)
Definition organization_update (u : OrgUpdates) (o : OrgRow) : OrgRow :=
  {| org_id := JS.nullish (upd_id u) (org_id o);
     org_code := JS.nullish (upd_org_code u) (org_code o);
     default_can_use_rag :=
       updated (upd_default_can_use_rag u) (default_can_use_rag o);
     default_can_upload_documents :=
       updated (upd_default_can_upload_documents u)
         (default_can_upload_documents o);
     default_can_edit_documents :=
       updated (upd_default_can_edit_documents u) (default_can_edit_documents o);
     default_can_delete_documents :=
       updated (upd_default_can_delete_documents u)
         (default_can_delete_documents o);
     default_daily_message_quota :=
       updated (upd_default_daily_message_quota u)
         (default_daily_message_quota o) |}.

(** [.update(updates).eq('id', orgId)] *)
Definition update_organization (orgId : string) (u : OrgUpdates)
    (o : OrgRow) : OrgRow :=
  if String.eqb (org_id o) orgId then organization_update u o else o.

Definition with_organization_updates (orgId : string) (u : OrgUpdates)
    (w : World) : World :=
  with_organizations (map (update_organization orgId u) (organizations w)) w.

(** The handler of [PATCH /api/organizations/:id/permissions]; [f] is the
    behaviour of the update. *)
Definition patch_organization_handler (f : Fault) (req : Req)
    (orgId : string) (updates : OrgUpdates) : M unit :=
  try_catch
    (match req_user req with
     | None =>
         raise "Cannot read properties of undefined (reading 'organization_id')"
     | Some au =>
         if negb (bool_decide (organization_id au = Some orgId))
         then respond 403 (error_body "Accès refusé")
         else
           error <- write_under f (with_organization_updates orgId updates) ;;
           match error with
           | Some e => raise e
           | None => respond 200 (JObj [("success", JBool true)])
           end
     end)
    (fun _ => respond 500 (error_body "Erreur mise à jour permissions")).

Definition patch_organization_permissions (env : Env) (f : Fault)
    (h : HttpRequest) (orgId : string) (updates : OrgUpdates) : M unit :=
  req <- authenticateUser env (incoming h) ;;
  patch_organization_handler f req orgId updates.

(** ** Vocabulary *)

(** The routes behind [authenticateUser], each with the rest of its
    input. *)
Inductive Guarded :=
| Chat
| MyPermissions
| JoinOrganization
| PatchPermissions (pf : PatchFaults) (targetUserId : string)
    (b : PermissionsBody)
| CreateOrganization (cenv : CreateEnv) (admin_code : option string)
| PatchOrganization (f : Fault) (orgId : string) (updates : OrgUpdates).

Definition guarded_route (env : Env) (g : Guarded) (h : HttpRequest) : M unit :=
  match g with
  | Chat => post_api_chat env h
  | MyPermissions => get_my_permissions env h
  | JoinOrganization => post_organizations_join env h
  | PatchPermissions pf target b => patch_user_permissions env pf h target b
  | CreateOrganization cenv code => post_organizations_create env cenv h code
  | PatchOrganization f orgId updates =>
      patch_organization_permissions env f h orgId updates
  end.

(** The token of a request: what follows [Bearer ] in the header. *)
Definition bearer_token (h : HttpRequest) : option string :=
  match authorization h with
  | Some a =>
      if String.prefix "Bearer " a
      then Some (String.substring 7 (String.length a - 7) a)
      else None
  | None => None
  end.

(** The token is one the authentication service vouches for. *)
Definition valid_token (env : Env) (h : HttpRequest) : Prop :=
  exists token u,
    bearer_token h = Some token
    /\ auth_getUser env token = Returned (Some u).

(** [decoded?.organization_id || null] for the token. *)
Definition claimed_organization (env : Env) (token : string) : option string :=
  match jwt_decode env token with
  | Some c => match claim_organization_id c with
              | Some "" => None
              | x => x
              end
  | None => None
  end.

Definition unauthorized (e : string) : Response :=
  {| status := 401; body := error_body e |}.

(** The user agrees with the row but for the five permission columns. *)
Definition same_identity (u u' : UserRow) : Prop :=
  u_role u' = u_role u
  /\ u_organization_id u' = u_organization_id u
  /\ first_name u' = first_name u
  /\ u_email u' = u_email u.

Module Sample3.

(** An administrator "a1" and an employee "u1" of the same organization;
    the token "ta" belongs to "a1" and "t1" to "u1". *)
Definition world_org : World :=
  {| conversations := ∅;
     users := {[ "a1" := Sample.admin_row; "u1" := Sample.employee ]};
     organizations := [];
     daily_usage := [];
     messages := [] |}.

Definition start_org : Sys := {| world := world_org; model_calls := [] |}.

Definition env : Env :=
  {| toLowerCase := fun s => s;
     toUpperCase := fun s => s;
     today := "2025-01-15";
     auth_getUser := fun token =>
       Returned (if String.eqb token "t1"
                 then Some {| identity_id := "u1";
                              identity_email := Some "julie@example.com" |}
                 else if String.eqb token "ta"
                 then Some {| identity_id := "a1";
                              identity_email := Some "admin@example.com" |}
                 else None);
     jwt_decode := fun _ => None;
     db_fault := fun _ => NoFault;
     generateEmbedding := fun _ => Returned [];
     index_query := fun _ _ => Returned [];
     sendMessage := fun _ _ => Returned "ok" |}.

Definition no_faults : PatchFaults :=
  {| requester_select := NoFault;
     target_select := NoFault;
     permissions_write := NoFault |}.

Definition empty_body : Body :=
  {| message := None; conversationId := Absent; forceRAG := None;
     chatId := None; body_org_code := None |}.

Definition as_admin : HttpRequest :=
  {| authorization := Some "Bearer ta"; req_body := empty_body |}.

Definition as_employee : HttpRequest :=
  {| authorization := Some "Bearer t1"; req_body := empty_body |}.

Definition anonymous : HttpRequest :=
  {| authorization := None; req_body := empty_body |}.

(** A quota of 2 messages a day and nothing else. *)
Definition quota_2 : PermissionsBody :=
  {| body_can_use_rag := Absent;
     body_can_upload_documents := Absent;
     body_can_edit_documents := Absent;
     body_can_delete_documents := Absent;
     body_daily_message_quota := Value 2 |}.

(** The token "t1" carries the claims of an employee of "org-1". *)
Definition env_claims : Env :=
  {| toLowerCase := fun s => s;
     toUpperCase := fun s => s;
     today := "2025-01-15";
     auth_getUser := fun token =>
       Returned (if String.eqb token "t1"
                 then Some {| identity_id := "u1";
                              identity_email := Some "julie@example.com" |}
                 else None);
     jwt_decode := fun token =>
       if String.eqb token "t1"
       then Some {| claim_app_role := Some "employee";
                    claim_organization_id := Some "org-1" |}
       else None;
     db_fault := fun _ => NoFault;
     generateEmbedding := fun _ => Returned [];
     index_query := fun _ _ => Returned [];
     sendMessage := fun _ _ => Returned "ok" |}.

(** A daily quota of 5 messages and nothing else. *)
Definition default_quota_5 : OrgUpdates :=
  {| upd_id := None;
     upd_org_code := None;
     upd_default_can_use_rag := Absent;
     upd_default_can_upload_documents := Absent;
     upd_default_can_edit_documents := Absent;
     upd_default_can_delete_documents := Absent;
     upd_default_daily_message_quota := Value 5 |}.

Definition cenv : CreateEnv :=
  {| env_ADMIN_SECRET := None;
     random_suffix := "AB12C";
     organization_insert := NoFault;
     inserted_row := fun code =>
       {| org_id := "org-9"; org_code := code;
          default_can_use_rag := None;
          default_can_upload_documents := None;
          default_can_edit_documents := None;
          default_can_delete_documents := None;
          default_daily_message_quota := None |} |}.

End Sample3.

(** * The document routes on the vector index *)

(** A document text, as UTF-16 code units. *)
Abbreviation Text := (list Z) (only parsing).

(** The metadata the upload routes store with a vector; a vector written
    by another client may lack any of it. *)
Record VectorMetadata := {
  vm_text : option Text;
  vm_source : option string;
  vm_uploadedAt : option string;
  vm_chunkIndex : option Z;
  vm_totalChunks : option Z }.

Record Vector := {
  values : Embedding;
  vector_metadata : option VectorMetadata }.

(** The namespace [''] of the Pinecone index: vectors by id. *)
Abbreviation Index := (gmap string Vector) (only parsing).

(** A match of a query with [includeMetadata: true]. *)
Record DocMatch := {
  dm_id : string;
  dm_metadata : option VectorMetadata }.

Definition match_of (entry : string * Vector) : DocMatch :=
  {| dm_id := entry.1; dm_metadata := vector_metadata entry.2 |}.

(** Every vector of the index as a match, in the order of the keys. *)
Definition matches_of (ix : Index) : list DocMatch :=
  map match_of (map_to_list ix).

(** The services the document routes call. *)
Record DocEnv := {
  (** [generateEmbedding(chunk)] *)
  embed : Text -> Try Embedding;
  (** [index.namespace('').upsert([{ id, ... }])]: the message it rejects
      with, if it does *)
  upsert_fault : string -> option string;
  (** [new Date().toISOString()] when the vector of a chunk is built, by
      chunk index, and when a document is read *)
  upsert_time : nat -> string;
  read_time : string;
  (** [index.namespace('').query({ vector: zero, topK: 10000,
      includeMetadata: true })]: the matches *)
  query_all : Index -> Try (list DocMatch);
  (** [index.namespace('').deleteMany(ids)]: the message it rejects with,
      if it does; nothing is deleted then *)
  deleteMany_fault : option string;
  (** of the rejections of the promises given to [Promise.all], listed in
      the order of the promises, the one that comes first in time *)
  first_rejection : list string -> string }.

(** What the four routes answer. *)
Record ChunkRef := { ref_id : string; ref_chunkIndex : Z }.

Record DocumentEntry := {
  doc_id : string;
  doc_source : string;
  doc_uploadedAt : string;
  doc_chunks : list ChunkRef }.

(** [chunkCount: doc.chunks.length] *)
Definition doc_chunkCount (d : DocumentEntry) : Z :=
  Z.of_nat (length (doc_chunks d)).

Inductive DocAnswer :=
| Uploaded (ids : list string) (chunks : Z) (message : string)
| Listed (documents : list DocumentEntry)
| Document (id source uploadedAt : string) (text : Text) (chunkCount : Z)
| Deleted (deletedChunks : Z) (message : string)
| DocError (status : Z) (error : string) (details : option string).

(** ** [POST /api/upload-document] *)

(** [chunks.length > 1 ? `${id}-chunk-${chunkIndex + 1}` : id] *)
Definition chunk_id (id : string) (totalChunks chunkIndex : nat) : string :=
  if (1 <? totalChunks)%nat
  then (id ++ "-chunk-" ++ JS.number_to_string (Z.of_nat chunkIndex + 1))%string
  else id.

(** One of the promises of [chunks.map(async (chunk, chunkIndex) => ...)]:
    the vector it upserts, or the message it rejects with. *)
Definition upload_chunk (denv : DocEnv) (id source : string)
    (totalChunks chunkIndex : nat) (chunk : Text) : Try (string * Vector) :=
  let chunkId := chunk_id id totalChunks chunkIndex in
  match embed denv chunk with
  | Thrown e => Thrown e
  | Returned embedding =>
      match upsert_fault denv chunkId with
      | Some e => Thrown e
      | None =>
          Returned
            (chunkId,
             {| values := embedding;
                vector_metadata :=
                  Some {| vm_text := Some chunk;
                          vm_source := Some source;
                          vm_uploadedAt := Some (upsert_time denv chunkIndex);
                          vm_chunkIndex := Some (Z.of_nat chunkIndex);
                          vm_totalChunks := Some (Z.of_nat totalChunks) |} |})
      end
  end.

(** The index once every promise has settled: each upsert that went
    through is in, whether or not another promise was rejected. *)
Definition settle (results : list (Try (string * Vector))) (ix : Index)
  : Index :=
  fold_left
    (fun ix r =>
       match r with
       | Returned (chunkId, v) => <[chunkId := v]> ix
       | Thrown _ => ix
       end)
    results ix.

Fixpoint rejections {A} (results : list (Try A)) : list string :=
  match results with
  | [] => []
  | Returned _ :: rest => rejections rest
  | Thrown e :: rest => e :: rejections rest
  end.

Fixpoint fulfilled {A} (results : list (Try A)) : list A :=
  match results with
  | [] => []
  | Returned a :: rest => a :: fulfilled rest
  | Thrown _ :: rest => fulfilled rest
  end.

(** The handler of [POST /api/upload-document], after
    [authenticateUser]: [id], [text] and [source] are the properties of
    the body. *)
Definition upload_document (denv : DocEnv) (id : option string)
    (text : option Text) (source : option string) (ix : Index)
  : DocAnswer * Index :=
  match id, text with
  | Some id, Some text =>
      if negb (JS.truthy_string (Some id)) || bool_decide (text = [])
      then (DocError 400 "id et text requis" None, ix)
      else
        let source := JS.nullish source "manual" in
        let chunks := Chunker.chunk text in
        let total := length chunks in
        let results := imap (upload_chunk denv id source total) chunks in
        match rejections results with
        | [] =>
            (Uploaded (map fst (fulfilled results)) (Z.of_nat total)
               (if (1 <? total)%nat
                then ("Document divisé en "
                      ++ JS.number_to_string (Z.of_nat total)
                      ++ " morceaux et ajouté à Pinecone")%string
                else "Document ajouté à Pinecone"),
             settle results ix)
        | e :: es =>
            (DocError 500 "Erreur upload"
               (Some (first_rejection denv (e :: es))),
             settle results ix)
        end
  | _, _ => (DocError 400 "id et text requis" None, ix)
  end.

(** ** [GET /api/documents/:id] and [DELETE /api/documents/:id] *)

(** [match.id === id || match.id.startsWith(`${id}-chunk-`)] *)
Definition belongs_to (id : string) (m : DocMatch) : bool :=
  String.eqb (dm_id m) id || String.prefix (id ++ "-chunk-") (dm_id m).

(** [match.metadata?.chunkIndex || 0] *)
Definition chunk_order (m : DocMatch) : Z :=
  JS.number_or
    (match dm_metadata m with Some md => vm_chunkIndex md | None => None end)
    0.

(** [.sort((a, b) => (a.metadata?.chunkIndex || 0)
                      - (b.metadata?.chunkIndex || 0))]:
    [Array.prototype.sort] is stable, so the result is the stable sort by
    that key, here by insertion. *)
Fixpoint insert_by_chunkIndex (x : DocMatch) (sorted : list DocMatch)
  : list DocMatch :=
  match sorted with
  | [] => [x]
  | y :: rest =>
      if (chunk_order y <? chunk_order x)%Z
      then y :: insert_by_chunkIndex x rest
      else x :: y :: rest
  end.

Definition sort_by_chunkIndex (l : list DocMatch) : list DocMatch :=
  foldr insert_by_chunkIndex [] l.

(** [chunk.metadata?.text || ''] *)
Definition chunk_text (m : DocMatch) : Text :=
  match dm_metadata m with
  | Some md => default [] (vm_text md)
  | None => []
  end.

Definition match_source (m : DocMatch) : string :=
  JS.string_or
    (match dm_metadata m with Some md => vm_source md | None => None end)
    "Unknown".

Definition match_uploadedAt (denv : DocEnv) (m : DocMatch) : string :=
  JS.string_or
    (match dm_metadata m with Some md => vm_uploadedAt md | None => None end)
    (read_time denv).

(** The handler of [GET /api/documents/:id]. *)
Definition get_document (denv : DocEnv) (id : string) (ix : Index)
  : DocAnswer :=
  match query_all denv ix with
  | Thrown e => DocError 500 "Erreur récupération document" (Some e)
  | Returned matches =>
      let chunks := sort_by_chunkIndex (List.filter (belongs_to id) matches) in
      match chunks with
      | [] => DocError 404 "Document non trouvé" None
      | first :: _ =>
          Document id (match_source first) (match_uploadedAt denv first)
            (concat (map chunk_text chunks)) (Z.of_nat (length chunks))
      end
  end.

(** The handler of [DELETE /api/documents/:id], after
    [authenticateUser]. *)
Definition delete_document (denv : DocEnv) (id : string) (ix : Index)
  : DocAnswer * Index :=
  match query_all denv ix with
  | Thrown e => (DocError 500 "Erreur suppression document" (Some e), ix)
  | Returned matches =>
      let chunkIds := map dm_id (List.filter (belongs_to id) matches) in
      match chunkIds with
      | [] => (DocError 404 "Document non trouvé" None, ix)
      | _ :: _ =>
          match deleteMany_fault denv with
          | Some e =>
              (DocError 500 "Erreur suppression document" (Some e), ix)
          | None =>
              (Deleted (Z.of_nat (length chunkIds))
                 ("Document supprimé ("
                  ++ JS.number_to_string (Z.of_nat (length chunkIds))
                  ++ " morceaux)")%string,
               foldr delete ix chunkIds)
          end
      end
  end.

(** ** [GET /api/documents] *)

(** [\d] *)
Definition is_digit (c : ascii) : bool :=
  (48 <=? nat_of_ascii c)%nat && (nat_of_ascii c <=? 57)%nat.

Fixpoint all_digits (s : string) : bool :=
  match s with
  | EmptyString => true
  | String c rest => is_digit c && all_digits rest
  end.

(** The whole of [s] is [-chunk-] and one digit or more: [/-chunk-\d+$/]
    matches at the first character of [s]. *)
Definition chunk_suffix (s : string) : bool :=
  String.prefix "-chunk-" s
  && (let digits := String.substring 7 (String.length s - 7) s in
      negb (String.eqb digits "") && all_digits digits).

(** [id.replace(/-chunk-\d+$/, '')]: the leftmost match is taken out, and
    it goes to the end of the string. *)
Fixpoint strip_chunk_suffix (s : string) : string :=
  if chunk_suffix s then EmptyString
  else match s with
       | EmptyString => EmptyString
       | String c rest => String c (strip_chunk_suffix rest)
       end.

(** [documentsMap.has(baseId)] and
    [documentsMap.get(baseId).chunks.push(c)] on the entries in insertion
    order. *)
Definition has_document (baseId : string) (docs : list DocumentEntry) : bool :=
  existsb (fun d => String.eqb (doc_id d) baseId) docs.

Fixpoint push_chunk (baseId : string) (c : ChunkRef)
    (docs : list DocumentEntry) : list DocumentEntry :=
  match docs with
  | [] => []
  | d :: rest =>
      if String.eqb (doc_id d) baseId
      then {| doc_id := doc_id d; doc_source := doc_source d;
              doc_uploadedAt := doc_uploadedAt d;
              doc_chunks := doc_chunks d ++ [c] |} :: rest
      else d :: push_chunk baseId c rest
  end.

(** [{ id: match.id, chunkIndex: match.metadata?.chunkIndex || 0 }] *)
Definition chunk_ref (m : DocMatch) : ChunkRef :=
  {| ref_id := dm_id m; ref_chunkIndex := chunk_order m |}.

(** The body of [queryResponse.matches.forEach(match => ...)]. *)
Definition add_match (denv : DocEnv) (docs : list DocumentEntry)
    (m : DocMatch) : list DocumentEntry :=
  let baseId := strip_chunk_suffix (dm_id m) in
  let docs :=
    if has_document baseId docs then docs
    else docs ++ [{| doc_id := baseId;
                     doc_source := match_source m;
                     doc_uploadedAt := match_uploadedAt denv m;
                     doc_chunks := [] |}] in
  push_chunk baseId (chunk_ref m) docs.

Definition group_documents (denv : DocEnv) (matches : list DocMatch)
  : list DocumentEntry :=
  fold_left (add_match denv) matches [].

(** The handler of [GET /api/documents]. *)
Definition list_documents (denv : DocEnv) (ix : Index) : DocAnswer :=
  match query_all denv ix with
  | Thrown e => DocError 500 "Erreur liste documents" (Some e)
  | Returned matches => Listed (group_documents denv matches)
  end.

(** ** Vocabulary *)

(** The query returns every vector of the index, in some order. *)
Definition query_complete (denv : DocEnv) : Prop :=
  forall ix, exists matches,
    query_all denv ix = Returned matches /\ matches ≡ₚ matches_of ix.


(** Embedding and upsert work for every chunk. *)
Definition uploads_work (denv : DocEnv) : Prop :=
  (forall chunk, exists v, embed denv chunk = Returned v)
  /\ (forall k, upsert_fault denv k = None).

(** The match a query returns for chunk [chunkIndex] of an uploaded
    document. *)
Definition uploaded_match (denv : DocEnv) (id source : string)
    (totalChunks chunkIndex : nat) (chunk : Text) : DocMatch :=
  {| dm_id := chunk_id id totalChunks chunkIndex;
     dm_metadata :=
       Some {| vm_text := Some chunk;
               vm_source := Some source;
               vm_uploadedAt := Some (upsert_time denv chunkIndex);
               vm_chunkIndex := Some (Z.of_nat chunkIndex);
               vm_totalChunks := Some (Z.of_nat totalChunks) |} |}.

Definition in_chunk_order (a b : DocMatch) : Prop :=
  (chunk_order a <= chunk_order b)%Z.

(** The vector under key [k], as a match, counts as a chunk of [id]. *)
Definition chunk_of (id : string) (ix : Index) (k : string) : bool :=
  match ix !! k with
  | Some v => belongs_to id {| dm_id := k; dm_metadata := vector_metadata v |}
  | None => false
  end.

(** The ids an upload of [text] under [id] gives to its chunks. *)
Definition chunk_ids (id : string) (text : Text) : list string :=
  imap (fun chunkIndex _ => chunk_id id (length (Chunker.chunk text)) chunkIndex)
    (Chunker.chunk text).

(** Every vector of the index that counts as a chunk of [id] has the id of
    a chunk of [text]: an upload of [text] under [id] overwrites it. *)
Definition replaced_by (id : string) (text : Text) (ix : Index) : Prop :=
  forall k, chunk_of id ix k = true -> k ∈ chunk_ids id text.

(** No vector of the index counts as a chunk of document [id]. *)
Definition absent_from (id : string) (ix : Index) : Prop :=
  forall k, chunk_of id ix k = false.

(** The listing puts the match under document [id]. *)
Definition base_is (id : string) (m : DocMatch) : bool :=
  String.eqb (strip_chunk_suffix (dm_id m)) id.

Definition find_document (id : string) (docs : list DocumentEntry)
  : option DocumentEntry :=
  List.find (fun d => String.eqb (doc_id d) id) docs.

Definition listed_count (id : string) (docs : list DocumentEntry) : Z :=
  match find_document id docs with
  | Some d => doc_chunkCount d
  | None => 0
  end.

Module Sample4.

(** Every service works; the query returns the vectors in key order. *)
Definition denv : DocEnv :=
  {| embed := fun _ => Returned [];
     upsert_fault := fun _ => None;
     upsert_time := fun _ => "2025-01-15T10:00:00.000Z";
     read_time := "2025-01-16T10:00:00.000Z";
     query_all := fun ix => Returned (matches_of ix);
     deleteMany_fault := None;
     first_rejection := fun l => List.hd "" l |}.

Definition short_text : Text := [98; 105; 108; 97; 110]%Z.

(** The same services with the embedding provider down. *)
Definition denv_down : DocEnv :=
  {| embed := fun _ => Thrown "embedding unavailable";
     upsert_fault := fun _ => None;
     upsert_time := fun _ => "2025-01-15T10:00:00.000Z";
     read_time := "2025-01-16T10:00:00.000Z";
     query_all := fun ix => Returned (matches_of ix);
     deleteMany_fault := None;
     first_rejection := fun l => List.hd "" l |}.

End Sample4.

(** * The persisted messages of a chat *)

(** The behaviour of the two database calls of
    [POST /api/chats/:id/messages]: the insert into [messages] and the
    update of [chats.updated_at], whose result the route does not look
    at. *)
Record MessageFaults := {
  message_insert : Fault;
  chat_touch : Fault }.

Definition with_messages (rows : list MessageRow) (w : World) : World :=
  {| conversations := conversations w; users := users w;
     organizations := organizations w; daily_usage := daily_usage w;
     messages := rows |}.

(** The inserted row as the response shows it, by the columns of
    [MessageRow]. *)
Definition message_json (row : MessageRow) : Json :=
  JObj [("chat_id", JStr (chat_id row));
        ("role", JStr (msg_role row));
        ("content", JStr (content row))].

(** The handler of [POST /api/chats/:id/messages]; the route has no
    middleware. *)
Definition add_message (mf : MessageFaults) (id : string)
    (role content : option string) : M unit :=
  try_catch
    (match role, content with
     | Some role, Some content =>
         if negb (JS.truthy_string (Some role))
            || negb (JS.truthy_string (Some content))
         then respond 400 (error_body "role et content requis")
         else
           let row := {| chat_id := id; msg_role := role;
                         content := content |} in
           error <- write_under (message_insert mf)
                      (fun w => with_messages (messages w ++ [row]) w) ;;
           match error with
           | Some e => raise e
           | None =>
               _ <- write_under (chat_touch mf) (fun w => w) ;;
               respond 200 (JObj [("message", message_json row)])
           end
     | _, _ => respond 400 (error_body "role et content requis")
     end)
    (fun _ => respond 500 (error_body "Erreur ajout message")).

(** The insert goes through: the body has a role and a content and the
    call works. *)
Definition message_stored (mf : MessageFaults) (role content : option string)
  : bool :=
  JS.truthy_string role && JS.truthy_string content
  && match message_insert mf with NoFault => true | _ => false end.

Module Sample5.

Definition works : MessageFaults :=
  {| message_insert := NoFault; chat_touch := NoFault |}.

(** A chat of 199 persisted messages. *)
Definition start_199_messages : Sys :=
  {| world := {| conversations := ∅;
                 users := {[ "u1" := Sample.employee ]};
                 organizations := [];
                 daily_usage := [];
                 messages := repeat Sample.message_row 199 |};
     model_calls := [] |}.

End Sample5.

(** * [POST /api/users/signup] *)

(** The properties of [req.body] the route reads ([permissions] is taken
    out of the body and not used). *)
Record SignupBody := {
  sb_auth_user_id : option string;
  sb_email : option string;
  sb_first_name : option string;
  sb_role : option string;
  sb_company_name : option string;
  sb_admin_code : option string;
  sb_org_code : option string }.

Record SignupEnv := {
  (** [String.prototype.trim] and [toUpperCase] *)
  su_trim : string -> string;
  su_toUpperCase : string -> string;
  (** [process.env.ADMIN_CREATION_CODE] and [process.env.ADMIN_SECRET_CODE] *)
  env_ADMIN_CREATION_CODE : option string;
  env_ADMIN_SECRET_CODE : option string;
  (** the successive values of [Math.floor(Math.random() * chars.length)] *)
  random_index : nat -> nat;
  (** the id the database gives the new organization *)
  new_organization_id : string;
  (** the behaviour of the database calls: the uniqueness query, the insert
      of the organization, the query by code, the insert of the profile
      (other than on a duplicate key) and its update *)
  code_lookup : Fault;
  organization_create : Fault;
  organization_lookup : Fault;
  profile_insert : Fault;
  profile_update : Fault }.

(** [chars.charAt(i)]: the empty string out of range. *)
Definition charAt (s : string) (i : nat) : string :=
  match String.get i s with
  | Some c => String c EmptyString
  | None => EmptyString
  end.

Definition org_code_chars : string := "ABCDEFGHJKLMNPQRSTUVWXYZ23456789".

(** [generateOrgCode()], drawing from the [from]-th random value on. *)
Fixpoint random_chars (random : nat -> nat) (from count : nat) : string :=
  match count with
  | O => EmptyString
  | S count =>
      (charAt org_code_chars (random from)
       ++ random_chars random (S from) count)%string
  end.

Definition generateOrgCode (random : nat -> nat) (from : nat) : string :=
  ("ORG-" ++ random_chars random from 5)%string.

(** [while (!isUnique && attempts < 10) { ... }] with [remaining] turns
    left: the code the loop ends with. *)
Fixpoint unique_code_loop (sv : SignupEnv) (remaining attempts : nat)
    (generatedOrgCode : string) : M string :=
  match remaining with
  | O => ret generatedOrgCode
  | S remaining =>
      existing <- select_single_under (code_lookup sv)
                    (orgs_by_code generatedOrgCode) ;;
      match data existing with
      | None => ret generatedOrgCode
      | Some _ =>
          unique_code_loop sv remaining (S attempts)
            (generateOrgCode (random_index sv) (5 * S attempts))
      end
  end.

(** The organization an administrator's signup inserts. *)
Definition signup_organization (sv : SignupEnv) (code : string) : OrgRow :=
  {| org_id := new_organization_id sv;
     org_code := code;
     default_can_use_rag := Some false;
     default_can_upload_documents := Some true;
     default_can_edit_documents := Some false;
     default_can_delete_documents := Some false;
     default_daily_message_quota := Some 50 |}.

Definition admin_permissions : Permissions :=
  {| p_can_use_rag := true;
     p_can_upload_documents := true;
     p_can_edit_documents := true;
     p_can_delete_documents := true;
     p_daily_message_quota := 999999 |}.

Definition fallback_permissions : Permissions :=
  {| p_can_use_rag := false;
     p_can_upload_documents := true;
     p_can_edit_documents := false;
     p_can_delete_documents := false;
     p_daily_message_quota := 50 |}.

(** What the two branches leave for the profile: [organizationId],
    [generatedOrgCode] and [orgDefaultPermissions]. *)
Record Membership := {
  organizationId : option string;
  generatedOrgCode : option string;
  orgDefaultPermissions : option Permissions }.

(** The row the signup inserts into [users]. *)
Definition signup_profile (email first_name role : string)
    (organizationId : option string) (p : Permissions) : UserRow :=
  {| u_role := Some role;
     can_use_rag := Some (p_can_use_rag p);
     can_upload_documents := Some (p_can_upload_documents p);
     can_edit_documents := Some (p_can_edit_documents p);
     can_delete_documents := Some (p_can_delete_documents p);
     daily_message_quota := Some (p_daily_message_quota p);
     u_organization_id := organizationId;
     first_name := Some first_name;
     u_email := Some email |}.

(** [.update({ first_name, role, organization_id })] on an existing row. *)
Definition signup_update (first_name role : string)
    (organizationId : option string) (u : UserRow) : UserRow :=
  {| u_role := Some role;
     can_use_rag := can_use_rag u;
     can_upload_documents := can_upload_documents u;
     can_edit_documents := can_edit_documents u;
     can_delete_documents := can_delete_documents u;
     daily_message_quota := daily_message_quota u;
     u_organization_id := organizationId;
     first_name := Some first_name;
     u_email := u_email u |}.

Definition user_json (u : UserRow) : Json :=
  JObj [("role", json_of_string (u_role u));
        ("first_name", json_of_string (first_name u));
        ("email", json_of_string (u_email u));
        ("organization_id", json_of_string (u_organization_id u));
        ("can_use_rag", json_of_bool (can_use_rag u));
        ("can_upload_documents", json_of_bool (can_upload_documents u));
        ("can_edit_documents", json_of_bool (can_edit_documents u));
        ("can_delete_documents", json_of_bool (can_delete_documents u));
        ("daily_message_quota", json_of_number (daily_message_quota u))].

Definition signup_refusal (code : Z) (e : string) : Response :=
  {| status := code;
     body := JObj [("success", JBool false); ("error", JStr e)] |}.

Definition signup_success (u : UserRow) (m : Membership) (message : string)
  : Response :=
  {| status := 200;
     body := JObj [("success", JBool true);
                   ("user", user_json u);
                   ("organization_id", json_of_string (organizationId m));
                   ("org_code", json_of_string (generatedOrgCode m));
                   ("message", JStr message)] |}.

Definition refuse {A} (code : Z) (e : string) : M A :=
  fun s => (Sent (signup_refusal code e), s).

Definition succeed {A} (u : UserRow) (m : Membership) (message : string)
  : M A :=
  fun s => (Sent (signup_success u m message), s).

(** The branch [if (role === 'admin')]. *)
Definition admin_membership (sv : SignupEnv) (b : SignupBody)
    (ADMIN_SECRET : string) : M Membership :=
  if negb (JS.truthy_string (sb_company_name b))
     || negb (JS.truthy_string (sb_admin_code b))
  then refuse 400 "Nom entreprise et code admin requis pour administrateur"
  else if negb (bool_decide (sb_admin_code b = Some ADMIN_SECRET))
  then refuse 403 "Code administrateur incorrect"
  else
    code <- unique_code_loop sv 10 0 (generateOrgCode (random_index sv) 0) ;;
    orgError <- write_under (organization_create sv)
                  (fun w => with_organizations
                              (organizations w ++ [signup_organization sv code])
                              w) ;;
    match orgError with
    | Some _ => raise "Erreur création organisation"
    | None =>
        ret {| organizationId := Some (new_organization_id sv);
               generatedOrgCode := Some code;
               orgDefaultPermissions := None |}
    end.

(** The branch [if (role === 'employee')]. *)
Definition employee_membership (sv : SignupEnv) (b : SignupBody)
  : M Membership :=
  match sb_org_code b with
  | Some code =>
      if negb (JS.truthy_string (Some code))
      then refuse 400 "Code organisation requis pour employé"
      else
        r <- select_single_under (organization_lookup sv)
               (orgs_by_code (su_toUpperCase sv (su_trim sv code))) ;;
        match error r, data r with
        | None, Some org =>
            ret {| organizationId := Some (org_id org);
                   generatedOrgCode := Some (org_code org);
                   orgDefaultPermissions := Some (defaultPermissions org) |}
        | _, _ => refuse 404 "Organisation introuvable (code invalide)"
        end
  | None => refuse 400 "Code organisation requis pour employé"
  end.

(** The insert into [users]: a row with the same id is a duplicate key
    (error code 23505), on which the route updates the row instead. *)
Definition create_profile (sv : SignupEnv) (auth_user_id email first_name
    role : string) (m : Membership) : M unit :=
  let defaultPermissions :=
    if String.eqb role "admin" then admin_permissions
    else JS.nullish (orgDefaultPermissions m) fallback_permissions in
  let profile :=
    signup_profile email first_name role (organizationId m)
      defaultPermissions in
  w <- get_world ;;
  match users w !! auth_user_id with
  | Some existing =>
      match profile_insert sv with
      | Throws e => raise e
      | ReturnsError _ => raise "Erreur création profil utilisateur"
      | NoFault =>
          updateError <- write_under (profile_update sv)
                           (fun w => with_users
                                       (alter (signup_update first_name role
                                                 (organizationId m))
                                          auth_user_id (users w)) w) ;;
          match updateError with
          | Some _ => raise "Erreur mise à jour profil"
          | None =>
              succeed (signup_update first_name role (organizationId m)
                         existing) m "Profil mis à jour"
          end
      end
  | None =>
      userError <- write_under (profile_insert sv)
                     (fun w => with_users (<[auth_user_id := profile]> (users w))
                                 w) ;;
      match userError with
      | Some _ => raise "Erreur création profil utilisateur"
      | None =>
          succeed profile m
            (if String.eqb role "admin"
             then ("Organisation créée : "
                   ++ JS.nullish (generatedOrgCode m) "null")%string
             else "Compte créé avec succès")
      end
  end.

(** The handler of [POST /api/users/signup]; the route has no
    middleware. *)
Definition signup (sv : SignupEnv) (b : SignupBody) : M unit :=
  try_catch
    (match sb_auth_user_id b, sb_email b, sb_first_name b, sb_role b with
     | Some auth_user_id, Some email, Some first_name, Some role =>
         if negb (JS.truthy_string (Some auth_user_id))
            || negb (JS.truthy_string (Some email))
            || negb (JS.truthy_string (Some first_name))
            || negb (JS.truthy_string (Some role))
         then refuse 400
                "Données manquantes (auth_user_id, email, first_name, role requis)"
         else if negb (String.eqb role "admin" || String.eqb role "employee")
         then refuse 400 "Rôle invalide (admin ou employee)"
         else
           let ADMIN_SECRET :=
             JS.string_or (env_ADMIN_CREATION_CODE sv)
               (JS.string_or (env_ADMIN_SECRET_CODE sv) "AIOS-ADMIN-2025") in
           m <- (if String.eqb role "admin"
                 then admin_membership sv b ADMIN_SECRET
                 else employee_membership sv b) ;;
           create_profile sv auth_user_id email first_name role m
     | _, _, _, _ =>
         refuse 400
           "Données manquantes (auth_user_id, email, first_name, role requis)"
     end)
    (fun e => refuse 500 (JS.string_or (Some e) "Erreur création compte")).

(** ** [POST /api/validate-admin-code] *)

Definition valid_answer (valid : bool) : Response :=
  {| status := 200; body := JObj [("valid", JBool valid)] |}.

(** [res.json({ valid: admin_code === ADMIN_SECRET })], with
    [process.env.ADMIN_SECRET_CODE || 'AIOS-ADMIN-2025'] for the secret. *)
Definition validate_admin_code (sv : SignupEnv) (admin_code : option string)
  : Response :=
  let ADMIN_SECRET := JS.string_or (env_ADMIN_SECRET_CODE sv) "AIOS-ADMIN-2025" in
  valid_answer (bool_decide (admin_code = Some ADMIN_SECRET)).

(** ** Vocabulary *)

(** A row that has never had a permission, a role or an organization
    written to it. *)
Definition blank_profile (email first_name : string) : UserRow :=
  {| u_role := None;
     can_use_rag := None;
     can_upload_documents := None;
     can_edit_documents := None;
     can_delete_documents := None;
     daily_message_quota := None;
     u_organization_id := None;
     first_name := Some first_name;
     u_email := Some email |}.

(** The state with a blank profile for [id]. *)
Definition with_blank_profile (id email first_name : string) (s : Sys) : Sys :=
  {| world := with_users (<[id := blank_profile email first_name]>
                            (users (world s))) (world s);
     model_calls := model_calls s |}.

(** The state after the insert of an organization and of the row of
    [id]. *)
Definition signed_up (orgs : list OrgRow) (id : string) (row : UserRow)
    (s : Sys) : Sys :=
  {| world := with_users (<[id := row]> (users (world s)))
                (with_organizations orgs (world s));
     model_calls := model_calls s |}.

(** The row of [id] after a signup: the profile, or the row that was
    there with the role, the organization and the first name written
    over. *)
Definition signup_row (email first_name role : string)
    (organizationId : option string) (p : Permissions)
    (before : option UserRow) : UserRow :=
  match before with
  | Some u => signup_update first_name role organizationId u
  | None => signup_profile email first_name role organizationId p
  end.

Definition ADMIN_SECRET_of (sv : SignupEnv) : string :=
  JS.string_or (env_ADMIN_CREATION_CODE sv)
    (JS.string_or (env_ADMIN_SECRET_CODE sv) "AIOS-ADMIN-2025").

Module Sample6.

Definition sv : SignupEnv :=
  {| su_trim := fun s => s;
     su_toUpperCase := fun s => s;
     env_ADMIN_CREATION_CODE := None;
     env_ADMIN_SECRET_CODE := None;
     random_index := fun k => k;
     new_organization_id := "org-7";
     code_lookup := NoFault;
     organization_create := NoFault;
     organization_lookup := NoFault;
     profile_insert := NoFault;
     profile_update := NoFault |}.

(** The same with the insert into [users] answered by an error. *)
Definition sv_profile_down : SignupEnv :=
  {| su_trim := fun s => s;
     su_toUpperCase := fun s => s;
     env_ADMIN_CREATION_CODE := None;
     env_ADMIN_SECRET_CODE := None;
     random_index := fun k => k;
     new_organization_id := "org-7";
     code_lookup := NoFault;
     organization_create := NoFault;
     organization_lookup := NoFault;
     profile_insert := ReturnsError "permission denied for table users";
     profile_update := NoFault |}.

(** The same with [ADMIN_CREATION_CODE] set. *)
Definition sv_creation_code : SignupEnv :=
  {| su_trim := fun s => s;
     su_toUpperCase := fun s => s;
     env_ADMIN_CREATION_CODE := Some "CREATE-2026";
     env_ADMIN_SECRET_CODE := None;
     random_index := fun k => k;
     new_organization_id := "org-7";
     code_lookup := NoFault;
     organization_create := NoFault;
     organization_lookup := NoFault;
     profile_insert := NoFault;
     profile_update := NoFault |}.

Definition no_users : Sys :=
  {| world := {| conversations := ∅;
                 users := ∅;
                 organizations := [Sample.org_uploads true];
                 daily_usage := [];
                 messages := [] |};
     model_calls := [] |}.

Definition employee_signup : SignupBody :=
  {| sb_auth_user_id := Some "u2";
     sb_email := Some "paul@example.com";
     sb_first_name := Some "Paul";
     sb_role := Some "employee";
     sb_company_name := None;
     sb_admin_code := None;
     sb_org_code := Some "ORG-AB12C" |}.

Definition admin_signup : SignupBody :=
  {| sb_auth_user_id := Some "a2";
     sb_email := Some "anne@example.com";
     sb_first_name := Some "Anne";
     sb_role := Some "admin";
     sb_company_name := Some "Cabinet Anne";
     sb_admin_code := Some "AIOS-ADMIN-2025";
     sb_org_code := None |}.

End Sample6.

(** * Sample runs *)

Example slice_from_the_end :
  JS.slice [1; 2; 3; 4; 5]%Z (-2) None = [4; 5]%Z.
Proof. reflexivity. Qed.

Example slice_is_clamped :
  JS.slice [1; 2; 3; 4; 5]%Z 3 (Some 10%Z) = [4; 5]%Z.
Proof. reflexivity. Qed.

Example chunk_of_a_short_text :
  Chunker.chunk [1; 2; 3]%Z = [[1; 2; 3]%Z].
Proof. reflexivity. Qed.

Example window_of_25_turns :
  length (window (repeat (text_turn user "a") 25)) = 20%nat.
Proof. reflexivity. Qed.

Example detector_finds_entity :
  containsSpecificEntityNames Sample.env "parle-moi de rousseau" = true.
Proof. reflexivity. Qed.

Example detector_general_question :
  containsSpecificEntityNames Sample.env "quel kpi pour le commerce ?" = false.
Proof. reflexivity. Qed.

Example hello_is_answered :
  response_of (post_api_chat Sample.env Sample.hello Sample.start).1
  = Some {| status := 200; body := answer_body "ok" (Some "c1") "" JNull |}.
Proof. reflexivity. Qed.

Example hello_stores_four_turns :
  stored (Some "c1") (post_api_chat Sample.env Sample.hello Sample.start).2
  = [text_turn user "bonjour"; text_turn model "ok";
     text_turn user "bonjour"; text_turn model "ok"].
Proof. reflexivity. Qed.

Example six_requests_store_24_turns :
  length (stored (Some "c1")
            (serve (repeat (Sample.env, Sample.hello) 6) Sample.start).2)
  = 24%nat
  /\ length (stored (Some "c1")
               (serve (repeat (Sample.env, Sample.hello) 11) Sample.start).2)
     = 24%nat.
Proof. split; vm_compute; reflexivity. Qed.

Example null_conversation_is_answered_null :
  let h := {| authorization := Some "Bearer t1";
              req_body := {| message := Some "bonjour";
                             conversationId := Null;
                             forceRAG := None;
                             chatId := None;
                             body_org_code := None |} |} in
  response_of (post_api_chat Sample.env h Sample.start).1
  = Some {| status := 200; body := answer_body "ok" None "" JNull |}
  /\ length (stored None (post_api_chat Sample.env h Sample.start).2) = 4%nat
  /\ stored (Some "default") (post_api_chat Sample.env h Sample.start).2 = [].
Proof. repeat split. Qed.

Example hello_is_counted :
  daily_usage (world (post_api_chat Sample.env Sample.hello Sample.start).2)
  = [{| user_id := "u1"; date := "2025-01-15"; prompts_count := 1 |}].
Proof. reflexivity. Qed.

Example hello_twice_is_counted_twice :
  daily_usage
    (world (serve [(Sample.env, Sample.hello); (Sample.env, Sample.hello)]
              Sample.start).2)
  = [{| user_id := "u1"; date := "2025-01-15"; prompts_count := 2 |}].
Proof. reflexivity. Qed.

Example hello_without_token :
  response_of
    (post_api_chat Sample.env
       {| authorization := None; req_body := req_body Sample.hello |}
       Sample.start).1
  = Some {| status := 401; body := error_body "Token manquant" |}.
Proof. reflexivity. Qed.

Example context_of_two_matches :
  JS.join (JS.LF ++ JS.LF ++ "---" ++ JS.LF ++ JS.LF)%string
    (map format_match
       [ {| match_id := "doc-1";
            metadata := Some {| md_source := Some "bilan.pdf";
                                md_text := Some "CA 2024" |} |};
         {| match_id := "doc-2"; metadata := None |} ])
  = ("[Source: bilan.pdf]" ++ JS.LF ++ "CA 2024"
     ++ JS.LF ++ JS.LF ++ "---" ++ JS.LF ++ JS.LF
     ++ "[Source: Unknown]" ++ JS.LF)%string.
Proof. reflexivity. Qed.

Example hello_over_quota :
  post_api_chat Sample.env Sample.hello Sample.start_exhausted
  = (Sent (quota_denied 50 50), Sample.start_exhausted).
Proof. reflexivity. Qed.

Example hello_at_chat_limit :
  response_of
    (post_api_chat Sample.env Sample.hello_full_chat Sample.start_full_chat).1
  = Some (chat_limit_reached 200).
Proof. vm_compute. reflexivity. Qed.

(** * Properties *)

(** ** Slices *)

Section SliceFacts.
Context {A : Type}.
Implicit Types l : list A.

Lemma rel_index_nat (len n : nat) :
  JS.rel_index len (Z.of_nat n) = Nat.min n len.
Proof.
  unfold JS.rel_index.
  destruct (Z.ltb_spec (Z.of_nat n) 0); [lia |].
  by rewrite Nat2Z.id.
Qed.

Lemma slice_nat l (i j : nat) :
  JS.slice l (Z.of_nat i) (Some (Z.of_nat j))
  = take (Nat.min j (length l) - Nat.min i (length l)) (drop (Nat.min i (length l)) l).
Proof. unfold JS.slice. by rewrite !rel_index_nat. Qed.

Lemma slice_window l (i m : nat) :
  (i <= length l)%nat ->
  JS.slice l (Z.of_nat i) (Some (Z.of_nat (i + m))) = take m (drop i l).
Proof.
  intros Hi. rewrite slice_nat.
  replace (Nat.min i (length l)) with i by lia.
  destruct (Nat.le_ge_cases (i + m) (length l)) as [Hle | Hge].
  - f_equal. lia.
  - replace (Nat.min (i + m) (length l) - i)%nat with (length l - i)%nat by lia.
    rewrite !take_ge; [done | |]; rewrite length_drop; lia.
Qed.

(** [l.slice(-k)] keeps the last [k] elements. *)
Lemma slice_last l (k : nat) :
  (0 < k)%nat ->
  JS.slice l (- Z.of_nat k) None = drop (length l - k) l.
Proof.
  intros Hk. unfold JS.slice, JS.rel_index.
  destruct (Z.ltb_spec (- Z.of_nat k) 0); [| lia].
  replace (Z.to_nat (Z.max (Z.of_nat (length l) + - Z.of_nat k) 0))
    with (length l - k)%nat by lia.
  apply take_ge. rewrite length_drop. lia.
Qed.

End SliceFacts.

(** ** Document chunker *)

Section ChunkerFacts.
Context {A : Type}.
Implicit Types text : list A.
Import Chunker.

Lemma MAX_CHUNK_SIZE_pos : (0 < MAX_CHUNK_SIZE)%nat.
Proof. unfold MAX_CHUNK_SIZE. lia. Qed.

Lemma chunk_loop_lt text i chunks :
  (i < length text)%nat ->
  chunk_loop text i chunks
  = chunk_loop text (i + MAX_CHUNK_SIZE)
      (chunks ++ [take MAX_CHUNK_SIZE (drop i text)]).
Proof.
  intros Hi. rewrite chunk_loop_equation_1.
  destruct (lt_dec i (length text)) as [Hl | Hn]; [| lia].
  cbn [chunk_loop_unfold_clause_1]. rewrite slice_window by lia. reflexivity.
Qed.

Lemma chunk_loop_ge text i chunks :
  (length text <= i)%nat -> chunk_loop text i chunks = chunks.
Proof.
  intros Hi. rewrite chunk_loop_equation_1.
  destruct (lt_dec i (length text)) as [Hlt | Hn]; [lia | reflexivity].
Qed.

(** The chunks pushed before the loop reaches [i] stay in front. *)
Lemma chunk_loop_acc text i chunks front :
  chunk_loop text i (front ++ chunks) = front ++ chunk_loop text i chunks.
Proof.
  revert front. funelim (chunk_loop text i chunks); intros front.
  - rewrite chunk_loop_lt by assumption.
    rewrite <- app_assoc, <- (slice_window _ i) by lia. apply H.
  - rewrite chunk_loop_ge by lia. reflexivity.
Qed.

Lemma chunk_loop_step text i :
  (i < length text)%nat ->
  chunk_loop text i []
  = take MAX_CHUNK_SIZE (drop i text) :: chunk_loop text (i + MAX_CHUNK_SIZE) [].
Proof.
  intros Hi. rewrite chunk_loop_lt by assumption.
  apply (chunk_loop_acc text (i + MAX_CHUNK_SIZE) [] [_]).
Qed.

(** Induction along the iterations of the loop. *)
Lemma chunk_loop_ind text (P : nat -> list (list A) -> Prop) :
  (forall i, (length text <= i)%nat -> P i []) ->
  (forall i, (i < length text)%nat ->
     P (i + MAX_CHUNK_SIZE)%nat (chunk_loop text (i + MAX_CHUNK_SIZE) []) ->
     P i (take MAX_CHUNK_SIZE (drop i text)
            :: chunk_loop text (i + MAX_CHUNK_SIZE) [])) ->
  forall i, P i (chunk_loop text i []).
Proof.
  intros Hend Hstep i.
  remember (length text - i)%nat as n eqn:Hn.
  revert i Hn. induction n as [n IH] using lt_wf_ind. intros i Hn.
  destruct (le_lt_dec (length text) i) as [Hge | Hlt].
  - rewrite chunk_loop_ge by assumption. auto.
  - rewrite chunk_loop_step by assumption. apply Hstep; [assumption |].
    pose proof MAX_CHUNK_SIZE_pos.
    apply (IH (length text - (i + MAX_CHUNK_SIZE))%nat); lia.
Qed.

Lemma chunk_loop_concat text i :
  concat (chunk_loop text i []) = drop i text.
Proof.
  apply (chunk_loop_ind text (fun i cs => concat cs = drop i text)).
  - intros j Hj. symmetry. apply drop_ge. assumption.
  - intros j Hj IH. cbn. rewrite IH.
    rewrite <- drop_drop. apply take_drop.
Qed.

Lemma chunk_loop_bounded text i :
  Forall (fun c => (length c <= MAX_CHUNK_SIZE)%nat) (chunk_loop text i []).
Proof.
  apply (chunk_loop_ind text
           (fun _ cs => Forall (fun c => (length c <= MAX_CHUNK_SIZE)%nat) cs)).
  - constructor.
  - intros j Hj IH. constructor; [| assumption].
    rewrite length_take. lia.
Qed.

Lemma chunk_loop_lookup text i k c :
  chunk_loop text i [] !! k = Some c ->
  (i + k * MAX_CHUNK_SIZE < length text)%nat
  /\ c = take MAX_CHUNK_SIZE (drop (i + k * MAX_CHUNK_SIZE) text).
Proof.
  revert k c.
  apply (chunk_loop_ind text
           (fun i cs => forall k c, cs !! k = Some c ->
              (i + k * MAX_CHUNK_SIZE < length text)%nat
              /\ c = take MAX_CHUNK_SIZE (drop (i + k * MAX_CHUNK_SIZE) text))).
  - intros j Hj k c Hk. discriminate.
  - intros j Hj IH [| k] c Hk; cbn in Hk.
    + injection Hk as <-. rewrite Nat.add_0_r. auto.
    + apply IH in Hk as [Hlt ->].
      replace (j + S k * MAX_CHUNK_SIZE)%nat
        with (j + MAX_CHUNK_SIZE + k * MAX_CHUNK_SIZE)%nat by lia.
      auto.
Qed.

Lemma chunk_concat text : concat (chunk text) = text.
Proof.
  unfold chunk. destruct (MAX_CHUNK_SIZE <? length text)%nat.
  - apply chunk_loop_concat.
  - cbn. apply app_nil_r.
Qed.

Lemma chunk_bounded text :
  Forall (fun c => (length c <= MAX_CHUNK_SIZE)%nat) (chunk text).
Proof.
  unfold chunk. destruct (Nat.ltb_spec MAX_CHUNK_SIZE (length text)).
  - apply chunk_loop_bounded.
  - constructor; [assumption | constructor].
Qed.

Lemma chunk_lookup text k c :
  chunk text !! k = Some c ->
  c = JS.slice text (Z.of_nat (k * MAX_CHUNK_SIZE))
        (Some (Z.of_nat (k * MAX_CHUNK_SIZE + MAX_CHUNK_SIZE))).
Proof.
  unfold chunk. destruct (Nat.ltb_spec MAX_CHUNK_SIZE (length text)) as [Hlt | Hge].
  - intros Hk. apply chunk_loop_lookup in Hk as [Hin ->].
    rewrite slice_window by lia. reflexivity.
  - destruct k as [| k]; [| discriminate].
    intros [= <-]. change (0 * MAX_CHUNK_SIZE)%nat with 0%nat.
    rewrite (slice_window _ 0) by lia.
    rewrite drop_0, take_ge by assumption. reflexivity.
Qed.

Lemma chunk_small text :
  (length text <= MAX_CHUNK_SIZE)%nat -> chunk text = [text].
Proof.
  intros Hle. unfold chunk.
  destruct (Nat.ltb_spec MAX_CHUNK_SIZE (length text)); [lia | reflexivity].
Qed.

Lemma chunk_20000 text :
  Z.of_nat (length text) = 20000%Z ->
  map (fun c => Z.of_nat (length c)) (chunk text) = [8000; 8000; 4000]%Z.
Proof.
  intros Hlen. unfold chunk.
  assert (HM : Z.of_nat MAX_CHUNK_SIZE = 8000%Z) by (unfold MAX_CHUNK_SIZE; lia).
  destruct (Nat.ltb_spec MAX_CHUNK_SIZE (length text)); [| lia].
  do 3 (rewrite chunk_loop_step by lia).
  rewrite chunk_loop_ge by lia. cbn [map].
  rewrite !length_take, !length_drop.
  repeat f_equal; lia.
Qed.

End ChunkerFacts.

(** C9. [chunk(text, 8000)] returns, in order, the contiguous
    non-overlapping slices [text.slice(k * 8000, k * 8000 + 8000)], each of
    at most 8000 characters, and their concatenation is the text; a text
    of at most 8000 characters comes back as the single chunk; a text of
    20000 characters gives three chunks of 8000, 8000 and 4000
    characters. *)
Theorem chunk_partitions_text {A : Type} (text : list A) :
  concat (Chunker.chunk text) = text
  /\ Forall (fun c => (Z.of_nat (length c) <= 8000)%Z) (Chunker.chunk text)
  /\ (forall k c, Chunker.chunk text !! k = Some c ->
        c = JS.slice text (Z.of_nat k * 8000) (Some (Z.of_nat k * 8000 + 8000)))
  /\ ((Z.of_nat (length text) <= 8000)%Z -> Chunker.chunk text = [text])
  /\ (Z.of_nat (length text) = 20000%Z ->
        map (fun c => Z.of_nat (length c)) (Chunker.chunk text)
        = [8000; 8000; 4000]%Z).
Proof.
  assert (HM : Z.of_nat Chunker.MAX_CHUNK_SIZE = 8000%Z)
    by (unfold Chunker.MAX_CHUNK_SIZE; lia).
  repeat split.
  - apply chunk_concat.
  - eapply Forall_impl; [apply chunk_bounded |]. cbn. intros c Hc. lia.
  - intros k c Hk. apply chunk_lookup in Hk. rewrite Hk.
    f_equal; [| f_equal]; lia.
  - intros Hle. apply chunk_small. lia.
  - apply chunk_20000.
Qed.

Lemma chunk_partitions_text_witness :
  map (fun c => Z.of_nat (length c)) (Chunker.chunk sample_text)
  = [8000; 8000; 4000]%Z.
Proof.
  apply (chunk_partitions_text sample_text).
  unfold sample_text. rewrite repeat_length. lia.
Defined.

(** ** The blocks of the chat route *)

Section Blocks.
Variable env : Env.

Lemma quiet_ret {A} (a : A) : quiet (ret a).
Proof. intros s. reflexivity. Qed.

Lemma quiet_query_single {A} site (rows : World -> list A) :
  quiet (query_single env site rows).
Proof. intros s. unfold query_single. destruct (db_fault env site); reflexivity. Qed.

(** *** The quota middleware *)

Lemma number_or_zero c : JS.number_or (Some c) 0 = c.
Proof. unfold JS.number_or. destruct (Z.eqb_spec c 0); congruence. Qed.

Lemma checkDailyQuota_limited req s au u limit used :
  req_user req = Some au ->
  db_fault env QuotaUser = NoFault ->
  db_fault env QuotaUsage = NoFault ->
  users (world s) !! id au = Some u ->
  is_admin u = false ->
  daily_message_quota u = Some limit ->
  recorded_usage (id au) (today env) (world s) used ->
  checkDailyQuota env req s
  = if (limit <=? used)%Z then (Sent (quota_denied limit used), s)
    else (Done (attach_usage req (id au) used (today env)), s).
Proof.
  intros Hau Hf1 Hf2 Hu Hadmin Hq Hused.
  unfold checkDailyQuota, try_catch, bind, req_user_id, query_single, users_by_id.
  unfold attach_usage, quota_denied.
  rewrite Hau. cbn [ret]. rewrite Hf1, Hu. cbn [single data error].
  rewrite Hadmin, Hq, Hf2.
  destruct Hused as [Hrows | row Hrows]; rewrite Hrows; cbn [single data];
    rewrite ?number_or_zero; destruct (limit <=? _)%Z; reflexivity.
Qed.

(** Whatever the database does, an administrator or a user without a quota
    goes through with the request untouched. *)
Lemma checkDailyQuota_unlimited req s au u :
  req_user req = Some au ->
  users (world s) !! id au = Some u ->
  is_admin u = true \/ daily_message_quota u = None ->
  checkDailyQuota env req s = (Done req, s).
Proof.
  intros Hau Hu Hfree.
  unfold checkDailyQuota, try_catch, bind, req_user_id, query_single, users_by_id.
  rewrite Hau. cbn [ret].
  destruct (db_fault env QuotaUser); cbn [data error]; try reflexivity.
  rewrite Hu. cbn [single data error].
  destruct Hfree as [-> | Hq]; [reflexivity |].
  rewrite Hq. destruct (is_admin u); reflexivity.
Qed.

Lemma checkDailyQuota_user_unavailable req s au :
  req_user req = Some au ->
  user_unavailable env (id au) s ->
  checkDailyQuota env req s = (Done req, s).
Proof.
  intros Hau Hno.
  unfold checkDailyQuota, try_catch, bind, req_user_id, query_single, users_by_id.
  rewrite Hau. cbn [ret].
  destruct (db_fault env QuotaUser) eqn:Hf; cbn [data error]; try reflexivity.
  destruct Hno as [Hnone | Hne]; [| congruence].
  rewrite Hnone. reflexivity.
Qed.

(** The middleware either lets the request through, untouched or with the
    usage context attached, or answers 429. *)
Lemma checkDailyQuota_cases req s :
  (checkDailyQuota env req s = (Done req, s))
  \/ (exists uid used d,
        checkDailyQuota env req s = (Done (attach_usage req uid used d), s))
  \/ (exists limit used,
        checkDailyQuota env req s = (Sent (quota_denied limit used), s)).
Proof.
  unfold checkDailyQuota, try_catch, bind, req_user_id, query_single, ret,
    raise, respond, attach_usage, quota_denied.
  destruct (req_user req) as [au |]; [| by left].
  destruct (db_fault env QuotaUser); [| by left ..].
  destruct (single (users_by_id (id au) (world s))) as [[u |] [e |]];
    cbn [data error]; try by left.
  destruct (is_admin u); [by left |].
  destruct (daily_message_quota u) as [limit |]; [| by left].
  destruct (db_fault env QuotaUsage); [| | by left].
  - destruct (limit <=? _)%Z; [right; right | right; left]; eauto.
  - cbn [data]. destruct (limit <=? 0)%Z; [right; right | right; left]; eauto.
Qed.


(** *** Sequencing *)

Lemma bind_done {A B} (c : M A) (k : A -> M B) s a s1 :
  c s = (Done a, s1) -> bind c k s = k a s1.
Proof. intros H. unfold bind. rewrite H. reflexivity. Qed.

Lemma bind_sent {A B} (c : M A) (k : A -> M B) s r s1 :
  c s = (Sent r, s1) -> bind c k s = (Sent r, s1).
Proof. intros H. unfold bind. rewrite H. reflexivity. Qed.

Lemma bind_raised {A B} (c : M A) (k : A -> M B) s e s1 :
  c s = (Raised e, s1) -> bind c k s = (Raised e, s1).
Proof. intros H. unfold bind. rewrite H. reflexivity. Qed.

(** *** Usage recording *)

Lemma same_but_usage_refl s : same_but_usage s s.
Proof. repeat split. Qed.

Lemma same_but_usage_trans s1 s2 s3 :
  same_but_usage s1 s2 -> same_but_usage s2 s3 -> same_but_usage s1 s3.
Proof.
  intros (? & ? & ? & ? & ?) (? & ? & ? & ? & ?).
  repeat split; congruence.
Qed.

Lemma usage_only_quiet {A} (c : M A) : quiet c -> usage_only c.
Proof. intros H s. rewrite H. apply same_but_usage_refl. Qed.

Lemma usage_only_bind {A B} (c : M A) (k : A -> M B) :
  usage_only c -> (forall a, usage_only (k a)) -> usage_only (bind c k).
Proof.
  intros Hc Hk s. unfold bind. specialize (Hc s).
  destruct (c s) as [[a | r | e] s1]; cbn in *; auto.
  eapply same_but_usage_trans; [exact Hc | apply Hk].
Qed.

Lemma usage_only_try_catch {A} (c : M A) (h : string -> M A) :
  usage_only c -> (forall e, usage_only (h e)) -> usage_only (try_catch c h).
Proof.
  intros Hc Hh s. unfold try_catch. specialize (Hc s).
  destruct (c s) as [[a | r | e] s1]; cbn in *; auto.
  eapply same_but_usage_trans; [exact Hc | apply Hh].
Qed.

Lemma usage_only_db_write site (f : World -> World) :
  (forall w, with_daily_usage (daily_usage (f w)) w = f w) ->
  usage_only (db_write env site f).
Proof.
  intros Hf s. unfold db_write.
  destruct (db_fault env site); try apply same_but_usage_refl.
  cbn. rewrite <- Hf. repeat split.
Qed.

Lemma silent_ret {A} (a : A) : silent (ret a).
Proof. intros s r. discriminate. Qed.

Lemma silent_bind {A B} (c : M A) (k : A -> M B) :
  silent c -> (forall a, silent (k a)) -> silent (bind c k).
Proof.
  intros Hc Hk s r. unfold bind. specialize (Hc s).
  destruct (c s) as [[a | r' | e] s1]; cbn in *.
  - apply Hk.
  - destruct (Hc r'). reflexivity.
  - discriminate.
Qed.

Lemma silent_query_single {A} site (rows : World -> list A) :
  silent (query_single env site rows).
Proof.
  intros s r. unfold query_single. destruct (db_fault env site); discriminate.
Qed.

Lemma silent_db_write site f : silent (db_write env site f).
Proof.
  intros s r. unfold db_write. destruct (db_fault env site); discriminate.
Qed.

(** [try { c } catch { }] around a computation that sends nothing always
    comes back. *)
Lemma try_catch_swallows (c : M unit) s :
  silent c ->
  exists s', try_catch c (fun _ => ret tt) s = (Done tt, s').
Proof.
  intros Hc. unfold try_catch. specialize (Hc s).
  destruct (c s) as [[[] | r | e] s1]; cbn in *; eauto.
  destruct (Hc r). reflexivity.
Qed.

Lemma usage_only_incrementDailyUsage u d :
  usage_only (incrementDailyUsage env u d).
Proof.
  unfold incrementDailyUsage.
  apply usage_only_try_catch; [| intros; apply usage_only_quiet, quiet_ret].
  apply usage_only_bind; [apply usage_only_quiet, quiet_query_single |].
  intros r. destruct (data r);
    (apply usage_only_bind;
     [apply usage_only_db_write; reflexivity
     | intros; apply usage_only_quiet, quiet_ret]).
Qed.

Lemma incrementDailyUsage_swallows u d s :
  exists s', incrementDailyUsage env u d s = (Done tt, s')
             /\ same_but_usage s s'.
Proof.
  destruct (try_catch_swallows
              (existing <- query_single env UsageSelect (usage_rows u d) ;;
               match data existing with
               | Some row =>
                   _ <- db_write env UsageUpdate
                          (update_usage u d (prompts_count row + 1)) ;;
                   ret tt
               | None =>
                   _ <- db_write env UsageInsert
                          (insert_usage {| user_id := u; date := d;
                                           prompts_count := 1 |}) ;;
                   ret tt
               end) s) as [s' Hs'].
  { apply silent_bind; [apply silent_query_single |].
    intros r. destruct (data r);
      (apply silent_bind; [apply silent_db_write | intros; apply silent_ret]). }
  exists s'. split; [exact Hs' |].
  pose proof (usage_only_incrementDailyUsage u d s) as H.
  unfold incrementDailyUsage in H. rewrite Hs' in H. exact H.
Qed.

Lemma record_usage_swallows req s :
  exists s', record_usage env req s = (Done tt, s') /\ same_but_usage s s'.
Proof.
  unfold record_usage.
  destruct (userDbId req) as [u |], (usageDate req) as [d |];
    try (eexists; split; [reflexivity | apply same_but_usage_refl]).
  destruct (_ && _);
    [apply incrementDailyUsage_swallows
    | eexists; split; [reflexivity | apply same_but_usage_refl]].
Qed.

Lemma record_usage_frame req s o s' :
  record_usage env req s = (o, s') -> same_but_usage s s'.
Proof.
  intros H. destruct (record_usage_swallows req s) as (s1 & H1 & Hsame).
  congruence.
Qed.

Lemma record_usage_without_context req s :
  userDbId req = None -> record_usage env req s = (Done tt, s).
Proof. intros H. unfold record_usage. rewrite H. reflexivity. Qed.

(** *** The refusing blocks *)

Lemma chat_limit_check_cases c s :
  (exists ui, chat_limit_check env c s = (Done ui, s))
  \/ (exists r, chat_limit_check env c s = (Sent r, s) /\ status r = 400%Z)
  \/ (exists e, chat_limit_check env c s = (Raised e, s)).
Proof.
  unfold chat_limit_check, bind, messages_count, respond, ret.
  destruct c as [c |]; [| eauto].
  destruct (JS.truthy_string (Some c)); [| eauto].
  destruct (db_fault env ChatMessages); [| eauto ..].
  destruct (JS.ge_nullable _ _); eauto 6.
Qed.

Lemma rag_permission_check_cases req f m s :
  rag_permission_check env req f m s = (Done tt, s)
  \/ (exists r, rag_permission_check env req f m s = (Sent r, s)
                /\ status r = 403%Z)
  \/ (exists e, rag_permission_check env req f m s = (Raised e, s)).
Proof.
  unfold rag_permission_check, bind, req_user_id, query_single, respond, ret,
    raise.
  destruct (f || _); [| eauto].
  destruct (req_user req); [| eauto].
  destruct (db_fault env ChatRagUser); [| eauto ..].
  destruct (data _); [| eauto]. destruct (_ && _); eauto 6.
Qed.

Lemma getRelevantContext_returns q k s :
  exists ctx, getRelevantContext env q k s = (Done ctx, s).
Proof.
  unfold getRelevantContext, try_catch, bind, lift_try, ret, raise.
  destruct (generateEmbedding env q) as [v |]; [| eauto].
  destruct (index_query env v k); eauto.
Qed.

Lemma retrieve_context_returns f m s :
  exists ctx, retrieve_context env f m s = (Done ctx, s).
Proof.
  unfold retrieve_context. destruct (needsContext env f m).
  - apply getRelevantContext_returns.
  - eexists. reflexivity.
Qed.

(** *** The handler *)

Lemma gemini_chat_returned history prompt reply s :
  sendMessage env history prompt = Returned reply ->
  gemini_chat env history prompt s
  = (Done (reply, sdk_push history [TextPart prompt] reply),
     log_call history prompt s).
Proof. intros H. unfold gemini_chat. rewrite H. reflexivity. Qed.

Lemma gemini_chat_thrown history prompt e s :
  sendMessage env history prompt = Thrown e ->
  gemini_chat env history prompt s = (Raised e, log_call history prompt s).
Proof. intros H. unfold gemini_chat. rewrite H. reflexivity. Qed.

Lemma remember_run cid history m reply s :
  remember cid history m reply s = (Done tt, remembered cid history m reply s).
Proof. reflexivity. Qed.

Lemma chat_handler_run req s :
  chat_run env req s (chat_handler env req s).1 (chat_handler env req s).2.
Proof.
  unfold chat_handler, try_catch. cbv zeta.
  fold (conversation_of req). fold (force_of req).
  destruct (message (req_body (http req))) as [m |] eqn:Hm;
    [| apply chat_refused; discriminate].
  destruct (negb (JS.truthy_string (Some m)));
    [apply chat_refused; discriminate |].
  destruct (chat_limit_check_cases (chatId (req_body (http req))) s)
    as [[ui H1] | [(r & H1 & Hr) | [e H1]]].
  2: { rewrite (bind_sent _ _ _ _ _ H1). apply chat_refused. cbn. lia. }
  2: { rewrite (bind_raised _ _ _ _ _ H1). apply chat_refused. discriminate. }
  rewrite (bind_done _ _ _ _ _ H1).
  rewrite (bind_done _ _ s (world s) s) by reflexivity.
  fold (stored (conversation_of req) s).
  destruct (rag_permission_check_cases req (force_of req) m s)
    as [H2 | [(r & H2 & Hr) | [e H2]]].
  2: { rewrite (bind_sent _ _ _ _ _ H2). apply chat_refused. cbn. lia. }
  2: { rewrite (bind_raised _ _ _ _ _ H2). apply chat_refused. discriminate. }
  rewrite (bind_done _ _ _ _ _ H2).
  destruct (retrieve_context_returns (force_of req) m s) as [ctx H3].
  rewrite (bind_done _ _ _ _ _ H3).
  destruct (sendMessage env (window (stored (conversation_of req) s))
              (enhancedMessage m ctx)) as [reply | e] eqn:H4.
  - rewrite (bind_done _ _ _
               (reply,
                sdk_push (window (stored (conversation_of req) s))
                  [TextPart (enhancedMessage m ctx)] reply)
               (log_call (window (stored (conversation_of req) s))
                  (enhancedMessage m ctx) s))
      by (unfold gemini_chat; rewrite H4; reflexivity).
    cbn [fst snd].
    set (s1 := log_call _ _ s).
    set (pushed := sdk_push _ _ reply).
    pose proof (remember_run (conversation_of req) pushed m reply s1) as H5.
    rewrite (bind_done _ _ _ _ _ H5).
    destruct (record_usage_swallows req
                (remembered (conversation_of req) pushed m reply s1))
      as (s6 & H6 & _).
    rewrite (bind_done _ _ _ _ _ H6).
    eapply chat_answered; eauto.
  - rewrite (bind_raised _ _ _ e (log_call (window (stored (conversation_of req) s))
              (enhancedMessage m ctx) s))
      by (unfold gemini_chat; rewrite H4; reflexivity).
    eapply chat_model_failed; eauto.
Qed.

End Blocks.

(** ** The chat route *)

Section Route.
Variable env : Env.

Lemma authenticateUser_cases req s :
  (exists au, authenticateUser env req s = (Done (authenticated req au), s))
  \/ (exists r, authenticateUser env req s = (Sent r, s) /\ status r = 401%Z).
Proof.
  unfold authenticateUser, try_catch, bind, lift_try, respond, ret, raise,
    authenticated.
  destruct (authorization (http req)) as [h |]; [| eauto].
  destruct (_ || _); [eauto |].
  destruct (auth_getUser env _) as [[u |] | e]; eauto.
Qed.

(** A request either stops at a middleware, with 401 or 429 and nothing
    changed, or reaches the handler with the request object the
    middlewares built. *)
Lemma post_api_chat_cases h s :
  (exists r, post_api_chat env h s = (Sent r, s)
             /\ (status r = 401%Z \/ status r = 429%Z))
  \/ (exists au req,
        authenticateUser env (incoming h) s
        = (Done (authenticated (incoming h) au), s)
        /\ checkDailyQuota env (authenticated (incoming h) au) s = (Done req, s)
        /\ http req = h
        /\ req_user req = Some au
        /\ post_api_chat env h s = chat_handler env req s).
Proof.
  unfold post_api_chat.
  destruct (authenticateUser_cases (incoming h) s) as [[au Ha] | (r & Ha & Hr)].
  2: { left. exists r. rewrite (bind_sent _ _ _ _ _ Ha). auto. }
  rewrite (bind_done _ _ _ _ _ Ha).
  destruct (checkDailyQuota_cases env (authenticated (incoming h) au) s)
    as [Hq | [(uid & used & d & Hq) | (limit & used & Hq)]].
  - right. exists au, (authenticated (incoming h) au).
    rewrite (bind_done _ _ _ _ _ Hq). auto 6.
  - right. exists au, (attach_usage (authenticated (incoming h) au) uid used d).
    rewrite (bind_done _ _ _ _ _ Hq). auto 6.
  - left. exists (quota_denied limit used).
    rewrite (bind_sent _ _ _ _ _ Hq). auto.
Qed.

Lemma post_api_chat_run h s :
  (exists r, post_api_chat env h s = (Sent r, s) /\ status r <> 200%Z)
  \/ (exists req, http req = h
                  /\ chat_run env req s (post_api_chat env h s).1
                       (post_api_chat env h s).2).
Proof.
  destruct (post_api_chat_cases h s)
    as [(r & Hr & Hs) | (au & req & _ & _ & Hh & _ & ->)].
  - left. exists r. split; [assumption | lia].
  - right. exists req. split; [assumption | apply chat_handler_run].
Qed.

End Route.

(** The three ways a request ends, with the names the proofs below use. *)
Ltac chat_run_cases H :=
  destruct H as [r Hr
                | m ctx e Hm Hctx Hsend
                | m ctx reply ui s2 Hm Hctx Hsend Husage].

(** ** The sliding window *)

Lemma window_last history :
  window history = drop (length history - 20) history.
Proof.
  unfold window, CHAT_CONFIG.MAX_HISTORY_GEMINI.
  destruct (Z.ltb_spec 20 (Z.of_nat (length history))) as [Hlong | Hshort].
  - change (- (20))%Z with (- Z.of_nat 20)%Z. apply slice_last. lia.
  - replace (length history - 20)%nat with 0%nat by lia. reflexivity.
Qed.

Lemma window_length history : (length (window history) <= 20)%nat.
Proof. rewrite window_last, length_drop. lia. Qed.

(** The calls to the model a request adds to the log: none, or one, with
    the window of the stored history. *)
Lemma chat_run_calls env req s o s' :
  chat_run env req s o s' ->
  model_calls s' = model_calls s
  \/ exists prompt,
       model_calls s'
       = model_calls s ++ [(window (stored (conversation_of req) s), prompt)].
Proof.
  intros Hrun. chat_run_cases Hrun.
  - left. reflexivity.
  - right. eexists. reflexivity.
  - right. apply record_usage_frame in Husage as (-> & _).
    eexists. reflexivity.
Qed.

(** C2. On every chat turn the history handed to the model is the window
    of the stored history: its most recent turns, at most 20 of them,
    whatever the store holds; the truncation is applied to the history as
    read, before the call. *)
Theorem model_receives_at_most_window (env : Env) (h : HttpRequest) (s : Sys) :
  let history := stored (conversationId_of (req_body h)) s in
  exists calls,
    model_calls (post_api_chat env h s).2 = model_calls s ++ calls
    /\ (calls = []
        \/ exists prompt,
             calls = [(drop (length history - 20) history, prompt)])
    /\ Forall (fun call => (length call.1 <= 20)%nat) calls.
Proof.
  intros history.
  destruct (post_api_chat_run env h s) as [(r & -> & _) | (req & Hh & Hrun)].
  - exists []. rewrite app_nil_r. auto.
  - apply chat_run_calls in Hrun as [-> | [prompt ->]].
    + exists []. rewrite app_nil_r. auto.
    + exists [(window (stored (conversation_of req) s), prompt)].
      split; [reflexivity |]. split.
      * right. exists prompt. rewrite window_last.
        unfold conversation_of. rewrite Hh. reflexivity.
      * constructor; [apply window_length | constructor].
Qed.
(** ** The stored history over a sequence of requests *)











(** ** Quota *)

(** C4. For a user who is not an administrator and has a daily quota
    [limit], with [used] the usage count of today's UTC date, the quota
    check lets the request through exactly when [used < limit]; at the
    limit it answers 429 with the limit and the count.  An administrator,
    or a user whose quota is null, always goes through. *)
Theorem quota_check_allows_iff_below_limit
    (env : Env) (req : Req) (s : Sys) (au : AuthUser) (u : UserRow) :
  req_user req = Some au ->
  users (world s) !! id au = Some u ->
  (forall limit used,
     is_admin u = false ->
     daily_message_quota u = Some limit ->
     db_fault env QuotaUser = NoFault ->
     db_fault env QuotaUsage = NoFault ->
     recorded_usage (id au) (today env) (world s) used ->
     ((exists req', checkDailyQuota env req s = (Done req', s))
      <-> (used < limit)%Z)
     /\ ((limit <= used)%Z ->
         checkDailyQuota env req s
         = (Sent {| status := 429;
                    body := JObj [("error", JStr "Quota journalier atteint");
                                  ("limit", JNum limit);
                                  ("used", JNum used)] |}, s)))
  /\ (is_admin u = true \/ daily_message_quota u = None ->
      checkDailyQuota env req s = (Done req, s)).
Proof.
  intros Hau Hu. split.
  - intros limit used Hadmin Hq Hf1 Hf2 Hused.
    pose proof (checkDailyQuota_limited env req s au u limit used
                  Hau Hf1 Hf2 Hu Hadmin Hq Hused) as Hrun.
    destruct (Z.leb_spec limit used) as [Hle | Hlt]; rewrite Hrun.
    + split; [| reflexivity]. split; [intros [req' H]; discriminate | lia].
    + split; [| lia]. split; [auto | eauto].
  - apply (checkDailyQuota_unlimited env req s au u Hau Hu).
Qed.

Lemma quota_check_allows_iff_below_limit_witness :
  (exists req',
     checkDailyQuota Sample.env
       (authenticated (incoming Sample.hello) Sample.julie) Sample.start
     = (Done req', Sample.start))
  <-> (0 < 50)%Z.
Proof.
  destruct (quota_check_allows_iff_below_limit Sample.env
              (authenticated (incoming Sample.hello) Sample.julie) Sample.start
              Sample.julie Sample.employee eq_refl eq_refl) as [Hlimited _].
  apply (Hlimited 50%Z 0%Z eq_refl eq_refl eq_refl eq_refl).
  apply usage_none. reflexivity.
Defined.

(** C5 as stated fails: with no row for the user, the request is answered
    200 and the model has been called. *)
Lemma unavailable_user_is_served :
  ~ (forall (env : Env) (h : HttpRequest) (s : Sys) (au : AuthUser),
       authenticateUser env (incoming h) s
       = (Done (authenticated (incoming h) au), s) ->
       user_unavailable env (id au) s ->
       exists r, (post_api_chat env h s).1 = Sent r /\ status r <> 200%Z).
Proof.
  intros Hclaim.
  destruct (Hclaim Sample.env Sample.hello Sample.start_without_user
              Sample.julie eq_refl) as (r & Hr & Hstatus).
  - left. reflexivity.
  - vm_compute in Hr. injection Hr as <-. apply Hstatus. reflexivity.
Qed.

(** C5 (amended). When the user row cannot be loaded by the quota check
    (no row, an error, or an exception), the middleware does not block: it
    passes the request on untouched, without usage context, and the chat
    handler runs. *)
Theorem unavailable_user_is_not_blocked
    (env : Env) (h : HttpRequest) (s : Sys) (au : AuthUser) :
  authenticateUser env (incoming h) s
  = (Done (authenticated (incoming h) au), s) ->
  user_unavailable env (id au) s ->
  checkDailyQuota env (authenticated (incoming h) au) s
  = (Done (authenticated (incoming h) au), s)
  /\ userDbId (authenticated (incoming h) au) = None
  /\ post_api_chat env h s
     = chat_handler env (authenticated (incoming h) au) s.
Proof.
  intros Hauth Hno.
  assert (Hq : checkDailyQuota env (authenticated (incoming h) au) s
               = (Done (authenticated (incoming h) au), s))
    by (apply (checkDailyQuota_user_unavailable env _ s au); auto).
  split; [exact Hq |]. split; [reflexivity |].
  unfold post_api_chat.
  rewrite (bind_done _ _ _ _ _ Hauth), (bind_done _ _ _ _ _ Hq). reflexivity.
Qed.

Lemma unavailable_user_is_not_blocked_witness :
  post_api_chat Sample.env Sample.hello Sample.start_without_user
  = chat_handler Sample.env
      (authenticated (incoming Sample.hello) Sample.julie)
      Sample.start_without_user.
Proof.
  apply (unavailable_user_is_not_blocked Sample.env Sample.hello
           Sample.start_without_user Sample.julie eq_refl).
  left. reflexivity.
Defined.

(** The handler leaves the usage table alone when the request carries no
    usage context. *)
Lemma chat_run_without_context env req s o s' :
  userDbId req = None ->
  chat_run env req s o s' ->
  daily_usage (world s') = daily_usage (world s).
Proof.
  intros Hnone Hrun. chat_run_cases Hrun.
  - reflexivity.
  - reflexivity.
  - rewrite record_usage_without_context in Husage by assumption.
    injection Husage as <-. reflexivity.
Qed.

(** C10. For a request of an administrator or of a user whose quota is
    null, the quota middleware passes the request on without usage
    context, and the request, answered or not, leaves the daily usage as
    it was. *)
Theorem unlimited_user_usage_unchanged
    (env : Env) (h : HttpRequest) (s : Sys) (au : AuthUser) (u : UserRow) :
  authenticateUser env (incoming h) s
  = (Done (authenticated (incoming h) au), s) ->
  users (world s) !! id au = Some u ->
  is_admin u = true \/ daily_message_quota u = None ->
  checkDailyQuota env (authenticated (incoming h) au) s
  = (Done (authenticated (incoming h) au), s)
  /\ userDbId (authenticated (incoming h) au) = None
  /\ usageDate (authenticated (incoming h) au) = None
  /\ daily_usage (world (post_api_chat env h s).2) = daily_usage (world s).
Proof.
  intros Hauth Hu Hfree.
  assert (Hq : checkDailyQuota env (authenticated (incoming h) au) s
               = (Done (authenticated (incoming h) au), s))
    by (apply (checkDailyQuota_unlimited env _ s au u); auto).
  split; [exact Hq |]. split; [reflexivity |]. split; [reflexivity |].
  unfold post_api_chat.
  rewrite (bind_done _ _ _ _ _ Hauth), (bind_done _ _ _ _ _ Hq).
  apply (chat_run_without_context env (authenticated (incoming h) au) s
           (chat_handler env (authenticated (incoming h) au) s).1);
    [reflexivity | apply chat_handler_run].
Qed.

Lemma unlimited_user_usage_unchanged_witness :
  daily_usage (world (post_api_chat Sample.env Sample.hello Sample.start_admin).2)
  = daily_usage (world Sample.start_admin).
Proof.
  apply (unlimited_user_usage_unchanged Sample.env Sample.hello
           Sample.start_admin Sample.julie Sample.admin_row eq_refl eq_refl).
  left. reflexivity.
Defined.

(** ** Usage recording *)

Section Upsert.
Variable env : Env.
Hypothesis select_works : db_fault env UsageSelect = NoFault.
Hypothesis update_works : db_fault env UsageUpdate = NoFault.
Hypothesis insert_works : db_fault env UsageInsert = NoFault.

Lemma usage_matches_refl u d n :
  usage_matches u d {| user_id := u; date := d; prompts_count := n |} = true.
Proof. unfold usage_matches. cbn. rewrite !String.eqb_refl. reflexivity. Qed.

Lemma incrementDailyUsage_insert u d s :
  usage_rows u d (world s) = [] ->
  incrementDailyUsage env u d s
  = (Done tt,
     {| world := insert_usage {| user_id := u; date := d; prompts_count := 1 |}
                   (world s);
        model_calls := model_calls s |}).
Proof.
  intros Hrows.
  unfold incrementDailyUsage, try_catch, bind, query_single, db_write.
  rewrite select_works, Hrows. cbn [single data]. rewrite insert_works.
  reflexivity.
Qed.

Lemma incrementDailyUsage_update u d s row :
  usage_rows u d (world s) = [row] ->
  incrementDailyUsage env u d s
  = (Done tt,
     {| world := update_usage u d (prompts_count row + 1) (world s);
        model_calls := model_calls s |}).
Proof.
  intros Hrows.
  unfold incrementDailyUsage, try_catch, bind, query_single, db_write.
  rewrite select_works, Hrows. cbn [single data]. rewrite update_works.
  reflexivity.
Qed.

Lemma usage_rows_update u d n w :
  usage_rows u d (update_usage u d n w)
  = map (fun r => {| user_id := user_id r; date := date r; prompts_count := n |})
      (usage_rows u d w).
Proof.
  unfold usage_rows, update_usage. cbn [daily_usage with_daily_usage].
  induction (daily_usage w) as [| r rows IH]; [reflexivity |].
  cbn [map List.filter].
  destruct (usage_matches u d r) eqn:Hr.
  - replace (usage_matches u d _) with true by (symmetry; exact Hr).
    cbn [map]. rewrite IH. reflexivity.
  - rewrite Hr. exact IH.
Qed.

End Upsert.

(** The usage table changes only in a request the model answered. *)
Lemma chat_run_usage env req s o s' :
  chat_run env req s o s' ->
  daily_usage (world s') = daily_usage (world s)
  \/ exists hist prompt reply r,
       model_calls s' = model_calls s ++ [(hist, prompt)]
       /\ sendMessage env hist prompt = Returned reply
       /\ o = Sent r /\ status r = 200%Z.
Proof.
  intros Hrun. chat_run_cases Hrun.
  - left. reflexivity.
  - left. reflexivity.
  - right. apply record_usage_frame in Husage as (Hcalls & _).
    eexists _, _, reply, _. rewrite Hcalls. cbn [remembered log_call model_calls].
    split; [reflexivity |]. split; [exact Hsend |]. split; reflexivity.
Qed.

Lemma post_api_chat_usage env h s :
  daily_usage (world (post_api_chat env h s).2) = daily_usage (world s)
  \/ exists hist prompt reply r,
       model_calls (post_api_chat env h s).2 = model_calls s ++ [(hist, prompt)]
       /\ sendMessage env hist prompt = Returned reply
       /\ (post_api_chat env h s).1 = Sent r /\ status r = 200%Z.
Proof.
  destruct (post_api_chat_run env h s) as [(r & -> & _) | (req & _ & Hrun)].
  - left. reflexivity.
  - eapply chat_run_usage. eassumption.
Qed.

(** *** The response does not depend on the usage calls *)

Lemma bind_outcome_ext {A B} (c : M A) (k1 k2 : A -> M B) s :
  (forall a s1, (k1 a s1).1 = (k2 a s1).1) ->
  (bind c k1 s).1 = (bind c k2 s).1.
Proof.
  intros Hk. unfold bind. destruct (c s) as [[a | r | e] s1]; cbn; auto.
Qed.

Lemma chat_handler_usage_faults env f req s :
  (chat_handler (with_usage_faults f env) req s).1 = (chat_handler env req s).1.
Proof.
  unfold chat_handler, try_catch. cbv zeta.
  match goal with
  | |- (let (_, _) := ?c1 s in _).1 = (let (_, _) := ?c2 s in _).1 =>
      assert (Hbody : (c1 s).1 = (c2 s).1);
      [| destruct (c1 s) as [o1 s1], (c2 s) as [o2 s2]; cbn in Hbody; subst o2;
         destruct o1; reflexivity]
  end.
  destruct (message (req_body (http req))) as [m |]; [| reflexivity].
  destruct (negb (JS.truthy_string (Some m))); [reflexivity |].
  change (chat_limit_check (with_usage_faults f env))
    with (chat_limit_check env).
  apply bind_outcome_ext. intros ui s1.
  apply bind_outcome_ext. intros w s2.
  change (rag_permission_check (with_usage_faults f env))
    with (rag_permission_check env).
  apply bind_outcome_ext. intros _ s3.
  change (retrieve_context (with_usage_faults f env))
    with (retrieve_context env).
  apply bind_outcome_ext. intros ctx s4.
  change (gemini_chat (with_usage_faults f env)) with (gemini_chat env).
  apply bind_outcome_ext. intros reply s5.
  apply bind_outcome_ext. intros _ s6.
  destruct (record_usage_swallows env req s6) as (s7 & H7 & _).
  destruct (record_usage_swallows (with_usage_faults f env) req s6)
    as (s8 & H8 & _).
  rewrite (bind_done _ _ _ _ _ H7), (bind_done _ _ _ _ _ H8). reflexivity.
Qed.

Lemma post_api_chat_usage_faults env f h s :
  (post_api_chat (with_usage_faults f env) h s).1 = (post_api_chat env h s).1.
Proof.
  unfold post_api_chat.
  change (authenticateUser (with_usage_faults f env))
    with (authenticateUser env).
  apply bind_outcome_ext. intros req s1.
  change (checkDailyQuota (with_usage_faults f env))
    with (checkDailyQuota env).
  apply bind_outcome_ext. intros req' s2.
  apply chat_handler_usage_faults.
Qed.

(** C6. [incrementDailyUsage] is an upsert: without a row for (user, date)
    it adds one with [prompts_count] 1, with a row it makes the count one
    more and adds no row.  The usage table changes only in a request the
    model has answered, so a request whose model call throws leaves it as
    it was.  Whatever its three database calls do, [incrementDailyUsage]
    comes back normally and the response of the chat request is the
    same. *)
Theorem usage_increment_is_best_effort_upsert (env : Env) :
  (db_fault env UsageSelect = NoFault ->
   db_fault env UsageUpdate = NoFault ->
   db_fault env UsageInsert = NoFault ->
   forall u d s,
     (usage_rows u d (world s) = [] ->
      exists s',
        incrementDailyUsage env u d s = (Done tt, s')
        /\ daily_usage (world s')
           = daily_usage (world s)
             ++ [{| user_id := u; date := d; prompts_count := 1 |}]
        /\ usage_rows u d (world s')
           = [{| user_id := u; date := d; prompts_count := 1 |}])
     /\ (forall row,
           usage_rows u d (world s) = [row] ->
           exists s',
             incrementDailyUsage env u d s = (Done tt, s')
             /\ length (daily_usage (world s')) = length (daily_usage (world s))
             /\ usage_rows u d (world s')
                = [{| user_id := user_id row; date := date row;
                      prompts_count := prompts_count row + 1 |}]))
  /\ (forall h s,
        daily_usage (world (post_api_chat env h s).2) = daily_usage (world s)
        \/ exists hist prompt reply r,
             model_calls (post_api_chat env h s).2
             = model_calls s ++ [(hist, prompt)]
             /\ sendMessage env hist prompt = Returned reply
             /\ (post_api_chat env h s).1 = Sent r /\ status r = 200%Z)
  /\ (forall h s hist prompt e,
        model_calls (post_api_chat env h s).2 = model_calls s ++ [(hist, prompt)] ->
        sendMessage env hist prompt = Thrown e ->
        daily_usage (world (post_api_chat env h s).2) = daily_usage (world s))
  /\ (forall u d s, exists s', incrementDailyUsage env u d s = (Done tt, s'))
  /\ (forall f h s,
        (post_api_chat (with_usage_faults f env) h s).1
        = (post_api_chat env h s).1).
Proof.
  split; [| split; [| split; [| split]]].
  - intros Hsel Hupd Hins u d s. split.
    + intros Hrows.
      exists {| world := insert_usage
                           {| user_id := u; date := d; prompts_count := 1 |}
                           (world s);
                model_calls := model_calls s |}.
      split; [apply incrementDailyUsage_insert; assumption |].
      split; [reflexivity |].
      unfold usage_rows, insert_usage in *.
      cbn [world daily_usage with_daily_usage].
      rewrite List.filter_app, Hrows. cbn [List.filter app].
      rewrite usage_matches_refl. reflexivity.
    + intros row Hrows. eexists.
      split; [apply incrementDailyUsage_update; eassumption |].
      cbn [world]. split.
      * unfold update_usage. cbn [daily_usage with_daily_usage].
        apply length_map.
      * rewrite usage_rows_update, Hrows. reflexivity.
  - apply post_api_chat_usage.
  - intros h s hist prompt e Hcalls Hthrown.
    destruct (post_api_chat_usage env h s)
      as [Hsame | (hist' & prompt' & reply & r & Hcalls' & Hret & _)];
      [exact Hsame |].
    rewrite Hcalls in Hcalls'. apply app_inv_head in Hcalls'.
    injection Hcalls' as -> ->. congruence.
  - intros u d s. destruct (incrementDailyUsage_swallows env u d s) as (s' & H & _).
    eauto.
  - intros f h s. apply post_api_chat_usage_faults.
Qed.

Lemma usage_increment_is_best_effort_upsert_witness :
  exists s',
    incrementDailyUsage Sample.env "u1" "2025-01-15" Sample.start = (Done tt, s')
    /\ daily_usage (world s')
       = daily_usage (world Sample.start)
         ++ [{| user_id := "u1"; date := "2025-01-15"; prompts_count := 1 |}]
    /\ usage_rows "u1" "2025-01-15" (world s')
       = [{| user_id := "u1"; date := "2025-01-15"; prompts_count := 1 |}].
Proof.
  destruct (usage_increment_is_best_effort_upsert Sample.env) as [Hupsert _].
  destruct (Hupsert eq_refl eq_refl eq_refl "u1" "2025-01-15" Sample.start)
    as [Hinsert _].
  apply Hinsert. reflexivity.
Defined.

(** ** Chat length limit *)

Lemma truthy_string_nonempty c : c <> "" -> JS.truthy_string (Some c) = true.
Proof.
  intros Hc. unfold JS.truthy_string.
  apply String.eqb_neq in Hc. rewrite Hc. reflexivity.
Qed.

Lemma chat_limit_check_at_limit env c s :
  c <> "" ->
  db_fault env ChatMessages = NoFault ->
  (200 <= persisted_messages c (world s))%Z ->
  chat_limit_check env (Some c) s
  = (Sent (chat_limit_reached (persisted_messages c (world s))), s).
Proof.
  intros Hc Hf Hcount.
  unfold chat_limit_check, bind, messages_count.
  rewrite truthy_string_nonempty, Hf by assumption.
  unfold JS.ge_nullable, CHAT_CONFIG.MAX_MESSAGES_PER_CHAT.
  destruct (Z.leb_spec 200 (persisted_messages c (world s))); [reflexivity | lia].
Qed.

(** At the limit the handler answers 400 and leaves the state alone. *)
Lemma chat_handler_at_limit env req s c :
  chatId (req_body (http req)) = Some c ->
  c <> "" ->
  db_fault env ChatMessages = NoFault ->
  (200 <= persisted_messages c (world s))%Z ->
  (exists r, chat_handler env req s = (Sent r, s) /\ status r = 400%Z)
  /\ (forall m, message (req_body (http req)) = Some m -> m <> "" ->
        chat_handler env req s
        = (Sent (chat_limit_reached (persisted_messages c (world s))), s)).
Proof.
  intros Hchat Hc Hf Hcount.
  pose proof (chat_limit_check_at_limit env c s Hc Hf Hcount) as Hcheck.
  unfold chat_handler, try_catch. cbv zeta. rewrite Hchat.
  destruct (message (req_body (http req))) as [m |].
  - destruct (String.eqb_spec m "") as [-> | Hm].
    + split; [eexists; split; reflexivity | intros ? [= <-] []; reflexivity].
    + rewrite truthy_string_nonempty by assumption. cbn [negb].
      rewrite (bind_sent _ _ _ _ _ Hcheck).
      split; [eexists; split; reflexivity | intros; reflexivity].
  - split; [eexists; split; reflexivity | intros; discriminate].
Qed.

(** The limit when the count query works.  For a chat request that
    carries the id of a chat whose persisted message count has reached
    200, nothing happens but a rejection: the state is left as it was, so
    the model is not called; and a request that gets to the handler
    (authenticated, within quota) with a message is answered 400 with the
    error code [chat_limit_reached]. *)
Theorem chat_at_limit_is_rejected
    (env : Env) (h : HttpRequest) (s : Sys) (c : string) :
  chatId (req_body h) = Some c ->
  c <> "" ->
  db_fault env ChatMessages = NoFault ->
  (200 <= persisted_messages c (world s))%Z ->
  model_calls (post_api_chat env h s).2 = model_calls s
  /\ (post_api_chat env h s).2 = s
  /\ (exists r, (post_api_chat env h s).1 = Sent r /\ status r <> 200%Z)
  /\ (forall m req1 req2,
        message (req_body h) = Some m -> m <> "" ->
        authenticateUser env (incoming h) s = (Done req1, s) ->
        checkDailyQuota env req1 s = (Done req2, s) ->
        post_api_chat env h s
        = (Sent {| status := 400;
                   body := JObj [("error", JStr "chat_limit_reached");
                                 ("message", JStr "Ce chat a atteint la limite de 200 messages. Créez un nouveau chat pour continuer.");
                                 ("messageCount",
                                  JNum (persisted_messages c (world s)))] |},
           s)).
Proof.
  intros Hchat Hc Hf Hcount.
  assert (Hstop : exists r, post_api_chat env h s = (Sent r, s)
                            /\ status r <> 200%Z).
  { destruct (post_api_chat_cases env h s)
      as [(r & Hr & Hs) | (au & req & _ & _ & Hh & _ & ->)].
    - exists r. split; [assumption | lia].
    - rewrite <- Hh in Hchat.
      destruct (chat_handler_at_limit env req s c Hchat Hc Hf Hcount)
        as [(r & Hr & Hs) _].
      exists r. split; [assumption | lia]. }
  destruct Hstop as (r & Hrun & Hstatus).
  split; [rewrite Hrun; reflexivity |].
  split; [rewrite Hrun; reflexivity |].
  split; [exists r; rewrite Hrun; auto |].
  intros m req1 req2 Hm Hne Hauth Hquota.
  unfold post_api_chat.
  rewrite (bind_done _ _ _ _ _ Hauth), (bind_done _ _ _ _ _ Hquota).
  assert (Hhttp : http req2 = h).
  { destruct (authenticateUser_cases env (incoming h) s)
      as [[au Ha] | (r' & Ha & _)]; [| congruence].
    rewrite Ha in Hauth. injection Hauth as <-.
    destruct (checkDailyQuota_cases env (authenticated (incoming h) au) s)
      as [Hq | [(uid & used & d & Hq) | (limit & used & Hq)]];
      rewrite Hq in Hquota; [| | discriminate];
      injection Hquota as <-; reflexivity. }
  rewrite <- Hhttp in Hchat, Hm.
  destruct (chat_handler_at_limit env req2 s c Hchat Hc Hf Hcount) as [_ Hlimit].
  apply (Hlimit m); assumption.
Qed.

Lemma chat_at_limit_is_rejected_witness :
  post_api_chat Sample.env Sample.hello_full_chat Sample.start_full_chat
  = (Sent {| status := 400;
             body := JObj [("error", JStr "chat_limit_reached");
                           ("message", JStr "Ce chat a atteint la limite de 200 messages. Créez un nouveau chat pour continuer.");
                           ("messageCount",
                            JNum (persisted_messages "chat-1"
                                    (world Sample.start_full_chat)))] |},
     Sample.start_full_chat).
Proof.
  assert (Hcount : (200 <= persisted_messages "chat-1"
                             (world Sample.start_full_chat))%Z)
    by (vm_compute; discriminate).
  destruct (chat_at_limit_is_rejected Sample.env Sample.hello_full_chat
              Sample.start_full_chat "chat-1" eq_refl
              ltac:(discriminate) eq_refl Hcount)
    as (_ & _ & _ & Hrejected).
  apply (Hrejected "bonjour"
           (authenticated (incoming Sample.hello_full_chat) Sample.julie)
           (attach_usage
              (authenticated (incoming Sample.hello_full_chat) Sample.julie)
              "u1" 0 "2025-01-15"));
    [reflexivity | discriminate | reflexivity | reflexivity].
Defined.

(** The limit when the count query resolves to an error.  The handler
    takes [count] out of the result and never looks at [error]; [count] is
    then [null], [null >= 200] is false, and the check is passed whatever
    the chat holds. *)
Lemma chat_limit_check_unread env c s e :
  db_fault env ChatMessages = ReturnsError e ->
  chat_limit_check env c s = (Done JNull, s).
Proof.
  intros Hf. unfold chat_limit_check, bind, messages_count.
  destruct c as [c |]; [| reflexivity].
  destruct (JS.truthy_string (Some c)); [| reflexivity].
  rewrite Hf. reflexivity.
Qed.

(** C7. The claim fails where the count query on [messages] resolves to an
    error: a chat request for a chat that holds 200 persisted messages is
    then answered 200, after a call to the model, and its four turns
    are stored. *)
Theorem chat_over_limit_is_served_when_count_fails :
  persisted_messages "chat-1" (world Sample.start_full_chat) = 200%Z
  /\ chatId (req_body Sample.hello_full_chat) = Some "chat-1"
  /\ db_fault Sample.env_count_down ChatMessages
     = ReturnsError "connection refused"
  /\ response_of
       (post_api_chat Sample.env_count_down Sample.hello_full_chat
          Sample.start_full_chat).1
     = Some {| status := 200; body := answer_body "ok" (Some "c1") "" JNull |}
  /\ model_calls
       (post_api_chat Sample.env_count_down Sample.hello_full_chat
          Sample.start_full_chat).2
     = [([], "bonjour")]
  /\ stored (Some "c1")
       (post_api_chat Sample.env_count_down Sample.hello_full_chat
          Sample.start_full_chat).2
     = [text_turn user "bonjour"; text_turn model "ok";
        text_turn user "bonjour"; text_turn model "ok"].
Proof. repeat split; vm_compute; reflexivity. Qed.

(** ** Retrieval *)

Lemma getRelevantContext_degrades env q k s :
  retrieval_fails env q k -> getRelevantContext env q k s = (Done "", s).
Proof.
  intros [[e He] | (v & e & Hv & He)];
    unfold getRelevantContext, try_catch, bind, lift_try.
  - rewrite He. reflexivity.
  - rewrite Hv. cbn [ret]. rewrite He. reflexivity.
Qed.

Lemma retrieve_context_degrades env f m s :
  retrieval_fails env m 3 -> retrieve_context env f m s = (Done "", s).
Proof.
  intros Hfail. unfold retrieve_context.
  destruct (needsContext env f m); [| reflexivity].
  apply getRelevantContext_degrades. assumption.
Qed.

Lemma string_length_append (a b : string) :
  String.length (a ++ b)%string = (String.length a + String.length b)%nat.
Proof.
  induction a as [| c a IH]; [reflexivity |].
  change (S (String.length (a ++ b)%string)
          = S (String.length a + String.length b)).
  rewrite IH. reflexivity.
Qed.

Lemma enhancedMessage_empty m : enhancedMessage m "" = m.
Proof. reflexivity. Qed.

Lemma enhancedMessage_nonempty m ctx :
  ctx <> "" ->
  enhancedMessage m ctx
  = ("CONTEXTE DOCUMENTAIRE :" ++ JS.LF ++ ctx ++ JS.LF ++ JS.LF
     ++ "---" ++ JS.LF ++ JS.LF ++ "QUESTION : " ++ m ++ JS.LF ++ JS.LF
     ++ "Utilise le contexte ci-dessus pour répondre avec précision.")%string.
Proof.
  intros Hctx. unfold enhancedMessage.
  apply String.eqb_neq in Hctx. rewrite Hctx. reflexivity.
Qed.

Lemma enhancedMessage_augmented m ctx :
  enhancedMessage m ctx <> m <-> ctx <> "".
Proof.
  split.
  - intros Hne ->. apply Hne, enhancedMessage_empty.
  - intros Hctx Heq. rewrite enhancedMessage_nonempty in Heq by assumption.
    apply (f_equal String.length) in Heq.
    rewrite !string_length_append in Heq. cbn [String.length JS.LF] in Heq. lia.
Qed.

(** The prompt of every call the handler makes is built from the message
    and the context block the retrieval step returned. *)
Lemma chat_run_prompt env req s o s' hist prompt :
  chat_run env req s o s' ->
  model_calls s' = model_calls s ++ [(hist, prompt)] ->
  exists m ctx,
    message (req_body (http req)) = Some m
    /\ retrieve_context env (force_of req) m s = (Done ctx, s)
    /\ prompt = enhancedMessage m ctx.
Proof.
  intros Hrun Hcalls. chat_run_cases Hrun.
  - apply (f_equal (@length _)) in Hcalls. rewrite length_app in Hcalls.
    cbn in Hcalls. lia.
  - cbn [log_call model_calls] in Hcalls. apply app_inv_head in Hcalls.
    injection Hcalls as _ <-. eauto.
  - apply record_usage_frame in Husage as (Hsame & _). rewrite Hsame in Hcalls.
    cbn [remembered log_call model_calls] in Hcalls.
    apply app_inv_head in Hcalls. injection Hcalls as _ <-. eauto.
Qed.

(** A request that passes the two checks, whose retrieval fails and whose
    model call answers, is answered 200 from the raw message. *)
Lemma chat_handler_without_context env req s m ui reply :
  message (req_body (http req)) = Some m ->
  m <> "" ->
  chat_limit_check env (chatId (req_body (http req))) s = (Done ui, s) ->
  rag_permission_check env req (force_of req) m s = (Done tt, s) ->
  retrieval_fails env m 3 ->
  sendMessage env (window (stored (conversation_of req) s)) m = Returned reply ->
  exists s',
    chat_handler env req s
    = (Sent {| status := 200;
               body := JObj [("response", JStr reply);
                             ("conversationId",
                              json_of_string (conversation_of req));
                             ("hasContext", JBool false);
                             ("uiMessage", ui)] |}, s')
    /\ model_calls s'
       = model_calls s ++ [(window (stored (conversation_of req) s), m)].
Proof.
  intros Hm Hne Hlimit Hrag Hfail Hsend.
  unfold chat_handler, try_catch. cbv zeta.
  fold (conversation_of req). fold (force_of req).
  rewrite Hm, truthy_string_nonempty by assumption. cbn [negb].
  rewrite (bind_done _ _ _ _ _ Hlimit).
  rewrite (bind_done _ _ s (world s) s) by reflexivity.
  fold (stored (conversation_of req) s).
  rewrite (bind_done _ _ _ _ _ Hrag).
  rewrite (bind_done _ _ _ _ _ (retrieve_context_degrades env _ m s Hfail)).
  rewrite enhancedMessage_empty.
  rewrite (bind_done _ _ _
             (reply,
              sdk_push (window (stored (conversation_of req) s)) [TextPart m]
                reply)
             (log_call (window (stored (conversation_of req) s)) m s))
    by (unfold gemini_chat; rewrite Hsend; reflexivity).
  cbn [fst snd].
  rewrite (bind_done _ _ _ _ _ (remember_run _ _ _ _ _)).
  destruct (record_usage_swallows env req
              (remembered (conversation_of req)
                 (sdk_push (window (stored (conversation_of req) s))
                    [TextPart m] reply) m reply
                 (log_call (window (stored (conversation_of req) s)) m s)))
    as (s' & Husage & Hsame & _).
  rewrite (bind_done _ _ _ _ _ Husage).
  exists s'. split; [reflexivity |]. rewrite Hsame. reflexivity.
Qed.

(** C8. When the embedding call or the vector query throws,
    [getRelevantContext] returns the empty string; the chat turn then sends
    the raw message to the model and, the model answering, responds 200
    with [hasContext] false.  The prompt of a model call is the message
    under the labelled documentary context exactly when the retrieved
    context block is not empty, and the bare message otherwise. *)
Theorem retrieval_failure_degrades_to_raw_message (env : Env) :
  (forall q k s,
     retrieval_fails env q k -> getRelevantContext env q k s = (Done "", s))
  /\ (forall req s m ui reply,
        message (req_body (http req)) = Some m ->
        m <> "" ->
        chat_limit_check env (chatId (req_body (http req))) s = (Done ui, s) ->
        rag_permission_check env req (force_of req) m s = (Done tt, s) ->
        retrieval_fails env m 3 ->
        sendMessage env (window (stored (conversation_of req) s)) m
        = Returned reply ->
        exists s',
          chat_handler env req s
          = (Sent {| status := 200;
                     body := JObj [("response", JStr reply);
                                   ("conversationId",
                              json_of_string (conversation_of req));
                                   ("hasContext", JBool false);
                                   ("uiMessage", ui)] |}, s')
          /\ model_calls s'
             = model_calls s ++ [(window (stored (conversation_of req) s), m)])
  /\ (forall req s hist prompt,
        model_calls (chat_handler env req s).2
        = model_calls s ++ [(hist, prompt)] ->
        exists m ctx,
          message (req_body (http req)) = Some m
          /\ retrieve_context env (force_of req) m s = (Done ctx, s)
          /\ prompt = enhancedMessage m ctx)
  /\ (forall m ctx,
        (enhancedMessage m ctx <> m <-> ctx <> "")
        /\ (ctx = "" -> enhancedMessage m ctx = m)
        /\ (ctx <> "" ->
            enhancedMessage m ctx
            = ("CONTEXTE DOCUMENTAIRE :" ++ JS.LF ++ ctx ++ JS.LF ++ JS.LF
               ++ "---" ++ JS.LF ++ JS.LF ++ "QUESTION : " ++ m ++ JS.LF ++ JS.LF
               ++ "Utilise le contexte ci-dessus pour répondre avec précision.")%string)).
Proof.
  split; [| split; [| split]].
  - intros q k s. apply getRelevantContext_degrades.
  - intros req s m ui reply. apply chat_handler_without_context.
  - intros req s hist prompt Hcalls.
    eapply chat_run_prompt; [apply chat_handler_run | exact Hcalls].
  - intros m ctx. split; [apply enhancedMessage_augmented |].
    split; [intros ->; apply enhancedMessage_empty
           | apply enhancedMessage_nonempty].
Qed.

Lemma retrieval_failure_degrades_to_raw_message_witness :
  exists s',
    chat_handler Sample.env_embedding_down
      (authenticated (incoming Sample.hello_forced) Sample.julie) Sample.start
    = (Sent {| status := 200;
               body := JObj [("response", JStr "ok");
                             ("conversationId", JStr "c1");
                             ("hasContext", JBool false);
                             ("uiMessage", JNull)] |}, s')
    /\ model_calls s' = [([], "bonjour")].
Proof.
  destruct (retrieval_failure_degrades_to_raw_message Sample.env_embedding_down)
    as (_ & Hturn & _).
  apply (Hturn (authenticated (incoming Sample.hello_forced) Sample.julie)
           Sample.start "bonjour" JNull "ok").
  - reflexivity.
  - discriminate.
  - reflexivity.
  - reflexivity.
  - left. exists "embedding unavailable". reflexivity.
  - reflexivity.
Defined.

(** ** Permission resolution *)

(** C3 as stated fails: the permissions reported for an employee without
    override do not follow the defaults of the employee's organization,
    whatever the fallback constants are: the same record gives the same
    answer under two organizations whose defaults differ. *)
Lemma permissions_ignore_organization_defaults :
  ~ (exists fallback : Permissions,
       forall (u : UserRow) (org : OrgRow),
         employee_without_override u ->
         member_of u org ->
         permissions_of u = spec_permissions fallback org).
Proof.
  intros [fallback Hclaim].
  assert (Hbare : employee_without_override Sample.bare_employee)
    by (repeat split).
  pose proof (Hclaim Sample.bare_employee (Sample.org_uploads true)
                Hbare eq_refl) as Ht.
  pose proof (Hclaim Sample.bare_employee (Sample.org_uploads false)
                Hbare eq_refl) as Hf.
  rewrite Ht in Hf.
  apply (f_equal p_can_upload_documents) in Hf. discriminate.
Qed.

Lemma join_handler_run env req s au code org u :
  req_user req = Some au ->
  body_org_code (req_body (http req)) = Some code ->
  db_fault env JoinOrg = NoFault ->
  db_fault env JoinUser = NoFault ->
  orgs_by_code (toUpperCase env code) (world s) = [org] ->
  users (world s) !! id au = Some u ->
  join_handler env req s
  = (Sent {| status := 200;
             body := JObj [("success", JBool true);
                           ("organization", org_json org)] |},
     {| world := with_users (alter (join_update org) (id au) (users (world s)))
                   (world s);
        model_calls := model_calls s |}).
Proof.
  intros Hau Hcode Hf1 Hf2 Horg Hu.
  unfold join_handler, try_catch, bind, query_single, req_user_id, db_write.
  rewrite Hcode, Hf1, Horg. cbn [single data error].
  rewrite Hau. cbn [ret]. rewrite Hf2. reflexivity.
Qed.

Lemma permissions_handler_run env req s au u :
  req_user req = Some au ->
  db_fault env PermUser = NoFault ->
  users (world s) !! id au = Some u ->
  permissions_handler env req s
  = (Sent {| status := 200;
             body := JObj [("success", JBool true);
                           ("role", JStr (JS.string_or (u_role u) "employee"));
                           ("first_name", json_of_string (first_name u));
                           ("email", json_of_string (u_email u));
                           ("permissions",
                            permissions_json (permissions_of u))] |}, s).
Proof.
  intros Hau Hf Hu.
  unfold permissions_handler, try_catch, bind, query_single, req_user_id,
    users_by_id.
  rewrite Hau. cbn [ret]. rewrite Hf, Hu. reflexivity.
Qed.

(** C3 (amended). An employee's capabilities are resolved from the user
    record alone, and always to a value.  The defaults of the organization
    enter when the user joins: the join writes into the record, for each
    capability and for the quota, the organization's default and, where
    the organization has none, the fallback (no RAG, uploads allowed, no
    edits, no deletions, 50 messages a day).  The permissions route then
    answers from the record: for a record written by a join, the four
    flags as written and the quota as written when it is not zero; for an
    employee without any stored value, RAG allowed, the three document
    capabilities denied and 50 messages a day, whatever the organization's
    defaults. *)
Theorem permissions_resolve_from_user_record
    (env : Env) (req : Req) (s : Sys) (au : AuthUser) (u : UserRow) :
  req_user req = Some au ->
  users (world s) !! id au = Some u ->
  (forall code org,
     body_org_code (req_body (http req)) = Some code ->
     db_fault env JoinOrg = NoFault ->
     db_fault env JoinUser = NoFault ->
     orgs_by_code (toUpperCase env code) (world s) = [org] ->
     exists s' u',
       (join_handler env req s).2 = s'
       /\ users (world s') !! id au = Some u'
       /\ u_role u' = Some "employee"
       /\ u_organization_id u' = Some (org_id org)
       /\ can_use_rag u' = Some (spec_effective (default_can_use_rag org) false)
       /\ can_upload_documents u'
          = Some (spec_effective (default_can_upload_documents org) true)
       /\ can_edit_documents u'
          = Some (spec_effective (default_can_edit_documents org) false)
       /\ can_delete_documents u'
          = Some (spec_effective (default_can_delete_documents org) false)
       /\ daily_message_quota u'
          = Some (spec_effective (default_daily_message_quota org) 50)
       /\ p_can_use_rag (permissions_of u')
          = spec_effective (default_can_use_rag org) false
       /\ p_can_upload_documents (permissions_of u')
          = spec_effective (default_can_upload_documents org) true
       /\ p_can_edit_documents (permissions_of u')
          = spec_effective (default_can_edit_documents org) false
       /\ p_can_delete_documents (permissions_of u')
          = spec_effective (default_can_delete_documents org) false
       /\ (spec_effective (default_daily_message_quota org) 50 <> 0%Z ->
           p_daily_message_quota (permissions_of u')
           = spec_effective (default_daily_message_quota org) 50))
  /\ (db_fault env PermUser = NoFault ->
      permissions_handler env req s
      = (Sent {| status := 200;
                 body := JObj [("success", JBool true);
                               ("role", JStr (JS.string_or (u_role u) "employee"));
                               ("first_name", json_of_string (first_name u));
                               ("email", json_of_string (u_email u));
                               ("permissions",
                                JObj [("can_use_rag",
                                       JBool (p_can_use_rag (permissions_of u)));
                                      ("can_upload_documents",
                                       JBool (p_can_upload_documents (permissions_of u)));
                                      ("can_edit_documents",
                                       JBool (p_can_edit_documents (permissions_of u)));
                                      ("can_delete_documents",
                                       JBool (p_can_delete_documents (permissions_of u)));
                                      ("daily_message_quota",
                                       JNum (p_daily_message_quota (permissions_of u)))])] |},
         s))
  /\ (employee_without_override u ->
      permissions_of u
      = {| p_can_use_rag := true;
           p_can_upload_documents := false;
           p_can_edit_documents := false;
           p_can_delete_documents := false;
           p_daily_message_quota := 50 |}).
Proof.
  intros Hau Hu. split; [| split].
  - intros code org Hcode Hf1 Hf2 Horg.
    rewrite (join_handler_run env req s au code org u) by assumption.
    eexists _, (join_update org u). split; [reflexivity |].
    split.
    { cbn [snd world users with_users]. rewrite lookup_alter_eq, Hu. reflexivity. }
    repeat (split; [reflexivity |]).
    split.
    { cbn. destruct (default_can_use_rag org) as [[] |]; reflexivity. }
    split.
    { cbn. destruct (default_can_upload_documents org) as [[] |]; reflexivity. }
    split.
    { cbn. destruct (default_can_edit_documents org) as [[] |]; reflexivity. }
    split.
    { cbn. destruct (default_can_delete_documents org) as [[] |]; reflexivity. }
    intros Hq. cbn [permissions_of p_daily_message_quota join_update
                      daily_message_quota defaultPermissions].
    unfold JS.number_or, JS.nullish, spec_effective in *.
    destruct (default_daily_message_quota org) as [q |].
    + destruct (Z.eqb_spec q 0); [contradiction | reflexivity].
    + reflexivity.
  - intros Hf. apply (permissions_handler_run env req s au u); assumption.
  - intros (_ & Hrag & Hup & Hed & Hdel & Hq).
    unfold permissions_of. rewrite Hrag, Hup, Hed, Hdel, Hq. reflexivity.
Qed.

Lemma permissions_resolve_from_user_record_witness :
  permissions_of Sample.bare_employee
  = {| p_can_use_rag := true;
       p_can_upload_documents := false;
       p_can_edit_documents := false;
       p_can_delete_documents := false;
       p_daily_message_quota := 50 |}.
Proof.
  destruct (permissions_resolve_from_user_record Sample.env
              (authenticated (incoming Sample.join_request) Sample.julie)
              Sample.start_before_join Sample.julie Sample.bare_employee
              eq_refl eq_refl) as (_ & _ & Hbare).
  apply Hbare. repeat split.
Defined.

(** * Further properties of the chat route *)

(** A request that passes the checks and whose model call returns is
    answered 200; the state is what [record_usage] leaves after the
    exchange is stored. *)
Lemma chat_handler_answers env req s m ui ctx reply :
  message (req_body (http req)) = Some m ->
  m <> "" ->
  chat_limit_check env (chatId (req_body (http req))) s = (Done ui, s) ->
  rag_permission_check env req (force_of req) m s = (Done tt, s) ->
  retrieve_context env (force_of req) m s = (Done ctx, s) ->
  sendMessage env (window (stored (conversation_of req) s))
    (enhancedMessage m ctx) = Returned reply ->
  exists s',
    record_usage env req
      (remembered (conversation_of req)
         (sdk_push (window (stored (conversation_of req) s))
            [TextPart (enhancedMessage m ctx)] reply) m reply
         (log_call (window (stored (conversation_of req) s))
            (enhancedMessage m ctx) s)) = (Done tt, s')
    /\ chat_handler env req s
       = (Sent {| status := 200;
                  body := answer_body reply (conversation_of req) ctx ui |}, s').
Proof.
  intros Hm Hne Hlimit Hrag Hctx Hsend.
  unfold chat_handler, try_catch. cbv zeta.
  fold (conversation_of req). fold (force_of req).
  rewrite Hm, truthy_string_nonempty by assumption. cbn [negb].
  rewrite (bind_done _ _ _ _ _ Hlimit).
  rewrite (bind_done _ _ s (world s) s) by reflexivity.
  fold (stored (conversation_of req) s).
  rewrite (bind_done _ _ _ _ _ Hrag), (bind_done _ _ _ _ _ Hctx).
  rewrite (bind_done _ _ _ _ _ (gemini_chat_returned env _ _ _ s Hsend)).
  cbn [fst snd].
  rewrite (bind_done _ _ _ _ _ (remember_run _ _ _ _ _)).
  destruct (record_usage_swallows env req
              (remembered (conversation_of req)
                 (sdk_push (window (stored (conversation_of req) s))
                    [TextPart (enhancedMessage m ctx)] reply) m reply
                 (log_call (window (stored (conversation_of req) s))
                    (enhancedMessage m ctx) s)))
    as (s' & Husage & _).
  rewrite (bind_done _ _ _ _ _ Husage).
  exists s'. split; [assumption | reflexivity].
Qed.

(** ** The RAG permission check of the chat route *)

Lemma rag_permission_check_loaded env req f m s au u :
  f || containsSpecificEntityNames env m = true ->
  req_user req = Some au ->
  db_fault env ChatRagUser = NoFault ->
  users (world s) !! id au = Some u ->
  rag_permission_check env req f m s
  = if negb (is_admin u) && negb (JS.truthy_bool (can_use_rag u))
    then (Sent {| status := 403;
                  body := error_body "Accès RAG désactivé pour votre compte" |}, s)
    else (Done tt, s).
Proof.
  intros Htrig Hau Hf Hu.
  unfold rag_permission_check, bind, req_user_id, query_single, users_by_id.
  rewrite Htrig, Hau. cbn [ret]. rewrite Hf, Hu. cbn [single data].
  destruct (_ && _); reflexivity.
Qed.

Lemma truthy_bool_true b : JS.truthy_bool b = true <-> b = Some true.
Proof. destruct b as [[] |]; cbn; split; congruence. Qed.

(** X1. In [POST /api/chat], when retrieval is forced or the message names
    a known entity, a user who is not an administrator and whose
    [can_use_rag] is not true is answered 403 and nothing else happens; an
    administrator or a user with [can_use_rag] passes the check; when the
    user row cannot be read (no row, or an error returned) the check lets
    the request go on.  A message that triggers nothing is not checked at
    all. *)
Theorem rag_check_gates_triggered_requests
    (env : Env) (req : Req) (s : Sys) (m : string) (ui : Json) (au : AuthUser) :
  message (req_body (http req)) = Some m ->
  m <> "" ->
  chat_limit_check env (chatId (req_body (http req))) s = (Done ui, s) ->
  req_user req = Some au ->
  (force_of req = true \/ containsSpecificEntityNames env m = true ->
     (forall u,
        db_fault env ChatRagUser = NoFault ->
        users (world s) !! id au = Some u ->
        (is_admin u = false -> can_use_rag u <> Some true ->
         chat_handler env req s
         = (Sent {| status := 403;
                    body := error_body "Accès RAG désactivé pour votre compte" |},
            s))
        /\ (is_admin u = true \/ can_use_rag u = Some true ->
            rag_permission_check env req (force_of req) m s = (Done tt, s)))
     /\ ((db_fault env ChatRagUser = NoFault
          /\ users (world s) !! id au = None)
         \/ (exists e, db_fault env ChatRagUser = ReturnsError e) ->
         rag_permission_check env req (force_of req) m s = (Done tt, s)))
  /\ (force_of req = false -> containsSpecificEntityNames env m = false ->
      rag_permission_check env req (force_of req) m s = (Done tt, s)).
Proof.
  intros Hm Hne Hlimit Hau. split.
  - intros Htrig.
    assert (Htrig' : force_of req || containsSpecificEntityNames env m = true)
      by (destruct Htrig as [-> | ->]; [reflexivity | apply orb_true_r]).
    split.
    + intros u Hf Hu.
      pose proof (rag_permission_check_loaded env req _ m s au u
                    Htrig' Hau Hf Hu) as Hcheck.
      split.
      * intros Hadmin Hrag. rewrite Hadmin in Hcheck.
        assert (JS.truthy_bool (can_use_rag u) = false) as Hfalse.
        { destruct (JS.truthy_bool (can_use_rag u)) eqn:E; [| reflexivity].
          apply truthy_bool_true in E. contradiction. }
        rewrite Hfalse in Hcheck. cbn [negb andb] in Hcheck.
        unfold chat_handler, try_catch. cbv zeta.
        fold (conversation_of req). fold (force_of req).
        rewrite Hm, truthy_string_nonempty by assumption. cbn [negb].
        rewrite (bind_done _ _ _ _ _ Hlimit).
        rewrite (bind_done _ _ s (world s) s) by reflexivity.
        rewrite (bind_sent _ _ _ _ _ Hcheck). reflexivity.
      * intros [Hadmin | Hrag]; rewrite Hcheck.
        -- rewrite Hadmin. reflexivity.
        -- apply truthy_bool_true in Hrag. rewrite Hrag, andb_false_r.
           reflexivity.
    + intros Hno.
      unfold rag_permission_check, bind, req_user_id, query_single, users_by_id.
      rewrite Htrig', Hau. cbn [ret].
      destruct Hno as [[Hf Hnone] | [e He]].
      * rewrite Hf, Hnone. reflexivity.
      * rewrite He. reflexivity.
  - intros Hforce Hnot. unfold rag_permission_check.
    rewrite Hforce, Hnot. reflexivity.
Qed.

Lemma rag_check_gates_triggered_requests_witness :
  chat_handler Sample.env
    (authenticated (incoming Sample.hello_forced) Sample.julie)
    Sample2.start_no_rag
  = (Sent {| status := 403;
             body := error_body "Accès RAG désactivé pour votre compte" |},
     Sample2.start_no_rag).
Proof.
  destruct (rag_check_gates_triggered_requests Sample.env
              (authenticated (incoming Sample.hello_forced) Sample.julie)
              Sample2.start_no_rag "bonjour" JNull Sample.julie
              eq_refl ltac:(discriminate) eq_refl eq_refl) as [Htriggered _].
  destruct (Htriggered (or_introl eq_refl)) as [Hloaded _].
  destruct (Hloaded Sample2.no_rag_employee eq_refl eq_refl) as [Hrefused _].
  apply Hrefused; [reflexivity | discriminate].
Defined.

(** ** The advisory notices *)

Lemma uiMessage_for_cases n :
  (n < 200)%Z ->
  uiMessage_for (Some n)
  = if ((100 <=? n) && (n <? 102))%Z then suggest_new_chat n
    else if ((50 <=? n) && (n <? 52))%Z then long_chat_notice n
    else JNull.
Proof.
  intros Hn. unfold uiMessage_for, JS.ge_nullable, suggest_new_chat,
    long_chat_notice, CHAT_CONFIG.SUGGEST_NEW_CHAT_AT,
    CHAT_CONFIG.WARN_LONG_CHAT_AT.
  replace (100 + 2 <=? n)%Z with (negb (n <? 102)%Z) by lia.
  replace (50 + 2 <=? n)%Z with (negb (n <? 52)%Z) by lia.
  rewrite !negb_involutive. reflexivity.
Qed.

(** The notice an answered request carries is the one the chat length
    check computed. *)
Lemma chat_handler_notice env req s r :
  (chat_handler env req s).1 = Sent r ->
  status r = 200%Z ->
  exists ui reply ctx,
    chat_limit_check env (chatId (req_body (http req))) s = (Done ui, s)
    /\ r = {| status := 200;
              body := answer_body reply (conversation_of req) ctx ui |}.
Proof.
  unfold chat_handler, try_catch. cbv zeta.
  fold (conversation_of req). fold (force_of req).
  destruct (message (req_body (http req))) as [m |] eqn:Hm.
  2: { intros [= <-]. discriminate. }
  destruct (negb (JS.truthy_string (Some m))).
  { intros [= <-]. discriminate. }
  destruct (chat_limit_check_cases env (chatId (req_body (http req))) s)
    as [[ui H1] | [(r1 & H1 & Hr) | [e H1]]].
  2: { rewrite (bind_sent _ _ _ _ _ H1). intros [= <-]. lia. }
  2: { rewrite (bind_raised _ _ _ _ _ H1). intros [= <-]. discriminate. }
  rewrite (bind_done _ _ _ _ _ H1).
  rewrite (bind_done _ _ s (world s) s) by reflexivity.
  fold (stored (conversation_of req) s).
  destruct (rag_permission_check_cases env req (force_of req) m s)
    as [H2 | [(r2 & H2 & Hr) | [e H2]]].
  2: { rewrite (bind_sent _ _ _ _ _ H2). intros [= <-]. lia. }
  2: { rewrite (bind_raised _ _ _ _ _ H2). intros [= <-]. discriminate. }
  rewrite (bind_done _ _ _ _ _ H2).
  destruct (retrieve_context_returns env (force_of req) m s) as [ctx H3].
  rewrite (bind_done _ _ _ _ _ H3).
  destruct (sendMessage env (window (stored (conversation_of req) s))
              (enhancedMessage m ctx)) as [reply | e] eqn:H4.
  - rewrite (bind_done _ _ _ _ _ (gemini_chat_returned env _ _ _ s H4)).
    cbn [fst snd].
    rewrite (bind_done _ _ _ _ _ (remember_run _ _ _ _ _)).
    destruct (record_usage_swallows env req
                (remembered (conversation_of req)
                   (sdk_push (window (stored (conversation_of req) s))
                      [TextPart (enhancedMessage m ctx)] reply) m reply
                   (log_call (window (stored (conversation_of req) s))
                      (enhancedMessage m ctx) s)))
      as (s6 & H6 & _).
    rewrite (bind_done _ _ _ _ _ H6).
    intros [= <-] _. exists ui, reply, ctx. split; [exact H1 | reflexivity].
  - rewrite (bind_raised _ _ _ e
               (log_call (window (stored (conversation_of req) s))
                  (enhancedMessage m ctx) s))
      by (unfold gemini_chat; rewrite H4; reflexivity).
    intros [= <-]. discriminate.
Qed.

(** X2. A request of [POST /api/chat] answered 200 carries an advisory
    notice for exactly four message counts of its chat: the suggestion to
    start a new chat at 100 and 101 persisted messages, the long-chat
    information at 50 and 51.  At every other count (all below 200, since
    the request was answered), without chat id, or when the count cannot
    be read, [uiMessage] is [null]. *)
Theorem advisory_notice_thresholds
    (env : Env) (h : HttpRequest) (s : Sys) (r : Response) :
  (post_api_chat env h s).1 = Sent r ->
  status r = 200%Z ->
  exists ui reply ctx,
    body r = answer_body reply
               (conversationId_of (req_body h)) ctx ui
    /\ (chatId (req_body h) = None \/ chatId (req_body h) = Some "" ->
        ui = JNull)
    /\ ((exists e, db_fault env ChatMessages = ReturnsError e) -> ui = JNull)
    /\ (forall c,
          chatId (req_body h) = Some c ->
          c <> "" ->
          db_fault env ChatMessages = NoFault ->
          (persisted_messages c (world s) < 200)%Z
          /\ ((100 <= persisted_messages c (world s) <= 101)%Z ->
              ui = suggest_new_chat (persisted_messages c (world s)))
          /\ ((50 <= persisted_messages c (world s) <= 51)%Z ->
              ui = long_chat_notice (persisted_messages c (world s)))
          /\ ((persisted_messages c (world s) < 50
               \/ 52 <= persisted_messages c (world s) < 100
               \/ 102 <= persisted_messages c (world s))%Z ->
              ui = JNull)).
Proof.
  intros Hsent Hstatus.
  destruct (post_api_chat_cases env h s)
    as [(r' & Hr' & Hs) | (au & req & _ & _ & Hh & _ & Hrun)].
  { rewrite Hr' in Hsent. injection Hsent as <-. lia. }
  rewrite Hrun in Hsent.
  destruct (chat_handler_notice env req s r Hsent Hstatus)
    as (ui & reply & ctx & Hcheck & ->).
  unfold conversation_of in *. rewrite Hh in *.
  exists ui, reply, ctx. split; [reflexivity |].
  split; [| split].
  - intros [Hnone | Hempty].
    + rewrite Hnone in Hcheck. injection Hcheck as <-. reflexivity.
    + rewrite Hempty in Hcheck. injection Hcheck as <-. reflexivity.
  - intros [e He]. unfold chat_limit_check, bind, messages_count in Hcheck.
    destruct (chatId (req_body h)) as [c |];
      [| injection Hcheck as <-; reflexivity].
    destruct (JS.truthy_string (Some c));
      [| injection Hcheck as <-; reflexivity].
    rewrite He in Hcheck. injection Hcheck as <-. reflexivity.
  - intros c Hc Hne Hf. rewrite Hc in Hcheck.
    unfold chat_limit_check, bind, messages_count in Hcheck.
    rewrite truthy_string_nonempty, Hf in Hcheck by assumption.
    unfold JS.ge_nullable at 1, CHAT_CONFIG.MAX_MESSAGES_PER_CHAT in Hcheck.
    destruct (Z.leb_spec 200 (persisted_messages c (world s))) as [Hfull | Hlt];
      [discriminate |].
    injection Hcheck as <-. split; [exact Hlt |].
    rewrite uiMessage_for_cases by assumption.
    set (n := persisted_messages c (world s)) in *.
    split; [| split]; intros Hrange.
    + replace ((100 <=? n) && (n <? 102))%Z with true by lia. reflexivity.
    + replace ((100 <=? n) && (n <? 102))%Z with false by lia.
      replace ((50 <=? n) && (n <? 52))%Z with true by lia. reflexivity.
    + replace ((100 <=? n) && (n <? 102))%Z with false by lia.
      replace ((50 <=? n) && (n <? 52))%Z with false by lia. reflexivity.
Qed.

Lemma advisory_notice_thresholds_witness :
  exists ui reply ctx,
    answer_body "ok" (Some "c1") "" (suggest_new_chat 100)
    = answer_body reply (Some "c1") ctx ui
    /\ ui = suggest_new_chat 100.
Proof.
  assert (Hcount : persisted_messages "chat-1" (world Sample2.start_100_messages)
                   = 100%Z) by (vm_compute; reflexivity).
  destruct (advisory_notice_thresholds Sample.env Sample.hello_full_chat
              Sample2.start_100_messages
              {| status := 200;
                 body := answer_body "ok" (Some "c1") "" (suggest_new_chat 100) |}
              eq_refl eq_refl)
    as (ui & reply & ctx & Hbody & _ & _ & Hnotice).
  exists ui, reply, ctx. split; [exact Hbody |].
  destruct (Hnotice "chat-1" eq_refl ltac:(discriminate) eq_refl)
    as (_ & Hwarn & _).
  rewrite Hwarn by (rewrite Hcount; lia). rewrite Hcount. reflexivity.
Defined.

(** ** A day of requests under a quota *)

Lemma usage_rows_insert u d w :
  usage_rows u d w = [] ->
  usage_rows u d
    (insert_usage {| user_id := u; date := d; prompts_count := 1 |} w)
  = [{| user_id := u; date := d; prompts_count := 1 |}].
Proof.
  intros Hrows. unfold usage_rows, insert_usage in *.
  cbn [daily_usage with_daily_usage].
  rewrite List.filter_app, Hrows. cbn [List.filter app].
  rewrite usage_matches_refl. reflexivity.
Qed.

Lemma recorded_usage_same_table u d w w' used :
  daily_usage w' = daily_usage w ->
  recorded_usage u d w used -> recorded_usage u d w' used.
Proof.
  intros Hsame [Hrows | row Hrows];
    [apply usage_none | apply usage_one];
    unfold usage_rows in *; rewrite Hsame; assumption.
Qed.

(** One more prompt is on record after [incrementDailyUsage]. *)
Lemma incrementDailyUsage_counts env u d s used :
  db_fault env UsageSelect = NoFault ->
  db_fault env UsageUpdate = NoFault ->
  db_fault env UsageInsert = NoFault ->
  recorded_usage u d (world s) used ->
  exists s',
    incrementDailyUsage env u d s = (Done tt, s')
    /\ recorded_usage u d (world s') (used + 1)
    /\ users (world s') = users (world s).
Proof.
  intros Hsel Hupd Hins [Hrows | row Hrows].
  - eexists. split; [apply incrementDailyUsage_insert; assumption |].
    cbn [world]. split; [| reflexivity].
    apply (usage_one _ _ _ {| user_id := u; date := d; prompts_count := 1 |}).
    apply usage_rows_insert. assumption.
  - eexists. split; [apply incrementDailyUsage_update; eassumption |].
    cbn [world]. split; [| reflexivity].
    apply (usage_one _ _ _ {| user_id := user_id row; date := date row;
                              prompts_count := prompts_count row + 1 |}).
    rewrite usage_rows_update, Hrows. reflexivity.
Qed.

Section QuotaDay.
Variables (env : Env) (h : HttpRequest) (au : AuthUser) (u : UserRow)
          (limit : Z) (m : string).
Hypothesis authenticates : forall s,
  authenticateUser env (incoming h) s
  = (Done (authenticated (incoming h) au), s).
Hypothesis database_works : forall site, db_fault env site = NoFault.
Hypothesis model_answers : forall hist prompt,
  exists reply, sendMessage env hist prompt = Returned reply.
Hypothesis has_message : message (req_body h) = Some m.
Hypothesis message_not_empty : m <> "".
Hypothesis no_chat_id : chatId (req_body h) = None.
Hypothesis not_forced : JS.nullish (forceRAG (req_body h)) false = false.
Hypothesis no_entity : containsSpecificEntityNames env m = false.
Hypothesis user_id_not_empty : id au <> "".
Hypothesis date_not_empty : today env <> "".
Hypothesis not_admin : is_admin u = false.
Hypothesis has_quota : daily_message_quota u = Some limit.

Lemma quota_day_denied used s :
  on_record env au u used s -> (limit <= used)%Z ->
  post_api_chat env h s = (Sent (quota_denied limit used), s).
Proof.
  intros [Hu Hused] Hle. unfold post_api_chat.
  rewrite (bind_done _ _ _ _ _ (authenticates s)).
  pose proof (checkDailyQuota_limited env (authenticated (incoming h) au) s
                au u limit used eq_refl (database_works _) (database_works _)
                Hu not_admin has_quota Hused) as Hq.
  destruct (Z.leb_spec limit used); [| lia].
  rewrite (bind_sent _ _ _ _ _ Hq). reflexivity.
Qed.

Lemma quota_day_allowed used s :
  on_record env au u used s -> (used < limit)%Z ->
  exists r s',
    post_api_chat env h s = (Sent r, s')
    /\ status r = 200%Z
    /\ on_record env au u (used + 1) s'.
Proof.
  intros [Hu Hused] Hlt. unfold post_api_chat.
  rewrite (bind_done _ _ _ _ _ (authenticates s)).
  pose proof (checkDailyQuota_limited env (authenticated (incoming h) au) s
                au u limit used eq_refl (database_works _) (database_works _)
                Hu not_admin has_quota Hused) as Hq.
  destruct (Z.leb_spec limit used); [lia |].
  rewrite (bind_done _ _ _ _ _ Hq).
  set (req := attach_usage (authenticated (incoming h) au) (id au) used
                (today env)).
  destruct (model_answers (window (stored (conversation_of req) s))
              (enhancedMessage m "")) as [reply Hreply].
  destruct (chat_handler_answers env req s m JNull "" reply) as (s' & Husage & ->).
  - exact has_message.
  - exact message_not_empty.
  - cbn. rewrite no_chat_id. reflexivity.
  - unfold rag_permission_check, force_of. cbn [http req attach_usage authenticated incoming].
    rewrite not_forced, no_entity. reflexivity.
  - unfold retrieve_context, needsContext, force_of.
    cbn [http req attach_usage authenticated incoming].
    rewrite not_forced, no_entity. reflexivity.
  - exact Hreply.
  - eexists _, s'. split; [reflexivity |]. split; [reflexivity |].
    unfold record_usage in Husage.
    cbn [userDbId usageDate req attach_usage] in Husage.
    rewrite !truthy_string_nonempty in Husage by assumption.
    cbn [andb] in Husage.
    match type of Husage with
    | incrementDailyUsage _ _ _ ?s1 = _ =>
        destruct (incrementDailyUsage_counts env (id au) (today env) s1 used
                    (database_works _) (database_works _) (database_works _))
          as (s2 & Hinc & Hrec & Husers);
        [apply (recorded_usage_same_table _ _ (world s)); [reflexivity | exact Hused] |]
    end.
    rewrite Hinc in Husage. injection Husage as <-.
    split; [rewrite Husers; exact Hu | exact Hrec].
Qed.

Lemma quota_day_serve n : forall used s,
  on_record env au u used s ->
  map status_of (serve (repeat (env, h) n) s).1
  = repeat (Some 200%Z) (Nat.min n (Z.to_nat (limit - used)))
    ++ repeat (Some 429%Z) (n - Z.to_nat (limit - used))
  /\ on_record env au u (used + Z.of_nat (Nat.min n (Z.to_nat (limit - used))))
       (serve (repeat (env, h) n) s).2.
Proof.
  induction n as [| n IH]; intros used s Hrec.
  - cbn. rewrite Z.add_0_r. auto.
  - cbn [repeat serve].
    destruct (Z.lt_ge_cases used limit) as [Hlt | Hge].
    + destruct (quota_day_allowed used s Hrec Hlt) as (r & s' & Hrun & Hr & Hrec').
      rewrite Hrun. specialize (IH (used + 1)%Z s' Hrec').
      destruct (serve (repeat (env, h) n) s') as [os s2]. cbn [fst snd] in *.
      destruct IH as [IHo IHs]. cbn [map status_of]. rewrite Hr, IHo.
      replace (Z.to_nat (limit - used)) with (S (Z.to_nat (limit - (used + 1))))
        by lia.
      cbn [Nat.min repeat app Nat.sub]. split; [reflexivity |].
      replace (used + Z.of_nat (S (Nat.min n (Z.to_nat (limit - (used + 1))))))%Z
        with (used + 1 + Z.of_nat (Nat.min n (Z.to_nat (limit - (used + 1)))))%Z
        by lia.
      exact IHs.
    + rewrite (quota_day_denied used s Hrec Hge).
      specialize (IH used s Hrec).
      destruct (serve (repeat (env, h) n) s) as [os s2]. cbn [fst snd] in *.
      destruct IH as [IHo IHs]. cbn [map status_of quota_denied status].
      rewrite IHo.
      replace (Z.to_nat (limit - used)) with 0%nat in * by lia.
      rewrite !Nat.min_0_r in *. cbn [repeat app] in *.
      rewrite !Nat.sub_0_r. split; [reflexivity | exact IHs].
Qed.

End QuotaDay.

(** X3. A user who is not an administrator and has a daily quota [limit],
    with [used] prompts on record for today, sends the same plain request
    [n] times while every service works: the first [limit - used] requests
    are answered 200, every later one 429, and the count on record ends at
    [used] plus the number of answered requests. *)
Theorem quota_admits_exactly_the_remaining_requests
    (env : Env) (h : HttpRequest) (au : AuthUser) (u : UserRow)
    (limit used : Z) (m : string) (n : nat) (s : Sys) :
  (forall s, authenticateUser env (incoming h) s
             = (Done (authenticated (incoming h) au), s)) ->
  (forall site, db_fault env site = NoFault) ->
  (forall hist prompt, exists reply, sendMessage env hist prompt = Returned reply) ->
  message (req_body h) = Some m ->
  m <> "" ->
  chatId (req_body h) = None ->
  JS.nullish (forceRAG (req_body h)) false = false ->
  containsSpecificEntityNames env m = false ->
  id au <> "" ->
  today env <> "" ->
  users (world s) !! id au = Some u ->
  is_admin u = false ->
  daily_message_quota u = Some limit ->
  recorded_usage (id au) (today env) (world s) used ->
  map status_of (serve (repeat (env, h) n) s).1
  = repeat (Some 200%Z) (Nat.min n (Z.to_nat (limit - used)))
    ++ repeat (Some 429%Z) (n - Z.to_nat (limit - used))
  /\ recorded_usage (id au) (today env)
       (world (serve (repeat (env, h) n) s).2)
       (used + Z.of_nat (Nat.min n (Z.to_nat (limit - used)))).
Proof.
  intros Hauth Hdb Hmodel Hm Hne Hchat Hforce Hentity Hid Hdate Hu Hadmin Hq Hused.
  destruct (quota_day_serve env h au u limit m Hauth Hdb Hmodel Hm Hne Hchat
              Hforce Hentity Hid Hdate Hadmin Hq n used s (conj Hu Hused))
    as [Hout [_ Hrec]].
  auto.
Qed.

Lemma quota_admits_exactly_the_remaining_requests_witness :
  map status_of
    (serve (repeat (Sample.env, Sample.hello) 5) Sample2.start_no_rag).1
  = [Some 200; Some 200; Some 200; Some 429; Some 429]%Z.
Proof.
  apply (quota_admits_exactly_the_remaining_requests Sample.env Sample.hello
           Sample.julie Sample2.no_rag_employee 3 0 "bonjour" 5
           Sample2.start_no_rag).
  - intros s. reflexivity.
  - intros site. reflexivity.
  - intros hist prompt. exists "ok". reflexivity.
  - reflexivity.
  - discriminate.
  - reflexivity.
  - reflexivity.
  - reflexivity.
  - discriminate.
  - discriminate.
  - reflexivity.
  - reflexivity.
  - reflexivity.
  - apply usage_none. reflexivity.
Defined.

(** ** What a chat request leaves alone *)

Lemma chat_run_frame env req s o s' :
  chat_run env req s o s' ->
  users (world s') = users (world s)
  /\ organizations (world s') = organizations (world s)
  /\ messages (world s') = messages (world s)
  /\ (forall c, c <> conversation_of req ->
        conversations (world s') !! c = conversations (world s) !! c)
  /\ (forall r, o = Sent r -> status r <> 200%Z ->
        conversations (world s') = conversations (world s)
        /\ daily_usage (world s') = daily_usage (world s)).
Proof.
  intros Hrun. chat_run_cases Hrun.
  - repeat split; reflexivity.
  - repeat split; reflexivity.
  - apply record_usage_frame in Husage as (_ & Hconv & Husers & Horgs & Hmsgs).
    rewrite Hconv, Husers, Horgs, Hmsgs.
    cbn [remembered log_call world conversations users organizations messages
           with_conversations].
    repeat split.
    + intros c Hc. apply lookup_insert_ne. congruence.
    + injection H as <-. contradiction.
    + injection H as <-. contradiction.
Qed.

(** X4. A request of [POST /api/chat] never writes the users, the
    organizations or the messages; it leaves every conversation but the
    one it names as it was; and unless it is answered 200 it leaves all
    conversations and the usage table as they were. *)
Theorem chat_request_touches_only_its_conversation
    (env : Env) (h : HttpRequest) (s : Sys) :
  users (world (post_api_chat env h s).2) = users (world s)
  /\ organizations (world (post_api_chat env h s).2) = organizations (world s)
  /\ messages (world (post_api_chat env h s).2) = messages (world s)
  /\ (forall c,
        c <> conversationId_of (req_body h) ->
        conversations (world (post_api_chat env h s).2) !! c
        = conversations (world s) !! c)
  /\ (forall r,
        (post_api_chat env h s).1 = Sent r -> status r <> 200%Z ->
        conversations (world (post_api_chat env h s).2) = conversations (world s)
        /\ daily_usage (world (post_api_chat env h s).2) = daily_usage (world s)).
Proof.
  destruct (post_api_chat_run env h s) as [(r & -> & _) | (req & <- & Hrun)].
  - repeat split; reflexivity.
  - apply chat_run_frame in Hrun. exact Hrun.
Qed.

(** ** What an answered request stores *)

Lemma chat_run_answered env req s r s' :
  chat_run env req s (Sent r) s' ->
  status r = 200%Z ->
  exists m ctx reply ui,
    message (req_body (http req)) = Some m
    /\ retrieve_context env (force_of req) m s = (Done ctx, s)
    /\ r = {| status := 200;
              body := answer_body reply (conversation_of req) ctx ui |}
    /\ sendMessage env (window (stored (conversation_of req) s))
         (enhancedMessage m ctx) = Returned reply
    /\ model_calls s'
       = model_calls s
         ++ [(window (stored (conversation_of req) s), enhancedMessage m ctx)]
    /\ conversations (world s') !! conversation_of req
       = Some (window (stored (conversation_of req) s)
               ++ [text_turn user (enhancedMessage m ctx);
                   text_turn model reply;
                   text_turn user m; text_turn model reply]).
Proof.
  intros Hrun Hstatus.
  inversion Hrun as [r0 Hr | m ctx e Hm Hctx Hsend | m ctx reply ui s2 Hm Hctx Hsend Husage];
    subst.
  - contradiction.
  - discriminate.
  - apply record_usage_frame in Husage as (Hcalls & Hconv & _).
    exists m, ctx, reply, ui. rewrite Hcalls, Hconv.
    cbn [remembered log_call world conversations model_calls with_conversations].
    rewrite lookup_insert_eq. unfold sdk_push. rewrite <- app_assoc.
    auto 10.
Qed.

(** X5. A request answered 200 sends the model the window of the stored
    history and a prompt built from the message and the retrieved context.
    What it stores afterwards is that window followed by four turns: the
    prompt as it was sent, with the documentary context when there is one,
    and the reply, which the SDK's chat session pushes onto the array it
    was given; then the message as the user wrote it and the reply again,
    which the handler pushes.  The response carries the reply and the
    conversation id as the request has it, ['default'] for a body without
    one and [null] for [null]; [hasContext] tells whether the context was
    non-empty. *)
Theorem answered_request_stores_message_and_reply
    (env : Env) (h : HttpRequest) (s : Sys) (r : Response) :
  (post_api_chat env h s).1 = Sent r ->
  status r = 200%Z ->
  exists m ctx reply ui,
    message (req_body h) = Some m
    /\ body r = JObj [("response", JStr reply);
                      ("conversationId",
                       match conversationId (req_body h) with
                       | Absent => JStr "default"
                       | Null => JNull
                       | Value id => JStr id
                       end);
                      ("hasContext", JBool (negb (String.eqb ctx "")));
                      ("uiMessage", ui)]
    /\ model_calls (post_api_chat env h s).2
       = model_calls s
         ++ [(window (stored (conversationId_of (req_body h)) s),
              enhancedMessage m ctx)]
    /\ conversations (world (post_api_chat env h s).2)
         !! conversationId_of (req_body h)
       = Some (window (stored (conversationId_of (req_body h)) s)
               ++ [text_turn user (enhancedMessage m ctx);
                   text_turn model reply;
                   text_turn user m; text_turn model reply]).
Proof.
  intros Hsent Hstatus.
  destruct (post_api_chat_run env h s) as [(r' & Hrun & Hr') | (req & <- & Hrun)].
  - rewrite Hrun in Hsent. injection Hsent as <-. contradiction.
  - rewrite Hsent in Hrun.
    destruct (chat_run_answered env req s r _ Hrun Hstatus)
      as (m & ctx & reply & ui & Hm & _ & -> & _ & Hcalls & Hconv).
    exists m, ctx, reply, ui.
    split; [exact Hm |]. split; [| split; [exact Hcalls | exact Hconv]].
    cbn [body answer_body]. unfold conversation_of, conversationId_of.
    destruct (conversationId (req_body (http req))); reflexivity.
Qed.

Lemma answered_request_stores_message_and_reply_witness :
  exists ctx,
    ctx <> ""
    /\ conversations
         (world (post_api_chat Sample2.env_with_match Sample.hello_forced
                   Sample.start).2) !! Some "c1"
       = Some [text_turn user (enhancedMessage "bonjour" ctx);
               text_turn model "ok";
               text_turn user "bonjour"; text_turn model "ok"].
Proof.
  destruct (answered_request_stores_message_and_reply Sample2.env_with_match
              Sample.hello_forced Sample.start
              {| status := 200;
                 body := answer_body "ok" (Some "c1")
                           ("[Source: bilan.pdf]" ++ JS.LF ++ "CA 2024")
                           JNull |}
              eq_refl eq_refl)
    as (m & ctx & reply & ui & Hm & Hbody & _ & Hstored).
  injection Hm as <-. injection Hbody as <- Hctx _.
  exists ctx. split; [| exact Hstored].
  intros ->. discriminate.
Defined.

(** * The other routes on the conversation memory *)

(** ** Preparing the file *)

Lemma parseDOCX_cases fenv b s :
  (exists t, parseDOCX fenv b s = (Done t, s))
  \/ parseDOCX fenv b s = (Raised "Impossible de lire le DOCX", s).
Proof.
  unfold parseDOCX, try_catch, lift_try.
  destruct (extractRawText fenv b); [left; eauto | right; reflexivity].
Qed.

Lemma parseXLSX_cases fenv b s :
  (exists t, parseXLSX fenv b s = (Done t, s))
  \/ parseXLSX fenv b s = (Raised "Impossible de lire le fichier Excel", s).
Proof.
  unfold parseXLSX, try_catch, bind, lift_try.
  destruct (read_sheets fenv b); [left; eauto | right; reflexivity].
Qed.

Lemma prepareGeminiFileContent_cases fenv file s :
  (exists part, prepareGeminiFileContent fenv file s = (Done part, s))
  \/ (exists e, prepareGeminiFileContent fenv file s = (Raised e, s)).
Proof.
  unfold prepareGeminiFileContent. cbv zeta.
  destruct (String.prefix "image/" _); [left; eexists; reflexivity |].
  destruct (String.eqb _ "application/pdf"); [left; eexists; reflexivity |].
  destruct (String.eqb _ DOCX_MIME).
  { destruct (parseDOCX_cases fenv (buffer file) s) as [[t Ht] | Ht].
    - left. rewrite (bind_done _ _ _ _ _ Ht). eexists. reflexivity.
    - right. rewrite (bind_raised _ _ _ _ _ Ht). eexists. reflexivity. }
  destruct (_ || _).
  { destruct (parseXLSX_cases fenv (buffer file) s) as [[t Ht] | Ht].
    - left. rewrite (bind_done _ _ _ _ _ Ht). eexists. reflexivity.
    - right. rewrite (bind_raised _ _ _ _ _ Ht). eexists. reflexivity. }
  destruct (String.eqb _ "application/json").
  { left. destruct (json_pretty fenv _); eexists; reflexivity. }
  destruct (_ || _); [left | right]; eexists; reflexivity.
Qed.

Lemma prepareGeminiFileContent_unsupported fenv file s :
  supported_mime (mimetype file) = false ->
  prepareGeminiFileContent fenv file s
  = (Raised ("Type de fichier non supporté: " ++ mimetype file)%string, s).
Proof.
  unfold supported_mime, prepareGeminiFileContent. cbv zeta.
  intros H. repeat (apply orb_false_elim in H as [H ?]).
  assert (String.eqb (mimetype file) "text/xml" = false) as Hxml.
  { apply String.eqb_neq. intros E.
    destruct (mimetype file); [discriminate |]. rewrite E in *. discriminate. }
  assert (String.eqb (mimetype file) "text/markdown" = false) as Hmd.
  { apply String.eqb_neq. intros E.
    destruct (mimetype file); [discriminate |]. rewrite E in *. discriminate. }
  repeat match goal with E : _ = false |- _ => rewrite E; clear E end.
  reflexivity.
Qed.

Lemma prepareGeminiFileContent_supported fenv file s :
  supported_mime (mimetype file) = true ->
  (forall e, extractRawText fenv (buffer file) <> Thrown e) ->
  (forall e, read_sheets fenv (buffer file) <> Thrown e) ->
  exists part, prepareGeminiFileContent fenv file s = (Done part, s).
Proof.
  intros Hsup Hdocx Hxlsx.
  unfold prepareGeminiFileContent, parseDOCX, parseXLSX, try_catch, bind,
    lift_try. cbv zeta.
  destruct (String.prefix "image/" _) eqn:E1; [eexists; reflexivity |].
  destruct (String.eqb _ "application/pdf") eqn:E2; [eexists; reflexivity |].
  destruct (String.eqb _ DOCX_MIME) eqn:E3.
  { destruct (extractRawText fenv (buffer file)) as [t | e] eqn:E;
      [eexists; reflexivity | destruct (Hdocx e eq_refl)]. }
  destruct (String.eqb _ XLSX_MIME) eqn:E4.
  { destruct (read_sheets fenv (buffer file)) as [t | e] eqn:E;
      [eexists; reflexivity | destruct (Hxlsx e eq_refl)]. }
  destruct (String.eqb _ "application/vnd.ms-excel") eqn:E5.
  { destruct (read_sheets fenv (buffer file)) as [t | e] eqn:E;
      [eexists; reflexivity | destruct (Hxlsx e eq_refl)]. }
  cbn [orb].
  destruct (String.eqb _ "application/json") eqn:E6.
  { destruct (json_pretty fenv _); eexists; reflexivity. }
  destruct (String.prefix "text/" _) eqn:E7; [eexists; reflexivity |].
  destruct (String.eqb _ "application/xml") eqn:E8; [eexists; reflexivity |].
  unfold supported_mime in Hsup.
  rewrite E1, E2, E3, E4, E5, E6, E7, E8 in Hsup. discriminate.
Qed.

(** ** The handler of the file route *)

Lemma file_limit_check_cases f (c : option string) s :
  let check : M unit :=
    match c with
    | Some c =>
        if JS.truthy_string (Some c) then
          messageCount <- messages_count_under f c ;;
          if JS.ge_nullable messageCount CHAT_CONFIG.MAX_MESSAGES_PER_CHAT
          then respond 400
                 (JObj [("error", JStr "chat_limit_reached");
                        ("message", JStr "Ce chat a atteint la limite de 200 messages.");
                        ("messageCount",
                         match messageCount with
                         | Some n => JNum n
                         | None => JNull
                         end)])
          else ret tt
        else ret tt
    | None => ret tt
    end in
  check s = (Done tt, s)
  \/ (exists r, check s = (Sent r, s) /\ status r = 400%Z)
  \/ (exists e, check s = (Raised e, s)).
Proof.
  cbv zeta. unfold bind, messages_count_under, respond, ret.
  destruct c as [c |]; [| auto].
  destruct (JS.truthy_string (Some c)); [| auto].
  destruct f; [| auto | eauto].
  destruct (JS.ge_nullable _ _); eauto 6.
Qed.

(** The two ways the file route ends: refused with nothing changed, or
    answered with the exchange stored. *)
Lemma chat_with_file_cases fenv r s :
  (exists resp, chat_with_file_handler fenv r s = (Sent resp, s)
                /\ status resp <> 200%Z)
  \/ (exists m file part reply,
        file_message r = Some m
        /\ file_upload r = Some file
        /\ prepareGeminiFileContent fenv file s = (Done part, s)
        /\ sendParts fenv (window (stored (file_cid r) s))
             (part :: (if JS.truthy_string (Some (trim fenv m))
                       then [TextPart m] else []))
           = Returned reply
        /\ chat_with_file_handler fenv r s
           = (Sent {| status := 200;
                      body := JObj [("response", JStr reply);
                                    ("conversationId",
                                     json_of_string (file_cid r));
                                    ("fileName", JStr (originalname file));
                                    ("uiMessage", JNull)] |},
              remembered (file_cid r)
                (sdk_push (window (stored (file_cid r) s))
                   (part :: (if JS.truthy_string (Some (trim fenv m))
                             then [TextPart m] else []))
                   reply)
                ("[Fichier: " ++ originalname file ++ "] " ++ m) reply s)).
Proof.
  unfold chat_with_file_handler, try_catch. cbv zeta. fold (file_cid r).
  destruct (file_message r) as [m |]; [| left; eexists; split; [reflexivity | discriminate]].
  destruct (file_upload r) as [file |]; [| left; eexists; split; [reflexivity | discriminate]].
  destruct (negb (JS.truthy_string (Some m)));
    [left; eexists; split; [reflexivity | discriminate] |].
  destruct (file_limit_check_cases (file_messages_fault fenv) (file_chatId r) s)
    as [H1 | [(resp & H1 & Hr) | [e H1]]]; cbv zeta in H1.
  2: { left. rewrite (bind_sent _ _ _ _ _ H1). eexists. split; [reflexivity | lia]. }
  2: { left. rewrite (bind_raised _ _ _ _ _ H1). eexists. split; [reflexivity | discriminate]. }
  rewrite (bind_done _ _ _ _ _ H1).
  rewrite (bind_done _ _ s (world s) s) by reflexivity.
  fold (stored (file_cid r) s).
  destruct (prepareGeminiFileContent_cases fenv file s) as [[part H2] | [e H2]].
  2: { left. rewrite (bind_raised _ _ _ _ _ H2). eexists. split; [reflexivity | discriminate]. }
  rewrite (bind_done _ _ _ _ _ H2).
  destruct (sendParts fenv (window (stored (file_cid r) s))
              (part :: (if JS.truthy_string (Some (trim fenv m))
                        then [TextPart m] else []))) as [reply | e] eqn:H3.
  - right. exists m, file, part, reply.
    rewrite (bind_done _ _ _ reply s) by reflexivity.
    rewrite (bind_done _ _ _ _ _ (remember_run _ _ _ _ _)).
    auto 6.
  - left. rewrite (bind_raised _ _ _ e s) by reflexivity.
    eexists. split; [reflexivity | discriminate].
Qed.

(** X6. [POST /api/chat-with-file] accepts a file exactly by its MIME type:
    with a type outside image/*, PDF, DOCX, XLSX/XLS, JSON, text/* and
    application/xml the request is answered 500 with the type named in the
    details and nothing changes; with a type among them, the parsers and
    the model working, it is answered 200 with the name of the file. *)
Theorem file_route_accepts_by_mime_type
    (fenv : FileEnv) (r : FileRequest) (s : Sys) (m : string)
    (file : UploadedFile) :
  file_message r = Some m ->
  m <> "" ->
  file_upload r = Some file ->
  file_chatId r = None ->
  (supported_mime (mimetype file) = false ->
   chat_with_file_handler fenv r s
   = (Sent {| status := 500;
              body := JObj [("error", JStr "Erreur traitement fichier");
                            ("details",
                             JStr ("Type de fichier non supporté: "
                                   ++ mimetype file))] |}, s))
  /\ (supported_mime (mimetype file) = true ->
      (forall e, extractRawText fenv (buffer file) <> Thrown e) ->
      (forall e, read_sheets fenv (buffer file) <> Thrown e) ->
      (forall hist parts, exists reply, sendParts fenv hist parts = Returned reply) ->
      exists reply s',
        chat_with_file_handler fenv r s
        = (Sent {| status := 200;
                   body := JObj [("response", JStr reply);
                                 ("conversationId",
                                  JStr (JS.nullish (file_conversationId r)
                                          "default"));
                                 ("fileName", JStr (originalname file));
                                 ("uiMessage", JNull)] |}, s')).
Proof.
  intros Hm Hne Hfile Hchat.
  assert (Hstart :
    chat_with_file_handler fenv r s
    = try_catch
        (fileContent <- prepareGeminiFileContent fenv file ;;
         let messageParts :=
           fileContent
           :: (if JS.truthy_string (Some (trim fenv m))
               then [TextPart m] else []) in
         reply <- lift_try (sendParts fenv (window (stored (file_cid r) s))
                              messageParts) ;;
         _ <- remember (file_cid r)
                (sdk_push (window (stored (file_cid r) s)) messageParts reply)
                ("[Fichier: " ++ originalname file ++ "] " ++ m) reply ;;
         respond 200
           (JObj [("response", JStr reply);
                  ("conversationId", json_of_string (file_cid r));
                  ("fileName", JStr (originalname file));
                  ("uiMessage", JNull)]))
        (fun e =>
           respond 500 (JObj [("error", JStr "Erreur traitement fichier");
                              ("details", JStr e)])) s).
  { unfold chat_with_file_handler, try_catch. cbv zeta.
    fold (file_cid r).
    rewrite Hm, Hfile, Hchat, truthy_string_nonempty by assumption.
    cbn [negb].
    rewrite (bind_done _ _ s tt s) by reflexivity.
    rewrite (bind_done _ _ s (world s) s) by reflexivity.
    reflexivity. }
  rewrite Hstart. clear Hstart. unfold try_catch. split.
  - intros Hno.
    rewrite (bind_raised _ _ _ _ _
               (prepareGeminiFileContent_unsupported fenv file s Hno)).
    reflexivity.
  - intros Hyes Hdocx Hxlsx Hmodel.
    destruct (prepareGeminiFileContent_supported fenv file s Hyes Hdocx Hxlsx)
      as [part Hpart].
    rewrite (bind_done _ _ _ _ _ Hpart). cbv zeta.
    destruct (Hmodel (window (stored (file_cid r) s))
                (part :: (if JS.truthy_string (Some (trim fenv m))
                          then [TextPart m] else []))) as [reply Hreply].
    rewrite (bind_done _ _ _ reply s) by (unfold lift_try; rewrite Hreply; reflexivity).
    rewrite (bind_done _ _ _ _ _ (remember_run _ _ _ _ _)).
    eexists _, _. reflexivity.
Qed.

Lemma file_route_accepts_by_mime_type_witness :
  chat_with_file_handler Sample2.fenv (Sample2.file_request Sample2.archive)
    Sample.start
  = (Sent {| status := 500;
             body := JObj [("error", JStr "Erreur traitement fichier");
                           ("details",
                            JStr "Type de fichier non supporté: application/zip")] |},
     Sample.start).
Proof.
  destruct (file_route_accepts_by_mime_type Sample2.fenv
              (Sample2.file_request Sample2.archive) Sample.start
              "que vois-tu ?" Sample2.archive
              eq_refl ltac:(discriminate) eq_refl eq_refl) as [Hrefused _].
  apply Hrefused. reflexivity.
Defined.

(** X7. [POST /api/chat-with-file] runs without authentication and without
    quota: whatever the request, it leaves the users, the organizations,
    the messages and the usage table as they were, changes no conversation
    but the one it names, and changes nothing at all unless it answers
    200. *)
Theorem file_route_touches_only_its_conversation
    (fenv : FileEnv) (r : FileRequest) (s : Sys) :
  users (world (chat_with_file_handler fenv r s).2) = users (world s)
  /\ organizations (world (chat_with_file_handler fenv r s).2)
     = organizations (world s)
  /\ messages (world (chat_with_file_handler fenv r s).2) = messages (world s)
  /\ daily_usage (world (chat_with_file_handler fenv r s).2)
     = daily_usage (world s)
  /\ (forall c,
        c <> Some (JS.nullish (file_conversationId r) "default") ->
        conversations (world (chat_with_file_handler fenv r s).2) !! c
        = conversations (world s) !! c)
  /\ (forall resp,
        (chat_with_file_handler fenv r s).1 = Sent resp ->
        status resp <> 200%Z ->
        (chat_with_file_handler fenv r s).2 = s).
Proof.
  destruct (chat_with_file_cases fenv r s)
    as [(resp & -> & Hresp) | (m & file & part & reply & _ & _ & _ & _ & ->)].
  - repeat split; reflexivity.
  - cbn [fst snd remembered world users organizations messages daily_usage
           conversations with_conversations].
    repeat split.
    + intros c Hc. apply lookup_insert_ne. unfold file_cid. congruence.
    + intros resp [= <-] Hstatus. contradiction.
Qed.

(** ** Clearing a conversation *)

Lemma delete_chat_run id s :
  delete_chat id s
  = (Sent {| status := 200;
             body := JObj [("message", JStr "Historique supprimé")] |},
     {| world := with_conversations
                   (delete (Some id) (conversations (world s))) (world s);
        model_calls := model_calls s |}).
Proof. reflexivity. Qed.

Lemma one_more_call {A} (l : list A) (x y : A) : l ++ [x] = l ++ [y] -> x = y.
Proof. intros H. apply app_inv_head in H. congruence. Qed.

Lemma no_more_call {A} (l : list A) (x : A) : l <> l ++ [x].
Proof.
  intros H. apply (f_equal (@length A)) in H. rewrite length_app in H.
  cbn in H. lia.
Qed.

(** X8. [DELETE /api/chat/:id] asks for no token and always answers 200; it
    forgets the history of that id and of no other, and touches nothing
    else.  The next chat request on that id hands the model an empty
    history. *)
Theorem delete_chat_forgets_one_history (id : string) (s : Sys) :
  (delete_chat id s).1
  = Sent {| status := 200;
            body := JObj [("message", JStr "Historique supprimé")] |}
  /\ stored (Some id) (delete_chat id s).2 = []
  /\ (forall c, c <> Some id ->
        conversations (world (delete_chat id s).2) !! c
        = conversations (world s) !! c)
  /\ users (world (delete_chat id s).2) = users (world s)
  /\ daily_usage (world (delete_chat id s).2) = daily_usage (world s)
  /\ messages (world (delete_chat id s).2) = messages (world s)
  /\ model_calls (delete_chat id s).2 = model_calls s
  /\ (forall env h hist prompt,
        conversationId_of (req_body h) = Some id ->
        model_calls (post_api_chat env h (delete_chat id s).2).2
        = model_calls s ++ [(hist, prompt)] ->
        hist = []).
Proof.
  rewrite delete_chat_run. cbn [fst snd]. split; [reflexivity |].
  assert (Hgone : stored (Some id)
            {| world := with_conversations
                          (delete (Some id) (conversations (world s))) (world s);
               model_calls := model_calls s |} = []).
  { unfold stored. cbn [world conversations with_conversations].
    rewrite lookup_delete_eq. reflexivity. }
  split; [exact Hgone |].
  split.
  { intros c Hc. cbn [world conversations with_conversations].
    apply lookup_delete_ne. congruence. }
  repeat (split; [reflexivity |]).
  intros env h hist prompt Hid Hcalls.
  destruct (post_api_chat_run env h
              {| world := with_conversations
                            (delete (Some id) (conversations (world s)))
                            (world s);
                 model_calls := model_calls s |})
    as [(r & Hrun & _) | (req & Hh & Hrun)].
  - rewrite Hrun in Hcalls. cbn [snd model_calls] in Hcalls.
    destruct (no_more_call _ _ Hcalls).
  - apply chat_run_calls in Hrun as [Hsame | [p Hone]].
    + rewrite Hsame in Hcalls. cbn [model_calls] in Hcalls.
      destruct (no_more_call _ _ Hcalls).
    + rewrite Hone in Hcalls. cbn [model_calls] in Hcalls.
      apply one_more_call in Hcalls. injection Hcalls as <- _.
      unfold conversation_of. rewrite Hh, Hid, Hgone. reflexivity.
Qed.

Lemma delete_chat_forgets_one_history_witness :
  stored (Some "c1")
    (delete_chat "c1"
       (post_api_chat Sample.env Sample.hello Sample.start).2).2
  = [].
Proof.
  apply (delete_chat_forgets_one_history "c1"
           (post_api_chat Sample.env Sample.hello Sample.start).2).
Defined.

(** ** The bound on the stored histories *)

Lemma histories_within_step (n : nat) (s s' : Sys) :
  (24 <= n)%nat ->
  (forall c history,
     conversations (world s') !! c = Some history ->
     conversations (world s) !! c = Some history
     \/ (length history <= 24)%nat) ->
  histories_within n s -> histories_within n s'.
Proof.
  intros Hn Hstep Hs c history Hc.
  destruct (Hstep c history Hc) as [Hold | Hshort].
  - exact (Hs c history Hold).
  - lia.
Qed.

Lemma remembered_lookup cid hist request m reply s c history :
  conversations
    (world (remembered cid (sdk_push (window hist) request reply) m reply s))
    !! c
  = Some history ->
  conversations (world s) !! c = Some history \/ (length history <= 24)%nat.
Proof.
  cbn [remembered world conversations with_conversations].
  destruct (decide (cid = c)) as [<- | Hne].
  - rewrite lookup_insert_eq. intros [= <-]. right. unfold sdk_push.
    rewrite !length_app. pose proof (window_length hist). cbn [length]. lia.
  - rewrite lookup_insert_ne by assumption. auto.
Qed.

Lemma run_call_lookup call s c history :
  conversations (world (run_call call s).2) !! c = Some history ->
  conversations (world s) !! c = Some history \/ (length history <= 24)%nat.
Proof.
  destruct call as [env h | fenv r | id]; cbn [run_call].
  - destruct (post_api_chat_run env h s) as [(r & -> & _) | (req & _ & Hrun)];
      [auto |].
    chat_run_cases Hrun; [auto | auto |].
    apply record_usage_frame in Husage as (_ & -> & _).
    apply (remembered_lookup _ _ _ m reply
             (log_call (window (stored (conversation_of req) s))
                (enhancedMessage m ctx) s)).
  - destruct (chat_with_file_cases fenv r s)
      as [(resp & -> & _) | (m & file & part & reply & _ & _ & _ & _ & ->)];
      [auto |].
    apply remembered_lookup.
  - rewrite delete_chat_run. cbn [snd world conversations with_conversations].
    destruct (decide (Some id = c)) as [<- | Hne].
    + rewrite lookup_delete_eq. discriminate.
    + rewrite lookup_delete_ne by assumption. auto.
Qed.

Lemma answered_request_fills_history env h s r :
  (post_api_chat env h s).1 = Sent r ->
  status r = 200%Z ->
  (20 <= length (stored (conversationId_of (req_body h)) s))%nat ->
  length (stored (conversationId_of (req_body h)) (post_api_chat env h s).2)
  = 24%nat.
Proof.
  intros Hsent Hstatus Hlong.
  destruct (post_api_chat_run env h s) as [(r' & Hrun & Hr') | (req & <- & Hrun)].
  - rewrite Hrun in Hsent. injection Hsent as <-. contradiction.
  - rewrite Hsent in Hrun.
    destruct (chat_run_answered env req s r _ Hrun Hstatus)
      as (m & ctx & reply & ui & _ & _ & _ & _ & _ & Hconv).
    fold (conversation_of req) in Hlong |- *.
    assert (Hafter :
      stored (conversation_of req) (post_api_chat env (http req) s).2
      = window (stored (conversation_of req) s)
        ++ [text_turn user (enhancedMessage m ctx); text_turn model reply;
            text_turn user m; text_turn model reply])
      by (unfold stored at 1; rewrite Hconv; reflexivity).
    rewrite Hafter, length_app, window_last, length_drop.
    cbn [length]. lia.
Qed.

(** X9. Over any sequence of chat requests, chat-with-file requests and
    deletions, no stored history grows beyond 24 turns: the window of 20,
    the two turns the SDK's chat session pushes and the two the handler
    pushes.  A history found after a request is the one that was there
    before or holds at most 24 turns, and if every history holds at most
    [n] turns at the start, with [n] at least 24, the same is true at the
    end.  The bound is reached: an answered chat request on a history of
    20 turns or more leaves exactly 24. *)
Theorem stored_histories_stay_bounded (calls : list Call) (n : nat) (s : Sys) :
  (24 <= n)%nat ->
  histories_within n s ->
  histories_within n (run_calls calls s).2
  /\ (forall call c history,
        conversations (world (run_call call s).2) !! c = Some history ->
        conversations (world s) !! c = Some history
        \/ (length history <= 24)%nat)
  /\ (forall env h r,
        (post_api_chat env h s).1 = Sent r ->
        status r = 200%Z ->
        (20 <= length (stored (conversationId_of (req_body h)) s))%nat ->
        length (stored (conversationId_of (req_body h))
                  (post_api_chat env h s).2) = 24%nat).
Proof.
  intros Hn Hs. split; [| split; [intros call c history; apply run_call_lookup |]].
  2: { intros env h r. apply answered_request_fills_history. }
  revert s Hs. induction calls as [| call calls IH]; intros s Hs;
    cbn [run_calls]; [exact Hs |].
  pose proof (histories_within_step n s (run_call call s).2 Hn
                (run_call_lookup call s) Hs) as Hstep.
  destruct (run_call call s) as [o s1]. cbn [snd] in Hstep.
  specialize (IH s1 Hstep).
  destruct (run_calls calls s1) as [os s2]. exact IH.
Qed.

Lemma stored_histories_stay_bounded_witness :
  exists history,
    conversations
      (world
         (run_calls
            (repeat (ChatCall Sample.env Sample.hello) 12
             ++ [FileCall Sample2.fenv (Sample2.file_request Sample2.picture)])
            Sample.start).2) !! Some "c1"
    = Some history
    /\ (length history <= 24)%nat.
Proof.
  destruct (stored_histories_stay_bounded
              (repeat (ChatCall Sample.env Sample.hello) 12
               ++ [FileCall Sample2.fenv (Sample2.file_request Sample2.picture)])
              24 Sample.start ltac:(lia))
    as [Hbound _].
  - intros c history Hc. discriminate.
  - eexists. split; [vm_compute; reflexivity |].
    apply (Hbound (Some "c1")). vm_compute. reflexivity.
Defined.

(** * Administration of permissions and organizations *)

(** ** The authentication middleware *)

(** What [authenticateUser] does, by the token of the request. *)
Lemma authenticateUser_run env req s :
  match bearer_token (http req) with
  | None =>
      authenticateUser env req s = (Sent (unauthorized "Token manquant"), s)
  | Some token =>
      match auth_getUser env token with
      | Thrown _ =>
          authenticateUser env req s
          = (Sent (unauthorized "Authentification échouée"), s)
      | Returned None =>
          authenticateUser env req s
          = (Sent (unauthorized "Token invalide"), s)
      | Returned (Some u) =>
          exists au,
            id au = identity_id u
            /\ authenticateUser env req s = (Done (authenticated req au), s)
      end
  end.
Proof.
  unfold authenticateUser, bearer_token, try_catch, bind, lift_try, respond,
    ret, raise, authenticated, unauthorized.
  destruct (authorization (http req)) as [a |]; [| reflexivity].
  destruct (String.prefix "Bearer " a) eqn:Hprefix.
  - assert (JS.truthy_string (Some a) = true) as ->.
    { destruct a; [discriminate | reflexivity]. }
    cbn [negb orb].
    destruct (auth_getUser env _) as [[u |] | e]; try reflexivity.
    eexists. split; [| reflexivity]. reflexivity.
  - rewrite orb_true_r. reflexivity.
Qed.

Lemma guarded_route_bind env g h :
  exists k : Req -> M unit,
    forall s, guarded_route env g h s
              = bind (authenticateUser env (incoming h)) k s.
Proof.
  destruct g; cbn [guarded_route].
  - exists (fun req => req <- checkDailyQuota env req ;; chat_handler env req).
    reflexivity.
  - eexists. reflexivity.
  - eexists. reflexivity.
  - eexists. reflexivity.
  - eexists. reflexivity.
  - eexists. reflexivity.
Qed.

Lemma guarded_route_refused env g h s e :
  authenticateUser env (incoming h) s = (Sent (unauthorized e), s) ->
  guarded_route env g h s = (Sent (unauthorized e), s).
Proof.
  intros Hauth. destruct (guarded_route_bind env g h) as [k ->].
  apply bind_sent. exact Hauth.
Qed.

(** X10. Every route behind [authenticateUser] (chat, own permissions,
    join, permission update, organization creation, organization
    defaults) answers 401 and changes nothing when the request carries no
    [Bearer ] header, when the authentication service does not vouch for
    the token or when it throws.  So a request that changes the state, or
    whose answer is not 401, carries a token the service vouches for. *)
Theorem unauthenticated_request_is_refused
    (env : Env) (g : Guarded) (h : HttpRequest) (s : Sys) :
  (bearer_token h = None ->
   guarded_route env g h s = (Sent (unauthorized "Token manquant"), s))
  /\ (forall token,
        bearer_token h = Some token ->
        auth_getUser env token = Returned None ->
        guarded_route env g h s = (Sent (unauthorized "Token invalide"), s))
  /\ (forall token e,
        bearer_token h = Some token ->
        auth_getUser env token = Thrown e ->
        guarded_route env g h s
        = (Sent (unauthorized "Authentification échouée"), s))
  /\ ((guarded_route env g h s).2 <> s -> valid_token env h)
  /\ (forall r,
        (guarded_route env g h s).1 = Sent r ->
        status r <> 401%Z ->
        valid_token env h).
Proof.
  pose proof (authenticateUser_run env (incoming h) s) as Hrun.
  cbn [incoming http] in Hrun.
  assert (Hnot : ~ valid_token env h ->
                 exists e, guarded_route env g h s = (Sent (unauthorized e), s)).
  { intros Hinvalid.
    destruct (bearer_token h) as [token |] eqn:Htoken.
    - destruct (auth_getUser env token) as [[u |] | e] eqn:Hget.
      + destruct Hinvalid. exists token, u. auto.
      + eexists. apply guarded_route_refused. exact Hrun.
      + eexists. apply guarded_route_refused. exact Hrun.
    - eexists. apply guarded_route_refused. exact Hrun. }
  assert (Hdec : valid_token env h \/ ~ valid_token env h).
  { unfold valid_token.
    destruct (bearer_token h) as [token |].
    - destruct (auth_getUser env token) as [[u |] | e] eqn:Hget.
      + left. eauto.
      + right. intros (t & u & [= <-] & Hu). congruence.
      + right. intros (t & u & [= <-] & Hu). congruence.
    - right. intros (t & u & Ht & _). discriminate. }
  split; [| split; [| split; [| split]]].
  - intros Hnone. rewrite Hnone in Hrun.
    apply guarded_route_refused. exact Hrun.
  - intros token Htoken Hget. rewrite Htoken, Hget in Hrun.
    apply guarded_route_refused. exact Hrun.
  - intros token e Htoken Hget. rewrite Htoken, Hget in Hrun.
    apply guarded_route_refused. exact Hrun.
  - intros Hchanged. destruct Hdec as [Hvalid | Hinvalid]; [exact Hvalid |].
    destruct (Hnot Hinvalid) as [e He]. rewrite He in Hchanged.
    destruct Hchanged. reflexivity.
  - intros r Hr Hstatus. destruct Hdec as [Hvalid | Hinvalid]; [exact Hvalid |].
    destruct (Hnot Hinvalid) as [e He]. rewrite He in Hr.
    injection Hr as <-. destruct Hstatus. reflexivity.
Qed.

(** ** The permission update *)

Lemma select_user_under_cases f uid s :
  (exists u, f = NoFault /\ users (world s) !! uid = Some u
             /\ select_single_under f (users_by_id uid) s
                = (Done {| data := Some u; error := None |}, s))
  \/ (exists e, select_single_under f (users_by_id uid) s
                = (Done {| data := None; error := Some e |}, s))
  \/ (exists e, select_single_under f (users_by_id uid) s = (Raised e, s)).
Proof.
  unfold select_single_under, users_by_id.
  destruct f as [| e | e]; [| eauto | eauto].
  destruct (users (world s) !! uid) as [u |]; cbn [single]; eauto 6.
Qed.

(** The ways the handler ends: refused with nothing changed, or the
    target's row updated. *)
Lemma patch_permissions_handler_cases pf req target b s :
  (exists r, patch_permissions_handler pf req target b s = (Sent r, s)
             /\ status r <> 200%Z)
  \/ (exists au requester victim,
        req_user req = Some au
        /\ users (world s) !! id au = Some requester
        /\ is_admin requester = true
        /\ users (world s) !! target = Some victim
        /\ is_admin victim = false
        /\ u_organization_id victim = u_organization_id requester
        /\ permissions_write pf = NoFault
        /\ patch_permissions_handler pf req target b s
           = (Sent {| status := 200; body := JObj [("success", JBool true)] |},
              {| world := with_permissions target b (world s);
                 model_calls := model_calls s |})).
Proof.
  unfold patch_permissions_handler, try_catch.
  destruct (req_user req) as [au |] eqn:Hau.
  2: { left. unfold bind, req_user_id. rewrite Hau.
       eexists. split; [reflexivity | discriminate]. }
  rewrite (bind_done _ _ s (id au) s)
    by (unfold req_user_id; rewrite Hau; reflexivity).
  destruct (select_user_under_cases (requester_select pf) (id au) s)
    as [(requester & _ & Hreq & H1) | [[e H1] | [e H1]]].
  2: { left. rewrite (bind_done _ _ _ _ _ H1).
       eexists. split; [reflexivity | discriminate]. }
  2: { left. rewrite (bind_raised _ _ _ _ _ H1).
       eexists. split; [reflexivity | discriminate]. }
  rewrite (bind_done _ _ _ _ _ H1). cbn [error data].
  destruct (is_admin requester) eqn:Hadmin; cbn [negb].
  2: { left. eexists. split; [reflexivity | discriminate]. }
  destruct (select_user_under_cases (target_select pf) target s)
    as [(victim & _ & Hvictim & H2) | [[e H2] | [e H2]]].
  2: { left. rewrite (bind_done _ _ _ _ _ H2).
       eexists. split; [reflexivity | discriminate]. }
  2: { left. rewrite (bind_raised _ _ _ _ _ H2).
       eexists. split; [reflexivity | discriminate]. }
  rewrite (bind_done _ _ _ _ _ H2). cbn [error data].
  unfold same_organization.
  destruct (bool_decide_reflect
              (u_organization_id victim = u_organization_id requester))
    as [Horg | Horg]; cbn [negb].
  2: { left. eexists. split; [reflexivity | discriminate]. }
  destruct (is_admin victim) eqn:Hvadmin.
  { left. eexists. split; [reflexivity | discriminate]. }
  unfold bind, write_under.
  destruct (permissions_write pf) as [| e | e] eqn:Hwrite.
  - right. exists au, requester, victim. auto 10.
  - left. eexists. split; [reflexivity | discriminate].
  - left. eexists. split; [reflexivity | discriminate].
Qed.

Lemma patch_user_permissions_cases env pf h target b s :
  (exists r, patch_user_permissions env pf h target b s = (Sent r, s)
             /\ status r <> 200%Z)
  \/ (exists token caller requester victim,
        bearer_token h = Some token
        /\ auth_getUser env token = Returned (Some caller)
        /\ users (world s) !! identity_id caller = Some requester
        /\ is_admin requester = true
        /\ users (world s) !! target = Some victim
        /\ is_admin victim = false
        /\ u_organization_id victim = u_organization_id requester
        /\ patch_user_permissions env pf h target b s
           = (Sent {| status := 200; body := JObj [("success", JBool true)] |},
              {| world := with_permissions target b (world s);
                 model_calls := model_calls s |})).
Proof.
  unfold patch_user_permissions.
  pose proof (authenticateUser_run env (incoming h) s) as Hrun.
  cbn [incoming http] in Hrun.
  destruct (bearer_token h) as [token |] eqn:Htoken.
  2: { left. rewrite (bind_sent _ _ _ _ _ Hrun).
       eexists. split; [reflexivity | discriminate]. }
  destruct (auth_getUser env token) as [[caller |] | e] eqn:Hget.
  2: { left. rewrite (bind_sent _ _ _ _ _ Hrun).
       eexists. split; [reflexivity | discriminate]. }
  2: { left. rewrite (bind_sent _ _ _ _ _ Hrun).
       eexists. split; [reflexivity | discriminate]. }
  destruct Hrun as (au & Hid & Hrun).
  rewrite (bind_done _ _ _ _ _ Hrun).
  destruct (patch_permissions_handler_cases pf
              (authenticated (incoming h) au) target b s)
    as [(r & -> & Hr) | (au' & requester & victim & Hau & Hreq & Hadmin
                         & Hvictim & Hvadmin & Horg & _ & ->)].
  - left. eauto.
  - right. injection Hau as <-. rewrite Hid in Hreq.
    exists token, caller, requester, victim. auto 10.
Qed.

(** X11. [PATCH /api/users/:id/permissions] changes something, or answers
    200, only when the caller's token is vouched for, the caller's row has
    role admin, the target's row exists, is not an admin's and has the
    organization of the caller (two rows without organization count as the
    same one).  In every other case the answer is not 200 and nothing
    changes. *)
Theorem permissions_patch_requires_admin_of_same_organization
    (env : Env) (pf : PatchFaults) (h : HttpRequest) (target : string)
    (b : PermissionsBody) (s : Sys) :
  (exists r, patch_user_permissions env pf h target b s = (Sent r, s)
             /\ status r <> 200%Z)
  \/ (exists token caller requester victim,
        bearer_token h = Some token
        /\ auth_getUser env token = Returned (Some caller)
        /\ users (world s) !! identity_id caller = Some requester
        /\ u_role requester = Some "admin"
        /\ users (world s) !! target = Some victim
        /\ u_role victim <> Some "admin"
        /\ u_organization_id victim = u_organization_id requester
        /\ (patch_user_permissions env pf h target b s).1
           = Sent {| status := 200; body := JObj [("success", JBool true)] |}).
Proof.
  destruct (patch_user_permissions_cases env pf h target b s)
    as [Hrefused | (token & caller & requester & victim & Htoken & Hget & Hreq
                    & Hadmin & Hvictim & Hvadmin & Horg & ->)];
    [left; exact Hrefused | right].
  exists token, caller, requester, victim.
  repeat (split; [assumption |]).
  split.
  { unfold is_admin in Hadmin. destruct (u_role requester) as [r |];
      [| discriminate].
    apply String.eqb_eq in Hadmin. congruence. }
  split; [assumption |].
  split.
  { unfold is_admin in Hvadmin. intros Hrole. rewrite Hrole in Hvadmin.
    discriminate. }
  split; [assumption | reflexivity].
Qed.

Lemma with_permissions_lookup target b w uid :
  users (with_permissions target b w) !! uid
  = if decide (target = uid)
    then permissions_update b <$> users w !! uid
    else users w !! uid.
Proof.
  unfold with_permissions. cbn [users with_users].
  destruct (decide (target = uid)) as [<- | Hne].
  - apply lookup_alter_eq.
  - apply lookup_alter_ne. assumption.
Qed.

(** X12. Whatever the request, [PATCH /api/users/:id/permissions] leaves
    every row but the target's as it was, leaves every administrator's
    row as it was, and in the target's row writes only the five
    permission columns: no role, organization, name or e-mail changes, and
    no user appears or disappears.  Conversations, usage, messages and
    organizations are not touched and the model is not called. *)
Theorem permissions_patch_writes_only_permission_columns
    (env : Env) (pf : PatchFaults) (h : HttpRequest) (target : string)
    (b : PermissionsBody) (s : Sys) :
  (forall uid, uid <> target ->
     users (world (patch_user_permissions env pf h target b s).2) !! uid
     = users (world s) !! uid)
  /\ (forall uid u,
        users (world s) !! uid = Some u ->
        u_role u = Some "admin" ->
        users (world (patch_user_permissions env pf h target b s).2) !! uid
        = Some u)
  /\ (forall uid u,
        users (world s) !! uid = Some u ->
        exists u',
          users (world (patch_user_permissions env pf h target b s).2) !! uid
          = Some u'
          /\ same_identity u u')
  /\ (forall uid,
        users (world s) !! uid = None ->
        users (world (patch_user_permissions env pf h target b s).2) !! uid
        = None)
  /\ conversations (world (patch_user_permissions env pf h target b s).2)
     = conversations (world s)
  /\ daily_usage (world (patch_user_permissions env pf h target b s).2)
     = daily_usage (world s)
  /\ messages (world (patch_user_permissions env pf h target b s).2)
     = messages (world s)
  /\ organizations (world (patch_user_permissions env pf h target b s).2)
     = organizations (world s)
  /\ model_calls (patch_user_permissions env pf h target b s).2
     = model_calls s.
Proof.
  destruct (patch_user_permissions_cases env pf h target b s)
    as [(r & -> & _) | (token & caller & requester & victim & _ & _ & _
                        & _ & Hvictim & Hvadmin & _ & ->)];
    cbn [snd world model_calls].
  - repeat split; try reflexivity.
    + intros uid u Hu _. exact Hu.
    + intros uid u Hu. exists u. split; [exact Hu | repeat split].
    + intros uid Hnone. exact Hnone.
  - split; [| split; [| split; [| split]]].
    + intros uid Hne. rewrite with_permissions_lookup.
      destruct (decide (target = uid)); [congruence | reflexivity].
    + intros uid u Hu Hrole. rewrite with_permissions_lookup.
      destruct (decide (target = uid)) as [<- | Hne]; [| exact Hu].
      rewrite Hvictim in Hu. injection Hu as <-.
      unfold is_admin in Hvadmin. rewrite Hrole in Hvadmin. discriminate.
    + intros uid u Hu. rewrite with_permissions_lookup.
      destruct (decide (target = uid)) as [<- | Hne].
      * rewrite Hu. eexists. split; [reflexivity | repeat split].
      * exists u. split; [exact Hu | repeat split].
    + intros uid Hnone. rewrite with_permissions_lookup, Hnone.
      destruct (decide (target = uid)); reflexivity.
    + repeat split.
Qed.

Lemma permissions_handler_reads env req s au u :
  req_user req = Some au ->
  db_fault env PermUser = NoFault ->
  users (world s) !! id au = Some u ->
  permissions_handler env req s
  = (Sent {| status := 200;
             body := JObj [("success", JBool true);
                           ("role", JStr (JS.string_or (u_role u) "employee"));
                           ("first_name", json_of_string (first_name u));
                           ("email", json_of_string (u_email u));
                           ("permissions",
                            permissions_json (permissions_of u))] |}, s).
Proof.
  intros Hau Hf Hu.
  unfold permissions_handler, try_catch, bind, query_single, req_user_id,
    users_by_id.
  rewrite Hau. cbn [ret]. rewrite Hf, Hu. reflexivity.
Qed.

(** X13. What [PATCH /api/users/:id/permissions] has written, the target
    reads back from [GET /api/users/me/permissions]: each flag the body
    gave as given; the quota as given, except that a quota of 0 is
    reported as 50; and for a property the body set to [null],
    [can_use_rag] true, the three document flags false and the quota
    50. *)
Theorem patched_permissions_are_reported
    (env : Env) (pf : PatchFaults) (h ht : HttpRequest) (target : string)
    (b : PermissionsBody) (s : Sys) (token : string) (who : Identity) :
  (patch_user_permissions env pf h target b s).1
  = Sent {| status := 200; body := JObj [("success", JBool true)] |} ->
  bearer_token ht = Some token ->
  auth_getUser env token = Returned (Some who) ->
  identity_id who = target ->
  db_fault env PermUser = NoFault ->
  exists role name mail p,
    get_my_permissions env ht (patch_user_permissions env pf h target b s).2
    = (Sent {| status := 200;
               body := JObj [("success", JBool true);
                             ("role", role);
                             ("first_name", name);
                             ("email", mail);
                             ("permissions", permissions_json p)] |},
       (patch_user_permissions env pf h target b s).2)
    /\ (forall v, body_can_use_rag b = Value v -> p_can_use_rag p = v)
    /\ (forall v, body_can_upload_documents b = Value v ->
                  p_can_upload_documents p = v)
    /\ (forall v, body_can_edit_documents b = Value v ->
                  p_can_edit_documents p = v)
    /\ (forall v, body_can_delete_documents b = Value v ->
                  p_can_delete_documents p = v)
    /\ (forall q, body_daily_message_quota b = Value q ->
                  p_daily_message_quota p = if (q =? 0)%Z then 50%Z else q)
    /\ (body_can_use_rag b = Null -> p_can_use_rag p = true)
    /\ (body_can_upload_documents b = Null -> p_can_upload_documents p = false)
    /\ (body_can_edit_documents b = Null -> p_can_edit_documents p = false)
    /\ (body_can_delete_documents b = Null -> p_can_delete_documents p = false)
    /\ (body_daily_message_quota b = Null -> p_daily_message_quota p = 50%Z).
Proof.
  intros Hok Htoken Hget Hid Hperm.
  destruct (patch_user_permissions_cases env pf h target b s)
    as [(r & Hr & Hstatus) | (_ & _ & _ & victim & _ & _ & _ & _ & Hvictim
                              & _ & _ & Hrun)].
  { rewrite Hr in Hok. injection Hok as ->. destruct Hstatus. reflexivity. }
  rewrite Hrun. cbn [snd]. unfold get_my_permissions.
  pose proof (authenticateUser_run env (incoming ht)
                {| world := with_permissions target b (world s);
                   model_calls := model_calls s |}) as Hauth.
  cbn [incoming http] in Hauth. rewrite Htoken, Hget in Hauth.
  destruct Hauth as (au & Hau & Hauth).
  rewrite (bind_done _ _ _ _ _ Hauth).
  rewrite (permissions_handler_reads env _ _ au (permissions_update b victim));
    [| reflexivity | assumption |].
  2: { cbn [world]. rewrite with_permissions_lookup, Hau, Hid.
       destruct (decide (target = target)); [| congruence].
       rewrite Hvictim. reflexivity. }
  eexists _, _, _, (permissions_of (permissions_update b victim)).
  split; [reflexivity |].
  cbn [permissions_of permissions_update p_can_use_rag p_can_upload_documents
         p_can_edit_documents p_can_delete_documents p_daily_message_quota
         can_use_rag can_upload_documents can_edit_documents
         can_delete_documents daily_message_quota].
  repeat split.
  - intros v ->. destruct v; reflexivity.
  - intros v ->. destruct v; reflexivity.
  - intros v ->. destruct v; reflexivity.
  - intros v ->. destruct v; reflexivity.
  - intros q ->. reflexivity.
  - intros ->. reflexivity.
  - intros ->. reflexivity.
  - intros ->. reflexivity.
  - intros ->. reflexivity.
  - intros ->. reflexivity.
Qed.

Lemma patched_permissions_are_reported_witness :
  exists role name mail p,
    get_my_permissions Sample3.env Sample3.as_employee
      (patch_user_permissions Sample3.env Sample3.no_faults Sample3.as_admin
         "u1" Sample3.quota_2 Sample3.start_org).2
    = (Sent {| status := 200;
               body := JObj [("success", JBool true);
                             ("role", role);
                             ("first_name", name);
                             ("email", mail);
                             ("permissions", permissions_json p)] |},
       (patch_user_permissions Sample3.env Sample3.no_faults Sample3.as_admin
          "u1" Sample3.quota_2 Sample3.start_org).2)
    /\ p_daily_message_quota p = 2%Z.
Proof.
  destruct (patched_permissions_are_reported Sample3.env Sample3.no_faults
              Sample3.as_admin Sample3.as_employee "u1" Sample3.quota_2
              Sample3.start_org "t1"
              {| identity_id := "u1";
                 identity_email := Some "julie@example.com" |}
              eq_refl eq_refl eq_refl eq_refl eq_refl)
    as (role & name & mail & p & Hread & _ & _ & _ & _ & Hquota & _).
  exists role, name, mail, p. split; [exact Hread |].
  apply (Hquota 2%Z). reflexivity.
Defined.

(** X14. The quota [PATCH /api/users/:id/permissions] has written is the
    one the chat route enforces on the target: with [used] prompts on
    record today, a chat request of the target is answered 429 when
    [used] has reached the quota, so always for a quota of 0, and passes
    the quota check below it; after a quota of [null] the check lets every
    request pass. *)
Theorem patched_quota_is_enforced
    (env : Env) (pf : PatchFaults) (h ht : HttpRequest) (target : string)
    (b : PermissionsBody) (s : Sys) (token : string) (who : Identity)
    (used : Z) :
  (patch_user_permissions env pf h target b s).1
  = Sent {| status := 200; body := JObj [("success", JBool true)] |} ->
  bearer_token ht = Some token ->
  auth_getUser env token = Returned (Some who) ->
  identity_id who = target ->
  db_fault env QuotaUser = NoFault ->
  db_fault env QuotaUsage = NoFault ->
  recorded_usage target (today env) (world s) used ->
  (forall q, body_daily_message_quota b = Value q ->
     (q <= used)%Z ->
     post_api_chat env ht (patch_user_permissions env pf h target b s).2
     = (Sent (quota_denied q used),
        (patch_user_permissions env pf h target b s).2))
  /\ (forall q, body_daily_message_quota b = Value q ->
        (used < q)%Z ->
        exists au,
          id au = target
          /\ checkDailyQuota env (authenticated (incoming ht) au)
               (patch_user_permissions env pf h target b s).2
             = (Done (attach_usage (authenticated (incoming ht) au) target
                        used (today env)),
                (patch_user_permissions env pf h target b s).2))
  /\ (body_daily_message_quota b = Null ->
      exists au,
        id au = target
        /\ checkDailyQuota env (authenticated (incoming ht) au)
             (patch_user_permissions env pf h target b s).2
           = (Done (authenticated (incoming ht) au),
              (patch_user_permissions env pf h target b s).2)).
Proof.
  intros Hok Htoken Hget Hid Hf1 Hf2 Hused.
  destruct (patch_user_permissions_cases env pf h target b s)
    as [(r & Hr & Hstatus) | (_ & _ & _ & victim & _ & _ & _ & _ & Hvictim
                              & Hvadmin & _ & Hrun)].
  { rewrite Hr in Hok. injection Hok as ->. destruct Hstatus. reflexivity. }
  rewrite Hrun. cbn [snd].
  set (s' := {| world := with_permissions target b (world s);
                model_calls := model_calls s |}).
  pose proof (authenticateUser_run env (incoming ht) s') as Hauth.
  cbn [incoming http] in Hauth. rewrite Htoken, Hget in Hauth.
  destruct Hauth as (au & Hau & Hauth). rewrite Hid in Hau.
  assert (Hrow : users (world s') !! id au
                 = Some (permissions_update b victim)).
  { cbn [s' world]. rewrite with_permissions_lookup, Hau.
    destruct (decide (target = target)); [| congruence].
    rewrite Hvictim. reflexivity. }
  assert (Hused' : recorded_usage (id au) (today env) (world s') used).
  { rewrite Hau. apply (recorded_usage_same_table _ _ (world s));
      [reflexivity | assumption]. }
  assert (Hlimited : forall q,
            body_daily_message_quota b = Value q ->
            checkDailyQuota env (authenticated (incoming ht) au) s'
            = if (q <=? used)%Z then (Sent (quota_denied q used), s')
              else (Done (attach_usage (authenticated (incoming ht) au)
                            (id au) used (today env)), s')).
  { intros q Hq.
    apply (checkDailyQuota_limited env _ s' au (permissions_update b victim));
      try assumption; try reflexivity.
    cbn [permissions_update daily_message_quota]. rewrite Hq. reflexivity. }
  split; [| split].
  - intros q Hq Hle. unfold post_api_chat.
    rewrite (bind_done _ _ _ _ _ Hauth).
    apply bind_sent. rewrite (Hlimited q Hq).
    destruct (Z.leb_spec q used); [reflexivity | lia].
  - intros q Hq Hlt. exists au. split; [exact Hau |].
    rewrite (Hlimited q Hq), Hau.
    destruct (Z.leb_spec q used); [lia | reflexivity].
  - intros Hnull. exists au. split; [exact Hau |].
    apply (checkDailyQuota_unlimited env _ s' au (permissions_update b victim));
      [reflexivity | assumption |].
    right. cbn [permissions_update daily_message_quota]. rewrite Hnull.
    reflexivity.
Qed.

Lemma patched_quota_is_enforced_witness :
  exists au,
    id au = "u1"
    /\ checkDailyQuota Sample3.env
         (authenticated (incoming Sample3.as_employee) au)
         (patch_user_permissions Sample3.env Sample3.no_faults
            Sample3.as_admin "u1" Sample3.quota_2 Sample3.start_org).2
       = (Done (attach_usage (authenticated (incoming Sample3.as_employee) au)
                  "u1" 0 "2025-01-15"),
          (patch_user_permissions Sample3.env Sample3.no_faults
             Sample3.as_admin "u1" Sample3.quota_2 Sample3.start_org).2).
Proof.
  destruct (patched_quota_is_enforced Sample3.env Sample3.no_faults
              Sample3.as_admin Sample3.as_employee "u1" Sample3.quota_2
              Sample3.start_org "t1"
              {| identity_id := "u1";
                 identity_email := Some "julie@example.com" |} 0
              eq_refl eq_refl eq_refl eq_refl eq_refl eq_refl
              (usage_none "u1" "2025-01-15" (world Sample3.start_org) eq_refl))
    as (_ & Hbelow & _).
  apply (Hbelow 2%Z); [reflexivity | lia].
Defined.

(** ** Creating and joining an organization *)

Lemma create_organization_handler_cases cenv req code s :
  (exists r, create_organization_handler cenv req code s = (Sent r, s)
             /\ status r <> 200%Z
             /\ (req_user req = None
                 \/ code <> Some (JS.string_or (env_ADMIN_SECRET cenv)
                                    "AIOS-ADMIN-2025")
                 \/ organization_insert cenv <> NoFault))
  \/ (create_organization_handler cenv req code s
      = (Sent {| status := 500;
                 body := error_body "can_upload_documents is not defined" |},
         {| world := with_organizations
                       (organizations (world s)
                        ++ [inserted_row cenv ("ORG-" ++ random_suffix cenv)])
                       (world s);
            model_calls := model_calls s |})).
Proof.
  unfold create_organization_handler, try_catch. cbv zeta.
  destruct (bool_decide_reflect
              (code = Some (JS.string_or (env_ADMIN_SECRET cenv)
                              "AIOS-ADMIN-2025"))) as [Hcode | Hcode];
    cbn [negb].
  2: { left. eexists. split; [reflexivity |]. split; [discriminate | auto]. }
  unfold bind, req_user_id, insert_organization.
  destruct (req_user req) as [au |]; cbn [ret raise].
  2: { left. eexists. split; [reflexivity |]. split; [discriminate | auto]. }
  destruct (organization_insert cenv) as [| e | e] eqn:Hinsert; cbn [error data].
  - right. reflexivity.
  - left. eexists. split; [reflexivity |]. split; [discriminate |].
    right. right. discriminate.
  - left. eexists. split; [reflexivity |]. split; [discriminate |].
    right. right. discriminate.
Qed.

Lemma post_organizations_create_cases env cenv h code s :
  (exists r, post_organizations_create env cenv h code s = (Sent r, s)
             /\ status r <> 200%Z
             /\ (~ valid_token env h
                 \/ code <> Some (JS.string_or (env_ADMIN_SECRET cenv)
                                    "AIOS-ADMIN-2025")
                 \/ organization_insert cenv <> NoFault))
  \/ (post_organizations_create env cenv h code s
      = (Sent {| status := 500;
                 body := error_body "can_upload_documents is not defined" |},
         {| world := with_organizations
                       (organizations (world s)
                        ++ [inserted_row cenv ("ORG-" ++ random_suffix cenv)])
                       (world s);
            model_calls := model_calls s |})).
Proof.
  unfold post_organizations_create.
  pose proof (authenticateUser_run env (incoming h) s) as Hrun.
  cbn [incoming http] in Hrun.
  destruct (bearer_token h) as [token |] eqn:Htoken.
  2: { left. rewrite (bind_sent _ _ _ _ _ Hrun). eexists.
       split; [reflexivity |]. split; [discriminate |].
       left. intros (t & u & Ht & _). congruence. }
  destruct (auth_getUser env token) as [[u |] | e] eqn:Hget.
  2, 3: left; rewrite (bind_sent _ _ _ _ _ Hrun); eexists;
        (split; [reflexivity |]); (split; [discriminate |]);
        left; intros (t & u & Ht & Hu); congruence.
  destruct Hrun as (au & _ & Hrun).
  rewrite (bind_done _ _ _ _ _ Hrun).
  destruct (create_organization_handler_cases cenv
              (authenticated (incoming h) au) code s)
    as [(r & Hr & Hstatus & [Hnone | Hwhy]) | Hr].
  - discriminate.
  - left. exists r. auto.
  - right. exact Hr.
Qed.

(** X15. [POST /api/organizations/create] never answers 200 and never
    writes the users table, so it makes no one an administrator.  With a
    vouched-for token, the right admin code and the insert working, the
    organization row is inserted and the answer is 500: building the
    update of the caller's row throws, since it names
    [can_upload_documents] without any such binding in scope. *)
Theorem organization_creation_never_completes
    (env : Env) (cenv : CreateEnv) (h : HttpRequest) (code : option string)
    (s : Sys) :
  (exists r, (post_organizations_create env cenv h code s).1 = Sent r
             /\ status r <> 200%Z)
  /\ users (world (post_organizations_create env cenv h code s).2)
     = users (world s)
  /\ (valid_token env h ->
      code = Some (JS.string_or (env_ADMIN_SECRET cenv) "AIOS-ADMIN-2025") ->
      organization_insert cenv = NoFault ->
      post_organizations_create env cenv h code s
      = (Sent {| status := 500;
                 body := error_body "can_upload_documents is not defined" |},
         {| world := with_organizations
                       (organizations (world s)
                        ++ [inserted_row cenv ("ORG-" ++ random_suffix cenv)])
                       (world s);
            model_calls := model_calls s |})).
Proof.
  destruct (post_organizations_create_cases env cenv h code s)
    as [(r & Hr & Hstatus & Hwhy) | Hr]; rewrite Hr; cbn [fst snd].
  - split; [eauto |]. split; [reflexivity |].
    intros Hvalid Hcode Hinsert. destruct Hwhy as [H | [H | H]]; contradiction.
  - split; [eexists; split; [reflexivity | discriminate] |].
    split; [reflexivity |]. intros _ _ _. reflexivity.
Qed.

Lemma join_handler_cases env req s :
  (exists r, join_handler env req s = (Sent r, s) /\ status r <> 200%Z)
  \/ (exists au code org,
        req_user req = Some au
        /\ body_org_code (req_body (http req)) = Some code
        /\ orgs_by_code (toUpperCase env code) (world s) = [org]
        /\ join_handler env req s
           = (Sent {| status := 200;
                      body := JObj [("success", JBool true);
                                    ("organization", org_json org)] |},
              {| world := with_users
                            (alter (join_update org) (id au) (users (world s)))
                            (world s);
                 model_calls := model_calls s |})).
Proof.
  unfold join_handler, try_catch, bind, query_single, req_user_id, db_write.
  destruct (body_org_code (req_body (http req))) as [code |].
  2: { left. eexists. split; [reflexivity | discriminate]. }
  destruct (db_fault env JoinOrg).
  2, 3: left; eexists; split; [reflexivity | discriminate].
  destruct (orgs_by_code (toUpperCase env code) (world s)) as [| org [| org' rest]]
    eqn:Horgs; cbn [single data error].
  1, 3: left; eexists; split; [reflexivity | discriminate].
  destruct (req_user req) as [au |]; cbn [ret raise].
  2: { left. eexists. split; [reflexivity | discriminate]. }
  destruct (db_fault env JoinUser).
  - right. exists au, code, org. auto.
  - left. eexists. split; [reflexivity | discriminate].
  - left. eexists. split; [reflexivity | discriminate].
Qed.

(** X16. [POST /api/organizations/join] writes at most the caller's row:
    every other row, the organizations, the conversations, the usage and
    the messages stay as they were, and no row is created for a caller who
    has none.  When the query works and not exactly one organization
    carries the code (upper-cased), the answer is 404 and nothing
    changes; a body without [org_code] is answered 500. *)
Theorem join_writes_only_the_callers_row
    (env : Env) (req : Req) (s : Sys) (au : AuthUser) :
  req_user req = Some au ->
  (forall uid, uid <> id au ->
     users (world (join_handler env req s).2) !! uid = users (world s) !! uid)
  /\ (users (world s) !! id au = None ->
      users (world (join_handler env req s).2) !! id au = None)
  /\ organizations (world (join_handler env req s).2) = organizations (world s)
  /\ conversations (world (join_handler env req s).2) = conversations (world s)
  /\ daily_usage (world (join_handler env req s).2) = daily_usage (world s)
  /\ messages (world (join_handler env req s).2) = messages (world s)
  /\ (forall code,
        body_org_code (req_body (http req)) = Some code ->
        db_fault env JoinOrg = NoFault ->
        (forall org, orgs_by_code (toUpperCase env code) (world s) <> [org]) ->
        join_handler env req s
        = (Sent {| status := 404;
                   body := error_body "Organisation introuvable" |}, s))
  /\ (body_org_code (req_body (http req)) = None ->
      join_handler env req s
      = (Sent {| status := 500;
                 body := error_body
                   "Cannot read properties of undefined (reading 'toUpperCase')" |},
         s)).
Proof.
  intros Hau.
  assert (Hframe :
    (forall uid, uid <> id au ->
       users (world (join_handler env req s).2) !! uid = users (world s) !! uid)
    /\ (users (world s) !! id au = None ->
        users (world (join_handler env req s).2) !! id au = None)
    /\ organizations (world (join_handler env req s).2)
       = organizations (world s)
    /\ conversations (world (join_handler env req s).2)
       = conversations (world s)
    /\ daily_usage (world (join_handler env req s).2) = daily_usage (world s)
    /\ messages (world (join_handler env req s).2) = messages (world s)).
  { destruct (join_handler_cases env req s)
      as [(r & -> & _) | (au' & code & org & Hau' & _ & _ & ->)];
      cbn [snd world users with_users organizations conversations daily_usage
             messages].
    - repeat split; auto.
    - rewrite Hau in Hau'. injection Hau' as <-.
      repeat split.
      + intros uid Hne. apply lookup_alter_ne. congruence.
      + intros Hnone. rewrite lookup_alter_eq, Hnone. reflexivity. }
  destruct Hframe as (H1 & H2 & H3 & H4 & H5 & H6).
  repeat (split; [assumption |]).
  split.
  - intros code Hcode Hfault Hnone.
    unfold join_handler, try_catch, bind, query_single.
    rewrite Hcode, Hfault.
    destruct (orgs_by_code (toUpperCase env code) (world s))
      as [| org [| org' rest]] eqn:Horgs; cbn [single data error];
      [reflexivity | | reflexivity].
    destruct (Hnone org). reflexivity.
  - intros Hcode. unfold join_handler, try_catch. rewrite Hcode. reflexivity.
Qed.

Lemma join_writes_only_the_callers_row_witness :
  join_handler Sample.env
    (authenticated (incoming Sample3.as_employee) Sample.julie)
    Sample.start_before_join
  = (Sent {| status := 500;
             body := error_body
               "Cannot read properties of undefined (reading 'toUpperCase')" |},
     Sample.start_before_join).
Proof.
  destruct (join_writes_only_the_callers_row Sample.env
              (authenticated (incoming Sample3.as_employee) Sample.julie)
              Sample.start_before_join Sample.julie eq_refl)
    as (_ & _ & _ & _ & _ & _ & _ & Hmissing).
  apply Hmissing. reflexivity.
Defined.

(** * The document routes *)

(** ** Strings *)

Lemma append_cons (c : ascii) (a t : string) :
  (String c a ++ t)%string = String c (a ++ t).
Proof. reflexivity. Qed.

Lemma append_empty (t : string) : ("" ++ t)%string = t.
Proof. reflexivity. Qed.

Lemma prefix_append (a t : string) : String.prefix a (a ++ t)%string = true.
Proof.
  induction a as [| c a IH].
  - rewrite append_empty. destruct t; reflexivity.
  - rewrite append_cons. cbn.
    destruct (ascii_dec c c); [exact IH | congruence].
Qed.

Lemma prefix_split (a s : string) :
  String.prefix a s = true -> exists t, s = (a ++ t)%string.
Proof.
  revert s. induction a as [| c a IH]; intros s H.
  - exists s. reflexivity.
  - destruct s as [| c' s]; [discriminate |]. cbn in H.
    destruct (ascii_dec c c') as [<- |]; [| discriminate].
    destruct (IH s H) as [t ->]. exists t. reflexivity.
Qed.

Lemma append_assoc (a b c : string) :
  ((a ++ b) ++ c = a ++ (b ++ c))%string.
Proof.
  induction a as [| x a IH]; [reflexivity |].
  rewrite !append_cons, IH. reflexivity.
Qed.

Lemma append_inv_head (a b c : string) :
  (a ++ b = a ++ c)%string -> b = c.
Proof.
  induction a as [| x a IH]; [auto |].
  rewrite !append_cons. intros [= H]. auto.
Qed.

Lemma substring_whole (t : string) : String.substring 0 (String.length t) t = t.
Proof. induction t as [| c t IH]; cbn; [reflexivity | rewrite IH; reflexivity]. Qed.

Lemma all_digits_append (a b : string) :
  all_digits (a ++ b) = all_digits a && all_digits b.
Proof.
  induction a as [| c a IH]; [reflexivity |].
  rewrite append_cons. cbn. rewrite IH, andb_assoc. reflexivity.
Qed.

Lemma chunk_suffix_append (t : string) :
  chunk_suffix ("-chunk-" ++ t) = negb (String.eqb t "") && all_digits t.
Proof.
  unfold chunk_suffix.
  change ("-chunk-" ++ t)%string
    with (String "-" (String "c" (String "h" (String "u" (String "n"
            (String "k" (String "-" t))))))).
  cbn. rewrite Nat.sub_0_r, substring_whole.
  destruct t; reflexivity.
Qed.

(** [chunk_suffix] against its reading: the string is [-chunk-] followed by
    digits, one at least. *)
Lemma chunk_suffix_spec (s : string) :
  chunk_suffix s = true
  <-> exists t, s = ("-chunk-" ++ t)%string /\ t <> "" /\ all_digits t = true.
Proof.
  split.
  - intros H.
    assert (Hp : String.prefix "-chunk-" s = true).
    { unfold chunk_suffix in H. apply andb_true_iff in H as [Hp _]. exact Hp. }
    destruct (prefix_split _ _ Hp) as [t ->]. exists t.
    rewrite chunk_suffix_append in H.
    apply andb_true_iff in H as [Hne Hall].
    split; [reflexivity |]. split; [| exact Hall].
    intros ->. discriminate.
  - intros (t & -> & Hne & Hall).
    rewrite chunk_suffix_append, Hall.
    destruct t; [contradiction | reflexivity].
Qed.

(** A string has one reading as a head, a dash and digits. *)
Lemma dash_digits_unique (a a' t t' : string) :
  (a ++ "-" ++ t = a' ++ "-" ++ t')%string ->
  all_digits t = true -> all_digits t' = true ->
  a = a'.
Proof.
  assert (Hdash : forall x y, all_digits (x ++ String "-" y) = false).
  { intros x y. rewrite all_digits_append. cbn. apply andb_false_r. }
  revert a'. induction a as [| c a IH]; intros [| c' a'] H Ht Ht'.
  - reflexivity.
  - rewrite !append_cons, !append_empty in H. injection H as <- H. subst t.
    rewrite Hdash in Ht. discriminate.
  - rewrite !append_cons, !append_empty in H. injection H as -> H. subst t'.
    rewrite Hdash in Ht'. discriminate.
  - rewrite (append_cons c), (append_cons c') in H.
    injection H as <- H. f_equal. eauto.
Qed.

Lemma strip_chunk_suffix_digits (id t : string) :
  t <> "" -> all_digits t = true ->
  strip_chunk_suffix (id ++ "-chunk-" ++ t) = id.
Proof.
  intros Hne Hall. induction id as [| c id IH].
  - rewrite append_empty.
    assert (chunk_suffix ("-chunk-" ++ t) = true) as Hs
      by (apply chunk_suffix_spec; eauto).
    destruct ("-chunk-" ++ t)%string; cbn [strip_chunk_suffix];
      rewrite Hs; reflexivity.
  - rewrite append_cons. cbn [strip_chunk_suffix]. rewrite IH.
    destruct (chunk_suffix (String c (id ++ "-chunk-" ++ t))) eqn:Hs;
      [| reflexivity].
    exfalso. apply chunk_suffix_spec in Hs as (t' & Heq & _ & Hall').
    assert (String c id ++ "-chunk" = "-chunk")%string as Hlen.
    { apply (dash_digits_unique _ _ t t'); [| assumption | assumption].
      rewrite !append_assoc. exact Heq. }
    apply (f_equal String.length) in Hlen.
    rewrite string_length_append in Hlen. cbn in Hlen. lia.
Qed.

(** What the listing groups under [id] is [id] itself or [id-chunk-] and
    digits. *)
Lemma strip_chunk_suffix_inv (s : string) :
  s = strip_chunk_suffix s
  \/ exists t, s = (strip_chunk_suffix s ++ "-chunk-" ++ t)%string
               /\ t <> "" /\ all_digits t = true.
Proof.
  induction s as [| c s IH].
  - left. reflexivity.
  - cbn [strip_chunk_suffix].
    destruct (chunk_suffix (String c s)) eqn:Hs.
    + right. apply chunk_suffix_spec in Hs as (t & -> & Hne & Hall).
      exists t. auto.
    + destruct IH as [IH | (t & IH & Hne & Hall)].
      * left. rewrite <- IH. reflexivity.
      * right. exists t. split; [| auto].
        rewrite append_cons, <- IH. reflexivity.
Qed.

(** ** Chunk numbers *)

Lemma uint_digits (d : Decimal.uint) :
  all_digits (NilEmpty.string_of_uint d) = true.
Proof. induction d; cbn; auto. Qed.

Lemma uint_nonempty (d : Decimal.uint) :
  d <> Decimal.Nil -> NilEmpty.string_of_uint d <> "".
Proof. destruct d; cbn; congruence. Qed.

Lemma number_to_string_pos (p : positive) :
  JS.number_to_string (Z.pos p) = NilEmpty.string_of_uint (Pos.to_uint p).
Proof.
  unfold JS.number_to_string. cbn.
  pose proof (Unsigned.to_uint_nonnil p).
  destruct (Pos.to_uint p); [contradiction | reflexivity ..].
Qed.

Lemma chunk_number_digits (i : nat) :
  JS.number_to_string (Z.of_nat i + 1) <> ""
  /\ all_digits (JS.number_to_string (Z.of_nat i + 1)) = true.
Proof.
  destruct (Z.of_nat i + 1)%Z as [| p | p] eqn:E; [lia | | lia].
  rewrite number_to_string_pos. split.
  - apply uint_nonempty, Unsigned.to_uint_nonnil.
  - apply uint_digits.
Qed.

Lemma chunk_number_inj (i j : nat) :
  JS.number_to_string (Z.of_nat i + 1) = JS.number_to_string (Z.of_nat j + 1) ->
  i = j.
Proof.
  destruct (Z.of_nat i + 1)%Z as [| p | p] eqn:Ei; [lia | | lia].
  destruct (Z.of_nat j + 1)%Z as [| q | q] eqn:Ej; [lia | | lia].
  rewrite !number_to_string_pos. intros H.
  assert (Some (Pos.to_uint p) = Some (Pos.to_uint q)) as Hu.
  { rewrite <- !NilEmpty.usu. rewrite H. reflexivity. }
  injection Hu as Hu. apply Unsigned.to_uint_inj in Hu. lia.
Qed.

Lemma chunk_id_inj (id : string) (n i j : nat) :
  (1 < n)%nat -> chunk_id id n i = chunk_id id n j -> i = j.
Proof.
  intros Hn. unfold chunk_id.
  destruct (Nat.ltb_spec 1 n) as [_ | Hle]; [| lia].
  intros Heq. apply append_inv_head, append_inv_head in Heq.
  apply chunk_number_inj. exact Heq.
Qed.

(** ** The sort of [GET /api/documents/:id] *)

Lemma insert_by_chunkIndex_perm x l : insert_by_chunkIndex x l ≡ₚ x :: l.
Proof.
  induction l as [| y l IH]; cbn; [reflexivity |].
  destruct (chunk_order y <? chunk_order x)%Z; [| reflexivity].
  rewrite IH. apply Permutation_swap.
Qed.

Lemma sort_by_chunkIndex_perm l : sort_by_chunkIndex l ≡ₚ l.
Proof.
  induction l as [| x l IH]; cbn; [reflexivity |].
  rewrite insert_by_chunkIndex_perm. fold (sort_by_chunkIndex l).
  rewrite IH. reflexivity.
Qed.

Lemma insert_by_chunkIndex_sorted x l :
  StronglySorted in_chunk_order l ->
  StronglySorted in_chunk_order (insert_by_chunkIndex x l).
Proof.
  induction 1 as [| y l Hl IH Hy]; cbn.
  - repeat constructor.
  - destruct (Z.ltb_spec (chunk_order y) (chunk_order x)) as [Hlt | Hge].
    + constructor; [exact IH |].
      rewrite insert_by_chunkIndex_perm. constructor; [| exact Hy].
      unfold in_chunk_order. lia.
    + constructor; [constructor; assumption |].
      constructor; [exact Hge |].
      eapply Forall_impl; [exact Hy |].
      unfold in_chunk_order. intros z Hz. lia.
Qed.

Lemma sort_by_chunkIndex_sorted l :
  StronglySorted in_chunk_order (sort_by_chunkIndex l).
Proof.
  induction l as [| x l IH]; cbn; [constructor |].
  apply insert_by_chunkIndex_sorted. exact IH.
Qed.

(** Matches with distinct chunk indices come out of the sort in the order
    of their indices, whatever the order they went in. *)
Lemma sort_by_chunkIndex_unique l sorted :
  l ≡ₚ sorted ->
  StronglySorted in_chunk_order sorted ->
  (forall x y, x ∈ sorted -> y ∈ sorted -> chunk_order x = chunk_order y ->
               x = y) ->
  sort_by_chunkIndex l = sorted.
Proof.
  intros Hperm Hsorted Hinj.
  apply (StronglySorted_unique_strong in_chunk_order).
  - intros x y Hx Hy Hxy Hyx. apply Hinj; [| exact Hy |].
    + rewrite <- Hperm, <- (sort_by_chunkIndex_perm l). exact Hx.
    + unfold in_chunk_order in *. lia.
  - apply sort_by_chunkIndex_sorted.
  - exact Hsorted.
  - rewrite sort_by_chunkIndex_perm. exact Hperm.
Qed.

Lemma StronglySorted_lookup {A} (R : relation A) (l : list A) :
  (forall i j x y, (i < j)%nat -> l !! i = Some x -> l !! j = Some y -> R x y) ->
  StronglySorted R l.
Proof.
  induction l as [| a l IH]; intros H; constructor.
  - apply IH. intros i j x y Hij Hx Hy. apply (H (S i) (S j)); [lia | auto ..].
  - apply Forall_lookup. intros j y Hy. apply (H 0%nat (S j)); [lia | auto ..].
Qed.

(** ** The vectors of an upload *)

Section Upload.
Variables (denv : DocEnv) (id source : string) (n : nat).

Let stored_match := uploaded_match denv id source n.

Lemma chunk_order_uploaded i c : chunk_order (stored_match i c) = Z.of_nat i.
Proof. unfold chunk_order. cbn. apply number_or_zero. Qed.

Lemma uploaded_matches_sorted chunks :
  StronglySorted in_chunk_order (imap stored_match chunks).
Proof.
  apply StronglySorted_lookup. intros i j x y Hij Hx Hy.
  rewrite list_lookup_imap in Hx, Hy.
  destruct (chunks !! i) as [ci |]; [| discriminate].
  destruct (chunks !! j) as [cj |]; [| discriminate].
  injection Hx as <-. injection Hy as <-.
  unfold in_chunk_order. rewrite !chunk_order_uploaded. lia.
Qed.

Lemma uploaded_matches_distinct chunks x y :
  x ∈ imap stored_match chunks -> y ∈ imap stored_match chunks ->
  chunk_order x = chunk_order y -> x = y.
Proof.
  intros Hx Hy Hxy.
  apply elem_of_lookup_imap_1 in Hx as (i & ci & -> & Hi).
  apply elem_of_lookup_imap_1 in Hy as (j & cj & -> & Hj).
  rewrite !chunk_order_uploaded in Hxy.
  assert (i = j) as <- by lia. congruence.
Qed.

Lemma uploaded_texts chunks :
  map chunk_text (imap stored_match chunks) = chunks.
Proof.
  apply list_eq. intros i.
  rewrite list_lookup_fmap, list_lookup_imap.
  destruct (chunks !! i); reflexivity.
Qed.

(** The chunk ids of an upload are distinct. *)
Lemma uploaded_ids_distinct chunks :
  n = length chunks ->
  NoDup (map dm_id (imap stored_match chunks)).
Proof.
  intros Hn. apply NoDup_alt. intros i j k Hi Hj.
  rewrite list_lookup_fmap, list_lookup_imap in Hi, Hj.
  destruct (chunks !! i) as [ci |] eqn:Hci; [| discriminate].
  destruct (chunks !! j) as [cj |] eqn:Hcj; [| discriminate].
  cbn in Hi, Hj. injection Hi as Hi. injection Hj as Hj.
  apply lookup_lt_Some in Hci, Hcj.
  destruct (Nat.ltb_spec 1 n) as [Hmany | Hone].
  - apply (chunk_id_inj id n); [exact Hmany | congruence].
  - lia.
Qed.

Lemma uploaded_belong chunks m :
  m ∈ imap stored_match chunks -> belongs_to id m = true.
Proof.
  intros Hm. apply elem_of_lookup_imap_1 in Hm as (i & c & -> & _).
  unfold belongs_to, stored_match, uploaded_match, chunk_id. cbn [dm_id].
  destruct (1 <? n)%nat.
  - rewrite <- append_assoc, prefix_append. apply orb_true_r.
  - rewrite String.eqb_refl. reflexivity.
Qed.

(** When embedding and upsert work, every promise is fulfilled with the
    vector of its chunk. *)
Lemma upload_chunk_works i c :
  uploads_work denv ->
  exists v,
    upload_chunk denv id source n i c = Returned (chunk_id id n i, v)
    /\ match_of (chunk_id id n i, v) = stored_match i c.
Proof.
  intros [Hembed Hupsert]. unfold upload_chunk. cbv zeta.
  destruct (Hembed c) as [v ->]. rewrite Hupsert.
  eexists. split; reflexivity.
Qed.

End Upload.

Lemma all_fulfilled (f : nat -> Text -> Try (string * Vector))
    (g : nat -> Text -> DocMatch) (chunks : list Text) :
  (forall i c, exists e, f i c = Returned e /\ match_of e = g i c) ->
  rejections (imap f chunks) = []
  /\ map match_of (fulfilled (imap f chunks)) = imap g chunks.
Proof.
  revert f g. induction chunks as [| c chunks IH]; intros f g H;
    [split; reflexivity |].
  rewrite !imap_cons. destruct (H 0%nat c) as (e & -> & He).
  cbn [rejections fulfilled map].
  destruct (IH (f ∘ S) (g ∘ S)) as [Hr Hf].
  { intros i c'. apply H. }
  rewrite Hr, Hf, He. split; reflexivity.
Qed.

(** ** The index *)

Lemma settle_fulfilled results ix :
  settle results ix
  = fold_left (fun ix e => <[e.1 := e.2]> ix) (fulfilled results) ix.
Proof.
  unfold settle. revert ix.
  induction results as [| [[k v] | e] results IH]; intros ix; cbn;
    [reflexivity | apply IH | apply IH].
Qed.

Lemma upserts_lookup_other (entries : list (string * Vector)) (ix : Index) k :
  k ∉ map fst entries ->
  fold_left (fun ix e => <[e.1 := e.2]> ix) entries ix !! k = ix !! k.
Proof.
  revert ix. induction entries as [| [k' v'] entries IH]; intros ix Hk; cbn;
    [reflexivity |].
  cbn in Hk. apply not_elem_of_cons in Hk as [Hne Hk].
  rewrite IH by exact Hk. apply lookup_insert_ne. congruence.
Qed.

Lemma upserts_lookup (entries : list (string * Vector)) (ix : Index) k v :
  NoDup (map fst entries) ->
  (k, v) ∈ entries ->
  fold_left (fun ix e => <[e.1 := e.2]> ix) entries ix !! k = Some v.
Proof.
  revert ix. induction entries as [| [k' v'] entries IH]; intros ix Hnd Hin;
    [apply elem_of_nil in Hin; contradiction |].
  cbn in Hnd. apply NoDup_cons in Hnd as [Hfresh Hnd]. cbn.
  apply elem_of_cons in Hin as [[= -> ->] | Hin].
  - rewrite upserts_lookup_other by exact Hfresh. apply lookup_insert_eq.
  - apply IH; assumption.
Qed.

Lemma deletes_lookup (ks : list string) (ix : Index) k :
  foldr delete ix ks !! k = if decide (k ∈ ks) then None else ix !! k.
Proof.
  induction ks as [| k' ks IH]; cbn [foldr].
  - destruct (decide (k ∈ [])) as [Hin | _]; [| reflexivity].
    apply elem_of_nil in Hin. contradiction.
  - destruct (decide (k' = k)) as [-> | Hne].
    + rewrite lookup_delete_eq.
      destruct (decide (k ∈ k :: ks)) as [_ | Hout]; [reflexivity |].
      destruct Hout. left.
    + rewrite lookup_delete_ne by exact Hne. rewrite IH.
      destruct (decide (k ∈ ks)) as [Hin | Hout];
        destruct (decide (k ∈ k' :: ks)) as [Hin' | Hout']; try reflexivity.
      * destruct Hout'. right. exact Hin.
      * apply elem_of_cons in Hin' as [-> | Hin']; [congruence | contradiction].
Qed.

(** The matches of a complete query are those of the vectors of the index,
    each once. *)
Lemma matches_of_elem (ix : Index) (m : DocMatch) :
  m ∈ matches_of ix
  <-> exists v, ix !! dm_id m = Some v /\ dm_metadata m = vector_metadata v.
Proof.
  unfold matches_of. rewrite list_elem_of_fmap. split.
  - intros ([k v] & -> & Hin). apply elem_of_map_to_list in Hin.
    exists v. auto.
  - intros (v & Hv & Hm). exists (dm_id m, v). split.
    + destruct m as [k md]. cbn in *. subst md. reflexivity.
    + apply elem_of_map_to_list. exact Hv.
Qed.

Lemma matches_of_NoDup (ix : Index) : NoDup (map dm_id (matches_of ix)).
Proof.
  unfold matches_of. rewrite map_map. cbn.
  apply (NoDup_fst_map_to_list ix).
Qed.

Lemma belongs_to_chunk_of id ix m :
  m ∈ matches_of ix -> belongs_to id m = chunk_of id ix (dm_id m).
Proof.
  intros Hm. apply matches_of_elem in Hm as (v & Hv & Hmd).
  unfold chunk_of. rewrite Hv. destruct m as [k md]. cbn in *.
  subst md. reflexivity.
Qed.

(** ** Upload, then read *)

Section Uploaded.
Variables (denv : DocEnv) (id source : string) (chunks : list Text)
          (ix : gmap string Vector).

Let results := imap (upload_chunk denv id source (length chunks)) chunks.
Let uploaded := imap (uploaded_match denv id source (length chunks)) chunks.

Hypothesis Hwork : uploads_work denv.

Lemma upload_all_fulfilled :
  rejections results = [] /\ map match_of (fulfilled results) = uploaded.
Proof.
  apply all_fulfilled. intros i c. destruct (upload_chunk_works denv id source (length chunks) i c Hwork)
    as (v & Hv & Hm). eauto.
Qed.

Lemma uploaded_keys : map fst (fulfilled results) = map dm_id uploaded.
Proof.
  destruct upload_all_fulfilled as [_ <-]. rewrite map_map. reflexivity.
Qed.

Lemma uploaded_keys_distinct : NoDup (map fst (fulfilled results)).
Proof. rewrite uploaded_keys. apply uploaded_ids_distinct. reflexivity. Qed.

(** A match of the index after the upload is a match of the upload or one
    of a vector that was there before, unchanged. *)
Lemma settled_match m :
  m ∈ matches_of (settle results ix)
  <-> m ∈ uploaded
      \/ ((dm_id m ∉ map dm_id uploaded) /\ m ∈ matches_of ix).
Proof.
  rewrite !matches_of_elem, settle_fulfilled. split.
  - intros (v & Hv & Hmd).
    destruct (decide (dm_id m ∈ map fst (fulfilled results))) as [Hin | Hout].
    + left. apply list_elem_of_fmap in Hin as ([k v'] & Hk & Hin). cbn in Hk.
      rewrite Hk in Hv.
      rewrite (upserts_lookup _ _ k v' uploaded_keys_distinct Hin) in Hv.
      injection Hv as <-.
      destruct upload_all_fulfilled as [_ <-].
      apply list_elem_of_fmap. exists (k, v'). split; [| exact Hin].
      destruct m as [k0 md]. cbn in *. subst. reflexivity.
    + right. rewrite upserts_lookup_other in Hv by exact Hout.
      rewrite <- uploaded_keys. eauto.
  - intros [Hin | (Hout & v & Hv & Hmd)].
    + destruct upload_all_fulfilled as [_ Heq]. rewrite <- Heq in Hin.
      apply list_elem_of_fmap in Hin as ([k v] & -> & Hin).
      exists v. split; [| reflexivity]. cbn.
      apply (upserts_lookup _ _ k v uploaded_keys_distinct Hin).
    + exists v. split; [| exact Hmd].
      rewrite upserts_lookup_other; [exact Hv |].
      rewrite uploaded_keys. exact Hout.
Qed.

(** Among the matches of a complete query after the upload, a predicate
    that holds of the chunks of the upload and of no vector that was there
    before selects the chunks of the upload. *)
Lemma uploaded_selected (p : DocMatch -> bool) matches :
  matches ≡ₚ matches_of (settle results ix) ->
  (forall m, m ∈ uploaded -> p m = true) ->
  (forall m, m ∈ matches_of ix -> dm_id m ∉ map dm_id uploaded ->
             p m = false) ->
  List.filter p matches ≡ₚ uploaded.
Proof.
  intros Hperm Hyes Hno. apply NoDup_Permutation.
  - apply NoDup_ListNoDup, List.NoDup_filter, NoDup_ListNoDup. rewrite Hperm.
    apply (NoDup_fmap_1 dm_id), matches_of_NoDup.
  - apply (NoDup_fmap_1 dm_id), uploaded_ids_distinct. reflexivity.
  - intros m. rewrite list_elem_of_In, List.filter_In, <- list_elem_of_In.
    rewrite Hperm, settled_match. split.
    + intros [[Hin | [Hout Hin]] Hp]; [exact Hin |].
      rewrite (Hno m Hin Hout) in Hp. discriminate.
    + intros Hin. auto.
Qed.

End Uploaded.

Lemma chunk_nonempty (text : Text) : text <> [] -> Chunker.chunk text <> [].
Proof.
  intros Hne Hnil. apply Hne. rewrite <- (chunk_concat text), Hnil.
  reflexivity.
Qed.

Lemma uploaded_ids denv id source text :
  map dm_id
    (imap (uploaded_match denv id source (length (Chunker.chunk text)))
       (Chunker.chunk text))
  = chunk_ids id text.
Proof. unfold chunk_ids. rewrite fmap_imap. reflexivity. Qed.

Lemma absent_from_replaced id text ix :
  absent_from id ix -> replaced_by id text ix.
Proof. intros Habsent k Hk. rewrite Habsent in Hk. discriminate. Qed.

(** X17. A document uploaded through [POST /api/upload-document] reads
    back whole.  When embedding and upsert work, the query returns every
    vector, and every vector of the index that counted as a chunk of
    [id] has the id of one of the new chunks (so when there was none, or
    when the document is uploaded again with as many chunks or more), the
    upload answers with the ids of the chunks, leaves every other vector
    as it was, and [GET /api/documents/:id] then returns the text that
    was uploaded, in the order of the chunks whatever the order of the
    matches, with the number of chunks.  The source comes back as given,
    [manual] when the body has none and [Unknown] when it is the empty
    string. *)
Theorem uploaded_document_reads_back
    (denv : DocEnv) (id : string) (text : Text) (source : option string)
    (ix : gmap string Vector) :
  query_complete denv ->
  uploads_work denv ->
  id <> "" ->
  text <> [] ->
  replaced_by id text ix ->
  (exists message,
     (upload_document denv (Some id) (Some text) source ix).1
     = Uploaded (chunk_ids id text) (Z.of_nat (length (Chunker.chunk text)))
         message)
  /\ (forall k,
        k ∉ chunk_ids id text ->
        (upload_document denv (Some id) (Some text) source ix).2 !! k
        = ix !! k)
  /\ get_document denv id
       (upload_document denv (Some id) (Some text) source ix).2
     = Document id
         (JS.string_or (Some (JS.nullish source "manual")) "Unknown")
         (JS.string_or (Some (upsert_time denv 0)) (read_time denv))
         text (Z.of_nat (length (Chunker.chunk text))).
Proof.
  intros Hquery Hwork Hid Htext Hreplaced.
  pose proof (uploaded_ids denv id (JS.nullish source "manual") text) as Hids.
  unfold upload_document.
  rewrite truthy_string_nonempty by exact Hid.
  rewrite bool_decide_eq_false_2 by exact Htext. cbn [negb orb]. cbv zeta.
  set (src := JS.nullish source "manual") in *.
  set (chunks := Chunker.chunk text) in *.
  destruct (upload_all_fulfilled denv id src chunks Hwork) as [Hrej Hful].
  rewrite Hrej. cbn [fst snd].
  split.
  { eexists. rewrite (uploaded_keys denv id src chunks Hwork), Hids.
    reflexivity. }
  split.
  { intros k Hk. rewrite settle_fulfilled. apply upserts_lookup_other.
    rewrite (uploaded_keys denv id src chunks Hwork), Hids. exact Hk. }
  unfold get_document.
  destruct (Hquery (settle (imap (upload_chunk denv id src (length chunks))
                              chunks) ix)) as (matches & -> & Hperm).
  cbv zeta.
  rewrite (sort_by_chunkIndex_unique _
             (imap (uploaded_match denv id src (length chunks)) chunks)).
  - assert (Hconcat : concat chunks = text) by apply chunk_concat.
    assert (Hne : chunks <> []) by (apply chunk_nonempty; exact Htext).
    clearbody chunks. destruct chunks as [| c0 rest]; [congruence |].
    rewrite imap_cons.
    rewrite <- (imap_cons (uploaded_match denv id src (length (c0 :: rest)))).
    rewrite uploaded_texts, length_imap, Hconcat. reflexivity.
  - apply (uploaded_selected denv id src chunks ix Hwork); [exact Hperm | |].
    + apply uploaded_belong.
    + intros m Hm Hout. rewrite Hids in Hout.
      rewrite (belongs_to_chunk_of id ix m Hm).
      destruct (chunk_of id ix (dm_id m)) eqn:Hk; [| reflexivity].
      destruct Hout. apply Hreplaced. exact Hk.
  - apply uploaded_matches_sorted.
  - apply uploaded_matches_distinct.
Qed.

Lemma uploaded_document_reads_back_witness :
  get_document Sample4.denv "bilan"
    (upload_document Sample4.denv (Some "bilan") (Some Sample4.short_text)
       None ∅).2
  = Document "bilan" "manual" "2025-01-15T10:00:00.000Z" Sample4.short_text 1.
Proof.
  destruct (uploaded_document_reads_back Sample4.denv "bilan"
              Sample4.short_text None ∅)
    as (_ & _ & Hread).
  - intros ix. eexists. split; reflexivity.
  - split; intros; [eexists |]; reflexivity.
  - discriminate.
  - discriminate.
  - intros k Hk. discriminate.
  - exact Hread.
Defined.

(** ** Delete *)

Lemma filter_perm {A} (p : A -> bool) (l l' : list A) :
  l ≡ₚ l' -> List.filter p l ≡ₚ List.filter p l'.
Proof.
  induction 1 as [| x l l' _ IH | x y l | l1 l2 l3 _ IH1 _ IH2]; cbn.
  - reflexivity.
  - destruct (p x); [constructor |]; exact IH.
  - destruct (p x), (p y); try reflexivity. apply Permutation_swap.
  - etransitivity; eassumption.
Qed.

Lemma chunk_of_selected id ix matches k :
  matches ≡ₚ matches_of ix ->
  k ∈ map dm_id (List.filter (belongs_to id) matches)
  <-> chunk_of id ix k = true.
Proof.
  intros Hperm. rewrite list_elem_of_fmap. split.
  - intros (m & -> & Hm).
    apply list_elem_of_In, List.filter_In in Hm as [Hm Hb].
    apply list_elem_of_In in Hm. rewrite Hperm in Hm.
    rewrite <- (belongs_to_chunk_of id ix m Hm). exact Hb.
  - unfold chunk_of. intros Hk.
    destruct (ix !! k) as [v |] eqn:Hv; [| discriminate].
    exists {| dm_id := k; dm_metadata := vector_metadata v |}.
    split; [reflexivity |].
    apply list_elem_of_In, List.filter_In. split; [| exact Hk].
    apply list_elem_of_In. rewrite Hperm. apply matches_of_elem.
    exists v. auto.
Qed.

Lemma get_document_absent denv id ix :
  query_complete denv -> absent_from id ix ->
  get_document denv id ix = DocError 404 "Document non trouvé" None.
Proof.
  intros Hquery Habsent. unfold get_document.
  destruct (Hquery ix) as (matches & -> & Hperm). cbv zeta.
  destruct (List.filter (belongs_to id) matches) as [| m rest] eqn:Hf;
    [reflexivity |].
  assert (Hin : dm_id m ∈ map dm_id (List.filter (belongs_to id) matches)).
  { rewrite Hf. cbn. left. }
  apply (chunk_of_selected id ix matches _ Hperm) in Hin.
  rewrite Habsent in Hin. discriminate.
Qed.

(** X18. [DELETE /api/documents/:id], when the query returns every vector
    and [deleteMany] works, removes the vectors whose id is [id] or starts
    with [id-chunk-] and no other; it answers 404 and changes nothing
    when there is none, and otherwise answers with their number.
    [GET /api/documents/:id] answers 404 afterwards. *)
Theorem deleted_document_is_gone
    (denv : DocEnv) (id : string) (ix : gmap string Vector) :
  query_complete denv ->
  deleteMany_fault denv = None ->
  (forall k,
     (delete_document denv id ix).2 !! k
     = if chunk_of id ix k then None else ix !! k)
  /\ (absent_from id ix ->
      delete_document denv id ix
      = (DocError 404 "Document non trouvé" None, ix))
  /\ (forall k,
        chunk_of id ix k = true ->
        exists message,
          (delete_document denv id ix).1
          = Deleted
              (Z.of_nat (length (List.filter (belongs_to id) (matches_of ix))))
              message)
  /\ get_document denv id (delete_document denv id ix).2
     = DocError 404 "Document non trouvé" None.
Proof.
  intros Hquery Hdelete.
  assert (Hlookup : forall k,
            (delete_document denv id ix).2 !! k
            = if chunk_of id ix k then None else ix !! k).
  { intros k. unfold delete_document.
    destruct (Hquery ix) as (matches & -> & Hperm). cbv zeta.
    pose proof (chunk_of_selected id ix matches k Hperm) as Hsel.
    destruct (map dm_id (List.filter (belongs_to id) matches))
      as [| k0 ks] eqn:Hids.
    - cbn [snd]. destruct (chunk_of id ix k); [| reflexivity].
      destruct Hsel as [_ Hsel]. specialize (Hsel eq_refl).
      apply elem_of_nil in Hsel. contradiction.
    - rewrite Hdelete. cbn [snd]. rewrite deletes_lookup.
      destruct (decide (k ∈ k0 :: ks)) as [Hin | Hout].
      + apply Hsel in Hin. rewrite Hin. reflexivity.
      + destruct (chunk_of id ix k); [| reflexivity].
        destruct Hout. apply Hsel. reflexivity. }
  split; [exact Hlookup |]. split; [| split].
  - intros Habsent. unfold delete_document.
    destruct (Hquery ix) as (matches & -> & Hperm). cbv zeta.
    destruct (map dm_id (List.filter (belongs_to id) matches))
      as [| k0 ks] eqn:Hids; [reflexivity |].
    assert (Hin : k0 ∈ map dm_id (List.filter (belongs_to id) matches))
      by (rewrite Hids; left).
    apply (chunk_of_selected id ix matches _ Hperm) in Hin.
    rewrite Habsent in Hin. discriminate.
  - intros k Hk. unfold delete_document.
    destruct (Hquery ix) as (matches & -> & Hperm). cbv zeta.
    apply (chunk_of_selected id ix matches _ Hperm) in Hk.
    rewrite <- (Permutation_length (filter_perm (belongs_to id) _ _ Hperm)).
    rewrite <- (length_map dm_id).
    destruct (map dm_id (List.filter (belongs_to id) matches))
      as [| k0 ks] eqn:Hids.
    + apply elem_of_nil in Hk. contradiction.
    + rewrite Hdelete. cbn [fst]. eexists. reflexivity.
  - apply get_document_absent; [exact Hquery |].
    intros k. unfold chunk_of. rewrite Hlookup.
    destruct (chunk_of id ix k) eqn:Hk; [reflexivity |].
    exact Hk.
Qed.

Lemma deleted_document_is_gone_witness :
  get_document Sample4.denv "bilan"
    (delete_document Sample4.denv "bilan"
       (upload_document Sample4.denv (Some "bilan") (Some Sample4.short_text)
          None ∅).2).2
  = DocError 404 "Document non trouvé" None.
Proof.
  refine (proj2 (proj2 (proj2
    (deleted_document_is_gone Sample4.denv "bilan"
       (upload_document Sample4.denv (Some "bilan") (Some Sample4.short_text)
          None ∅).2 _ eq_refl)))).
  intros ix. eexists. split; reflexivity.
Defined.

(** ** The listing *)

Lemma push_chunk_ids b c docs :
  map doc_id (push_chunk b c docs) = map doc_id docs.
Proof.
  induction docs as [| d docs IH]; cbn; [reflexivity |].
  destruct (String.eqb (doc_id d) b); cbn; [reflexivity |].
  rewrite IH. reflexivity.
Qed.

Lemma has_document_false b docs :
  has_document b docs = false -> b ∉ map doc_id docs.
Proof.
  induction docs as [| d docs IH]; cbn.
  - intros _ Hin. apply elem_of_nil in Hin. contradiction.
  - intros H. apply orb_false_iff in H as [Hd Hrest].
    apply not_elem_of_cons. split; [| auto].
    intros ->. rewrite String.eqb_refl in Hd. discriminate.
Qed.

Lemma has_document_find b docs :
  has_document b docs = true <-> is_Some (find_document b docs).
Proof.
  unfold has_document, find_document.
  induction docs as [| d docs IH]; cbn.
  - split; [discriminate | intros [x Hx]; discriminate].
  - destruct (String.eqb (doc_id d) b); cbn; [| exact IH].
    split; eauto.
Qed.

Lemma find_document_push id b c docs :
  doc_chunks <$> find_document id (push_chunk b c docs)
  = if decide (id = b)
    then (fun l => l ++ [c]) <$> (doc_chunks <$> find_document b docs)
    else doc_chunks <$> find_document id docs.
Proof.
  unfold find_document.
  induction docs as [| d docs IH]; cbn [push_chunk List.find].
  - destruct (decide (id = b)); reflexivity.
  - destruct (String.eqb_spec (doc_id d) b) as [Hd | Hd]; cbn [List.find doc_id].
    + rewrite Hd. destruct (decide (id = b)) as [-> | Hne].
      * rewrite String.eqb_refl. reflexivity.
      * destruct (String.eqb_spec b id); [congruence | reflexivity].
    + destruct (String.eqb_spec (doc_id d) id) as [Hid | Hid].
      * destruct (decide (id = b)); [congruence | reflexivity].
      * exact IH.
Qed.

Lemma find_document_app id docs d :
  find_document id (docs ++ [d])
  = match find_document id docs with
    | Some found => Some found
    | None => if String.eqb (doc_id d) id then Some d else None
    end.
Proof.
  unfold find_document. induction docs as [| d' docs IH]; cbn; [reflexivity |].
  destruct (String.eqb (doc_id d') id); [reflexivity | exact IH].
Qed.

(** After any number of matches, the entry of a document holds the
    references of the matches seen so far that the listing puts under it,
    in order; a document has an entry when there is one such match. *)
Lemma add_match_chunks denv docs seen m :
  (forall id,
     doc_chunks <$> find_document id docs
     = match List.filter (base_is id) seen with
       | [] => None
       | l => Some (map chunk_ref l)
       end) ->
  forall id,
    doc_chunks <$> find_document id (add_match denv docs m)
    = match List.filter (base_is id) (seen ++ [m]) with
      | [] => None
      | l => Some (map chunk_ref l)
      end.
Proof.
  intros Hinv id. unfold add_match. cbv zeta.
  rewrite List.filter_app. cbn [List.filter]. unfold base_is at 2.
  rewrite find_document_push.
  destruct (decide (id = strip_chunk_suffix (dm_id m))) as [-> | Hne].
  - rewrite String.eqb_refl.
    destruct (has_document (strip_chunk_suffix (dm_id m)) docs) eqn:Hhas.
    + apply has_document_find in Hhas as [d Hd].
      pose proof (Hinv (strip_chunk_suffix (dm_id m))) as Hb.
      rewrite Hd in Hb |- *. cbn in Hb |- *.
      destruct (List.filter (base_is (strip_chunk_suffix (dm_id m))) seen)
        as [| m' l]; [discriminate |].
      injection Hb as ->. cbn. rewrite map_app. reflexivity.
    + assert (find_document (strip_chunk_suffix (dm_id m)) docs = None) as Hnone.
      { destruct (find_document _ docs) eqn:Hd; [| reflexivity].
        assert (has_document (strip_chunk_suffix (dm_id m)) docs = true)
          by (apply has_document_find; rewrite Hd; eauto).
        congruence. }
      pose proof (Hinv (strip_chunk_suffix (dm_id m))) as Hb.
      rewrite Hnone in Hb. cbn in Hb.
      destruct (List.filter (base_is (strip_chunk_suffix (dm_id m))) seen)
        as [| m' l]; [| discriminate].
      rewrite find_document_app, Hnone. cbn [doc_id].
      rewrite String.eqb_refl. reflexivity.
  - destruct (String.eqb_spec (strip_chunk_suffix (dm_id m)) id);
      [congruence |].
    rewrite app_nil_r.
    destruct (has_document (strip_chunk_suffix (dm_id m)) docs).
    + apply Hinv.
    + rewrite find_document_app, <- Hinv. cbn [doc_id].
      destruct (find_document id docs); [reflexivity |].
      destruct (String.eqb_spec (strip_chunk_suffix (dm_id m)) id);
        [congruence | reflexivity].
Qed.

Lemma group_documents_chunks denv matches : forall docs seen,
  (forall id,
     doc_chunks <$> find_document id docs
     = match List.filter (base_is id) seen with
       | [] => None
       | l => Some (map chunk_ref l)
       end) ->
  forall id,
    doc_chunks <$> find_document id (fold_left (add_match denv) matches docs)
    = match List.filter (base_is id) (seen ++ matches) with
      | [] => None
      | l => Some (map chunk_ref l)
      end.
Proof.
  induction matches as [| m matches IH]; intros docs seen Hinv id.
  - rewrite app_nil_r. apply Hinv.
  - cbn [fold_left].
    rewrite (IH (add_match denv docs m) (seen ++ [m])).
    + rewrite <- app_assoc. reflexivity.
    + apply add_match_chunks. exact Hinv.
Qed.

Lemma listed_count_spec denv matches id :
  listed_count id (group_documents denv matches)
  = Z.of_nat (length (List.filter (base_is id) matches)).
Proof.
  unfold listed_count, group_documents, doc_chunkCount.
  pose proof (group_documents_chunks denv matches [] [] (fun _ => eq_refl) id)
    as H.
  cbn [app] in H.
  destruct (find_document id (fold_left (add_match denv) matches [])) as [d |];
    cbn in H.
  - destruct (List.filter (base_is id) matches) as [| m l]; [discriminate |].
    injection H as ->. cbn [length]. rewrite length_map. reflexivity.
  - destruct (List.filter (base_is id) matches); [reflexivity | discriminate].
Qed.

Lemma group_documents_NoDup denv matches : forall docs,
  NoDup (map doc_id docs) ->
  NoDup (map doc_id (fold_left (add_match denv) matches docs)).
Proof.
  induction matches as [| m matches IH]; intros docs Hnd; [exact Hnd |].
  cbn [fold_left]. apply IH. unfold add_match. cbv zeta.
  rewrite push_chunk_ids.
  destruct (has_document (strip_chunk_suffix (dm_id m)) docs) eqn:Hhas;
    [exact Hnd |].
  rewrite map_app. cbn [map doc_id].
  apply NoDup_app. split; [exact Hnd |]. split.
  - intros x Hx Hin. apply list_elem_of_singleton in Hin as ->.
    apply (has_document_false _ _ Hhas). exact Hx.
  - apply NoDup_singleton.
Qed.

(** What the listing puts under [id] is what [GET /api/documents/:id]
    selects, or less. *)
Lemma base_is_belongs id m : base_is id m = true -> belongs_to id m = true.
Proof.
  unfold base_is, belongs_to. intros H. apply String.eqb_eq in H.
  destruct (strip_chunk_suffix_inv (dm_id m)) as [Hsame | (t & Heq & _ & _)].
  - rewrite Hsame, H, String.eqb_refl. reflexivity.
  - rewrite Heq, H, <- append_assoc, prefix_append. apply orb_true_r.
Qed.

Lemma filter_length_mono {A} (p q : A -> bool) (l : list A) :
  (forall x, p x = true -> q x = true) ->
  (length (List.filter p l) <= length (List.filter q l))%nat.
Proof.
  intros Hpq. induction l as [| x l IH]; cbn; [lia |].
  destruct (p x) eqn:Hp.
  - rewrite (Hpq x Hp). cbn. lia.
  - destruct (q x); cbn; lia.
Qed.

(** X19. [GET /api/documents] lists every document once and counts every
    vector once: the ids of the listing are distinct, and the chunk count
    of a document is the number of matches whose id, with a final
    [-chunk-] and digits taken out, is the id of the document.  So the
    chunks named [id-chunk-1], [id-chunk-2], ... by an upload are counted
    under [id], and so is a vector whose own id ends in [-chunk-] and
    digits. *)
Theorem listing_counts_vectors_by_base_id
    (denv : DocEnv) (ix : gmap string Vector) (matches : list DocMatch) :
  query_all denv ix = Returned matches ->
  list_documents denv ix = Listed (group_documents denv matches)
  /\ NoDup (map doc_id (group_documents denv matches))
  /\ (forall id,
        listed_count id (group_documents denv matches)
        = Z.of_nat (length (List.filter (base_is id) matches)))
  /\ (forall m,
        m ∈ matches ->
        (0 < listed_count (strip_chunk_suffix (dm_id m))
               (group_documents denv matches))%Z)
  /\ (forall id n i,
        (1 < n)%nat -> strip_chunk_suffix (chunk_id id n i) = id)
  /\ (forall id digits,
        digits <> "" -> all_digits digits = true ->
        strip_chunk_suffix (id ++ "-chunk-" ++ digits) = id).
Proof.
  intros Hq. unfold list_documents. rewrite Hq.
  split; [reflexivity |]. split; [| split; [| split; [| split]]].
  - apply group_documents_NoDup. constructor.
  - apply listed_count_spec.
  - intros m Hm. rewrite listed_count_spec.
    assert (Hin : In m (List.filter (base_is (strip_chunk_suffix (dm_id m)))
                          matches)).
    { apply List.filter_In. split; [apply list_elem_of_In; exact Hm |].
      unfold base_is. apply String.eqb_refl. }
    destruct (List.filter _ matches); [destruct Hin | cbn; lia].
  - intros id n i Hn. unfold chunk_id.
    destruct (Nat.ltb_spec 1 n) as [_ | Hle]; [| lia].
    destruct (chunk_number_digits i) as [Hne Hall].
    apply strip_chunk_suffix_digits; assumption.
  - intros id digits. apply strip_chunk_suffix_digits.
Qed.

Lemma listing_counts_vectors_by_base_id_witness :
  listed_count "bilan"
    (group_documents Sample4.denv
       (matches_of
          (upload_document Sample4.denv (Some "bilan")
             (Some Sample4.short_text) None ∅).2))
  = 1%Z.
Proof.
  destruct (listing_counts_vectors_by_base_id Sample4.denv
              (upload_document Sample4.denv (Some "bilan")
                 (Some Sample4.short_text) None ∅).2
              _ eq_refl) as (_ & _ & Hcount & _).
  rewrite Hcount. reflexivity.
Defined.

(** X20. A document that [GET /api/documents] lists can be read: on the
    same matches, [GET /api/documents/:id] answers with the document, and
    with at least as many chunks as the listing counts. *)
Theorem listed_document_can_be_read
    (denv : DocEnv) (ix : gmap string Vector) (matches : list DocMatch)
    (id : string) :
  query_all denv ix = Returned matches ->
  (0 < listed_count id (group_documents denv matches))%Z ->
  exists source uploadedAt text chunkCount,
    get_document denv id ix = Document id source uploadedAt text chunkCount
    /\ (listed_count id (group_documents denv matches) <= chunkCount)%Z.
Proof.
  intros Hq Hlisted. rewrite listed_count_spec in *.
  unfold get_document. rewrite Hq. cbv zeta.
  pose proof (filter_length_mono (base_is id) (belongs_to id) matches
                (base_is_belongs id)) as Hle.
  rewrite <- (Permutation_length
                (sort_by_chunkIndex_perm
                   (List.filter (belongs_to id) matches))) in Hle.
  destruct (sort_by_chunkIndex (List.filter (belongs_to id) matches))
    as [| first rest].
  - cbn in Hle. lia.
  - eexists _, _, _, _. split; [reflexivity |]. lia.
Qed.

Lemma listed_document_can_be_read_witness :
  exists source uploadedAt text chunkCount,
    get_document Sample4.denv "bilan"
      (upload_document Sample4.denv (Some "bilan")
         (Some Sample4.short_text) None ∅).2
    = Document "bilan" source uploadedAt text chunkCount
    /\ (listed_count "bilan"
          (group_documents Sample4.denv
             (matches_of
                (upload_document Sample4.denv (Some "bilan")
                   (Some Sample4.short_text) None ∅).2))
        <= chunkCount)%Z.
Proof.
  apply (listed_document_can_be_read Sample4.denv
           (upload_document Sample4.denv (Some "bilan")
              (Some Sample4.short_text) None ∅).2
           _ "bilan" eq_refl).
  reflexivity.
Defined.

Lemma upload_document_settles denv id text source ix :
  uploads_work denv -> id <> "" -> text <> [] ->
  (upload_document denv (Some id) (Some text) source ix).2
  = settle
      (imap (upload_chunk denv id (JS.nullish source "manual")
               (length (Chunker.chunk text)))
         (Chunker.chunk text))
      ix.
Proof.
  intros Hwork Hid Htext. unfold upload_document.
  rewrite truthy_string_nonempty by exact Hid.
  rewrite bool_decide_eq_false_2 by exact Htext. cbn [negb orb]. cbv zeta.
  destruct (rejections _); reflexivity.
Qed.

(** X21. A document uploaded through [POST /api/upload-document] is
    listed by [GET /api/documents] under its id with the number of its
    chunks, when the listing put no vector under that id before and the
    text makes two chunks or more; a text of one chunk is stored under
    the id as it is, and is listed under it only if the id does not itself
    end in [-chunk-] and digits. *)
Theorem uploaded_document_is_listed
    (denv : DocEnv) (id : string) (text : Text) (source : option string)
    (ix : gmap string Vector) :
  query_complete denv ->
  uploads_work denv ->
  id <> "" ->
  text <> [] ->
  (forall m, m ∈ matches_of ix -> base_is id m = false) ->
  (1 < length (Chunker.chunk text))%nat \/ strip_chunk_suffix id = id ->
  exists docs,
    list_documents denv
      (upload_document denv (Some id) (Some text) source ix).2
    = Listed docs
    /\ listed_count id docs = Z.of_nat (length (Chunker.chunk text)).
Proof.
  intros Hquery Hwork Hid Htext Hfresh Hname.
  rewrite upload_document_settles by assumption.
  set (src := JS.nullish source "manual").
  set (chunks := Chunker.chunk text) in *.
  unfold list_documents.
  destruct (Hquery (settle (imap (upload_chunk denv id src (length chunks))
                              chunks) ix)) as (matches & -> & Hperm).
  eexists. split; [reflexivity |].
  rewrite listed_count_spec.
  assert (Hnew : forall m,
            m ∈ imap (uploaded_match denv id src (length chunks)) chunks ->
            base_is id m = true).
  { intros m Hm. apply elem_of_lookup_imap_1 in Hm as (i & c & -> & _).
    unfold base_is, uploaded_match, chunk_id. cbn [dm_id].
    destruct (Nat.ltb_spec 1 (length chunks)) as [Hmany | Hone].
    - destruct (chunk_number_digits i) as [Hne Hall].
      rewrite strip_chunk_suffix_digits by assumption.
      apply String.eqb_refl.
    - destruct Hname as [Hmany | ->]; [lia | apply String.eqb_refl]. }
  rewrite (Permutation_length
             (uploaded_selected denv id src chunks ix Hwork (base_is id)
                matches Hperm Hnew (fun m Hm _ => Hfresh m Hm))).
  rewrite length_imap. reflexivity.
Qed.

Lemma uploaded_document_is_listed_witness :
  exists docs,
    list_documents Sample4.denv
      (upload_document Sample4.denv (Some "bilan") (Some Sample4.short_text)
         None ∅).2
    = Listed docs
    /\ listed_count "bilan" docs = 1%Z.
Proof.
  apply (uploaded_document_is_listed Sample4.denv "bilan" Sample4.short_text
           None ∅).
  - intros ix. eexists. split; reflexivity.
  - split; intros; [eexists |]; reflexivity.
  - discriminate.
  - discriminate.
  - intros m Hm. apply elem_of_nil in Hm. contradiction.
  - right. reflexivity.
Defined.

(** ** An upload that fails *)

Lemma fulfilled_keys (f : nat -> list Z -> Try (string * Vector))
    (g : nat -> string) (chunks : list (list Z)) :
  (forall i c e, f i c = Returned e -> e.1 = g i) ->
  map fst (fulfilled (imap f chunks)) `sublist_of` imap (fun i _ => g i) chunks.
Proof.
  revert f g. induction chunks as [| c chunks IH]; intros f g Hkey.
  - constructor.
  - rewrite !imap_cons. destruct (f 0%nat c) as [e | msg] eqn:Hf;
      cbn [fulfilled map].
    + rewrite (Hkey 0%nat c e Hf). apply sublist_skip.
      apply (IH (f ∘ S) (g ∘ S)). intros i c' e'. apply Hkey.
    + apply sublist_cons.
      apply (IH (f ∘ S) (g ∘ S)). intros i c' e'. apply Hkey.
Qed.

Lemma fulfilled_elem {A} (results : list (Try A)) (a : A) :
  Returned a ∈ results -> a ∈ fulfilled results.
Proof.
  induction results as [| [b | e] results IH]; intros Hin.
  - apply elem_of_nil in Hin. contradiction.
  - cbn. apply elem_of_cons in Hin as [[= ->] | Hin]; [left | right; auto].
  - cbn. apply elem_of_cons in Hin as [Heq | Hin]; [discriminate | auto].
Qed.

Lemma rejections_elem {A} (results : list (Try A)) (e : string) :
  Thrown e ∈ results -> rejections results <> [].
Proof.
  induction results as [| [b | e'] results IH]; intros Hin.
  - apply elem_of_nil in Hin. contradiction.
  - cbn. apply elem_of_cons in Hin as [Heq | Hin]; [discriminate | auto].
  - cbn. discriminate.
Qed.

(** X22. An upload is not rolled back: when the embedding or the upsert
    of one chunk fails, [POST /api/upload-document] answers 500, and the
    vector of every chunk whose embedding and upsert went through is in
    the index all the same. *)
Theorem failed_upload_keeps_the_other_chunks
    (denv : DocEnv) (id : string) (text : Text) (source : option string)
    (ix : gmap string Vector) (j : nat) (failed : list Z) (e : string) :
  id <> "" ->
  text <> [] ->
  Chunker.chunk text !! j = Some failed ->
  upload_chunk denv id (JS.nullish source "manual")
    (length (Chunker.chunk text)) j failed = Thrown e ->
  (exists details,
     (upload_document denv (Some id) (Some text) source ix).1
     = DocError 500 "Erreur upload" (Some details))
  /\ (forall i c k v,
        Chunker.chunk text !! i = Some c ->
        upload_chunk denv id (JS.nullish source "manual")
          (length (Chunker.chunk text)) i c = Returned (k, v) ->
        (upload_document denv (Some id) (Some text) source ix).2 !! k
        = Some v).
Proof.
  intros Hid Htext Hj Hfailed.
  unfold upload_document.
  rewrite truthy_string_nonempty by exact Hid.
  rewrite bool_decide_eq_false_2 by exact Htext. cbn [negb orb]. cbv zeta.
  set (src := JS.nullish source "manual") in *.
  set (chunks := Chunker.chunk text) in *.
  set (results := imap (upload_chunk denv id src (length chunks)) chunks).
  assert (Hrej : rejections results <> []).
  { apply (rejections_elem _ e). rewrite <- Hfailed.
    apply elem_of_lookup_imap_2. exact Hj. }
  assert (Hnd : NoDup (map fst (fulfilled results))).
  { eapply sublist_NoDup.
    - pose proof (uploaded_ids_distinct denv id src (length chunks) chunks
                    eq_refl) as Hids.
      rewrite fmap_imap in Hids. exact Hids.
    - apply (fulfilled_keys _ (chunk_id id (length chunks))).
      intros i c [k v] Hi. unfold upload_chunk in Hi. cbv zeta in Hi.
      destruct (embed denv c); [| discriminate].
      destruct (upsert_fault denv _); [discriminate |].
      injection Hi as <- _. reflexivity. }
  destruct (rejections results) as [| e0 es] eqn:Hr; [congruence |].
  cbn [fst snd]. split; [eauto |].
  intros i c k v Hi Hok. rewrite settle_fulfilled.
  apply upserts_lookup; [exact Hnd |].
  apply fulfilled_elem. rewrite <- Hok.
  apply elem_of_lookup_imap_2. exact Hi.
Qed.

Lemma failed_upload_keeps_the_other_chunks_witness :
  exists details,
    (upload_document Sample4.denv_down (Some "bilan")
       (Some Sample4.short_text) None ∅).1
    = DocError 500 "Erreur upload" (Some details).
Proof.
  apply (failed_upload_keeps_the_other_chunks Sample4.denv_down "bilan"
           Sample4.short_text None ∅ 0 Sample4.short_text
           "embedding unavailable");
    [discriminate | discriminate | reflexivity | reflexivity].
Defined.

(** * The persisted messages of a chat *)

Lemma persisted_messages_app c rows w :
  persisted_messages c (with_messages (messages w ++ rows) w)
  = (persisted_messages c w
     + Z.of_nat (length (List.filter (fun m => String.eqb (chat_id m) c) rows)))%Z.
Proof.
  unfold persisted_messages. cbn [messages with_messages].
  rewrite List.filter_app, length_app. lia.
Qed.

(** What the route leaves: the state as it was, or the state with the one
    row appended. *)
Lemma add_message_cases mf id role content s :
  (exists r,
     add_message mf id role content s = (Sent r, s)
     /\ status r <> 200%Z
     /\ message_stored mf role content = false)
  \/ (exists r ro co,
        role = Some ro /\ content = Some co
        /\ message_stored mf role content = true
        /\ (status r = 200%Z \/ status r = 500%Z)
        /\ add_message mf id role content s
           = (Sent r,
              {| world := with_messages
                            (messages (world s)
                             ++ [{| chat_id := id; msg_role := ro;
                                    content := co |}])
                            (world s);
                 model_calls := model_calls s |})
        /\ (status r = 200%Z <-> forall e, chat_touch mf <> Throws e)).
Proof.
  unfold add_message, message_stored, try_catch.
  destruct role as [ro |]; [| left; eexists; repeat split; discriminate].
  destruct content as [co |].
  2: { left. eexists. split; [reflexivity |]. split; [discriminate |].
       apply andb_false_intro1, andb_false_r. }
  cbn [JS.truthy_string].
  destruct (negb (ro =? "")) eqn:Hro; cbn [negb orb andb].
  2: { left. eexists. repeat split; discriminate. }
  destruct (negb (co =? "")) eqn:Hco; cbn [negb orb andb].
  2: { left. eexists. repeat split; discriminate. }
  unfold bind, write_under.
  destruct (message_insert mf) as [| e | e].
  - right. destruct (chat_touch mf) as [| e | e] eqn:Htouch.
    + eexists _, ro, co. repeat split; try reflexivity; [left; reflexivity | ].
      intros _ e. discriminate.
    + eexists _, ro, co. repeat split; try reflexivity; [left; reflexivity | ].
      intros _ e'. discriminate.
    + eexists _, ro, co. repeat split; try reflexivity.
      * right. reflexivity.
      * cbn. discriminate.
      * intros H. destruct (H e). reflexivity.
  - left. eexists. repeat split; discriminate.
  - left. eexists. repeat split; discriminate.
Qed.

(** X23. [POST /api/chats/:id/messages] advances the count the chat limit
    reads: the route adds one to the count of its chat exactly when the
    body has a role and a content and the insert works, also when it then
    answers 500 because the update of [chats.updated_at] threw.  It leaves
    every other count and the users, organizations, conversations and
    usage tables as they were and calls no model; the [chats] table it
    updates is not among the tables of this model.  A request of
    [POST /api/chat] never changes a count.  So once the 200th message of
    a chat is stored, the chat route refuses the chat and changes nothing,
    provided its count query works; when that query resolves to an error
    the limit check is passed all the same. *)
Theorem stored_messages_drive_the_chat_limit
    (mf : MessageFaults) (id : string) (role content : option string)
    (s : Sys) :
  (persisted_messages id (world (add_message mf id role content s).2)
   = persisted_messages id (world s)
     + (if message_stored mf role content then 1 else 0))%Z
  /\ (forall c, c <> id ->
        persisted_messages c (world (add_message mf id role content s).2)
        = persisted_messages c (world s))
  /\ (forall r,
        (add_message mf id role content s).1 = Sent r ->
        status r = 200%Z ->
        message_stored mf role content = true)
  /\ users (world (add_message mf id role content s).2) = users (world s)
  /\ conversations (world (add_message mf id role content s).2)
     = conversations (world s)
  /\ daily_usage (world (add_message mf id role content s).2)
     = daily_usage (world s)
  /\ organizations (world (add_message mf id role content s).2)
     = organizations (world s)
  /\ model_calls (add_message mf id role content s).2 = model_calls s
  /\ (forall env h c,
        persisted_messages c (world (post_api_chat env h s).2)
        = persisted_messages c (world s))
  /\ (forall env h,
        chatId (req_body h) = Some id ->
        id <> "" ->
        db_fault env ChatMessages = NoFault ->
        message_stored mf role content = true ->
        (199 <= persisted_messages id (world s))%Z ->
        exists r,
          post_api_chat env h (add_message mf id role content s).2
          = (Sent r, (add_message mf id role content s).2)
          /\ status r <> 200%Z)
  /\ (forall env c e,
        db_fault env ChatMessages = ReturnsError e ->
        chat_limit_check env c (add_message mf id role content s).2
        = (Done JNull, (add_message mf id role content s).2)).
Proof.
  assert (Hcount : forall c,
    persisted_messages c (world (add_message mf id role content s).2)
    = (persisted_messages c (world s)
       + (if message_stored mf role content
          then (if String.eqb id c then 1 else 0) else 0))%Z).
  { intros c.
    destruct (add_message_cases mf id role content s)
      as [(r & -> & _ & ->) | (r & ro & co & _ & _ & -> & _ & -> & _)];
      cbn [snd world]; [lia |].
    rewrite persisted_messages_app. cbn [List.filter chat_id].
    destruct (String.eqb id c); reflexivity. }
  split; [| split; [| split; [| split; [| split; [| split; [| split;
    [| split; [| split; [| split]]]]]]]]].
  11: { intros env c e Hf. apply (chat_limit_check_unread env c _ e Hf). }
  - rewrite Hcount, String.eqb_refl. reflexivity.
  - intros c Hc. rewrite Hcount.
    destruct (String.eqb_spec id c); [congruence |].
    destruct (message_stored mf role content); lia.
  - intros r Hr Hstatus.
    destruct (add_message_cases mf id role content s)
      as [(r' & Hrun & Hne & _) | (_ & _ & _ & _ & _ & Hstored & _)];
      [| exact Hstored].
    rewrite Hrun in Hr. injection Hr as <-. contradiction.
  - destruct (add_message_cases mf id role content s)
      as [(r & -> & _) | (r & ro & co & _ & _ & _ & _ & -> & _)]; reflexivity.
  - destruct (add_message_cases mf id role content s)
      as [(r & -> & _) | (r & ro & co & _ & _ & _ & _ & -> & _)]; reflexivity.
  - destruct (add_message_cases mf id role content s)
      as [(r & -> & _) | (r & ro & co & _ & _ & _ & _ & -> & _)]; reflexivity.
  - destruct (add_message_cases mf id role content s)
      as [(r & -> & _) | (r & ro & co & _ & _ & _ & _ & -> & _)]; reflexivity.
  - destruct (add_message_cases mf id role content s)
      as [(r & -> & _) | (r & ro & co & _ & _ & _ & _ & -> & _)]; reflexivity.
  - intros env h c. unfold persisted_messages.
    destruct (post_api_chat_run env h s) as [(r & -> & _) | (req & _ & Hrun)];
      [reflexivity |].
    apply chat_run_frame in Hrun as (_ & _ & -> & _). reflexivity.
  - intros env h Hchat Hid Hf Hstored Hcount199.
    set (s' := (add_message mf id role content s).2) in *.
    assert (Hfull : (200 <= persisted_messages id (world s'))%Z).
    { unfold s'. rewrite Hcount, Hstored, String.eqb_refl. lia. }
    destruct (post_api_chat_cases env h s')
      as [(r & Hr & Hs) | (au & req & _ & _ & Hh & _ & ->)].
    + exists r. split; [exact Hr | lia].
    + rewrite <- Hh in Hchat.
      destruct (chat_handler_at_limit env req s' id Hchat Hid Hf Hfull)
        as [(r & Hr & Hs) _].
      exists r. split; [exact Hr | lia].
Qed.

(** * Signing up *)

Lemma select_single_under_cases {A} f (rows : World -> list A) s :
  (exists r, select_single_under f rows s = (Done r, s)
             /\ (data r = None
                 \/ exists row, rows (world s) = [row]
                                /\ r = {| data := Some row; error := None |}))
  \/ (exists e, select_single_under f rows s = (Raised e, s)).
Proof.
  unfold select_single_under. destruct f as [| e | e]; [| eauto ..].
  left. eexists. split; [reflexivity |].
  destruct (rows (world s)) as [| row [| row' rest]]; cbn; eauto.
Qed.

(** The uniqueness loop changes nothing; the code it ends with is not the
    code of exactly one organization, unless every turn was used up. *)
Lemma unique_code_loop_cases sv remaining : forall attempts code s,
  (exists final,
     unique_code_loop sv remaining attempts code s = (Done final, s)
     /\ (length (orgs_by_code final (world s)) <> 1%nat
         \/ code_lookup sv <> NoFault
         \/ final = (if remaining is O then code
                     else generateOrgCode (random_index sv)
                            (5 * (attempts + remaining)))))
  \/ (exists e, unique_code_loop sv remaining attempts code s = (Raised e, s)).
Proof.
  induction remaining as [| remaining IH]; intros attempts code s.
  - left. exists code. split; [reflexivity | auto].
  - cbn [unique_code_loop]. unfold bind, select_single_under.
    destruct (code_lookup sv) as [| e | e] eqn:Hf.
    + destruct (orgs_by_code code (world s)) as [| row [| row' rest]] eqn:Hrows;
        cbn [single data].
      * left. exists code. split; [reflexivity |]. left. rewrite Hrows.
        cbn. lia.
      * destruct (IH (S attempts)
                    (generateOrgCode (random_index sv) (5 * S attempts)) s)
          as [(final & Hrun & Hfinal) | [e Hrun]]; [| right; eauto].
        left. exists final. split; [exact Hrun |].
        destruct Hfinal as [H | [H | H]]; [auto | auto |].
        right. right. rewrite H.
        destruct remaining; f_equal; lia.
      * left. exists code. split; [reflexivity |]. left. rewrite Hrows.
        cbn. lia.
    + left. exists code. split; [reflexivity |]. right. left. discriminate.
    + right. eauto.
Qed.

Lemma admin_membership_cases sv b secret s :
  (exists r, admin_membership sv b secret s = (Sent r, s)
             /\ status r <> 200%Z)
  \/ (exists e, admin_membership sv b secret s = (Raised e, s))
  \/ (exists code,
        sb_admin_code b = Some secret
        /\ (length (orgs_by_code code (world s)) <> 1%nat
            \/ code_lookup sv <> NoFault
            \/ code = generateOrgCode (random_index sv) 50)
        /\ admin_membership sv b secret s
           = (Done {| organizationId := Some (new_organization_id sv);
                      generatedOrgCode := Some code;
                      orgDefaultPermissions := None |},
              {| world := with_organizations
                            (organizations (world s)
                             ++ [signup_organization sv code]) (world s);
                 model_calls := model_calls s |})).
Proof.
  unfold admin_membership.
  destruct (negb (JS.truthy_string (sb_company_name b))
            || negb (JS.truthy_string (sb_admin_code b))).
  { left. eexists. split; [reflexivity | discriminate]. }
  destruct (bool_decide_reflect (sb_admin_code b = Some secret)) as [Hcode | Hcode];
    cbn [negb].
  2: { left. eexists. split; [reflexivity | discriminate]. }
  destruct (unique_code_loop_cases sv 10 0
              (generateOrgCode (random_index sv) 0) s)
    as [(code & Hrun & Hfinal) | [e Hrun]].
  2: { right. left. exists e. apply bind_raised. exact Hrun. }
  rewrite (bind_done _ _ _ _ _ Hrun). unfold bind, write_under.
  destruct (organization_create sv) as [| e | e].
  - right. right. exists code. split; [exact Hcode |]. split; [| reflexivity].
    exact Hfinal.
  - right. left. eexists. reflexivity.
  - right. left. eexists. reflexivity.
Qed.

Lemma employee_membership_cases sv b s :
  (exists r, employee_membership sv b s = (Sent r, s) /\ status r <> 200%Z)
  \/ (exists e, employee_membership sv b s = (Raised e, s))
  \/ (exists code org,
        sb_org_code b = Some code
        /\ orgs_by_code (su_toUpperCase sv (su_trim sv code)) (world s) = [org]
        /\ employee_membership sv b s
           = (Done {| organizationId := Some (org_id org);
                      generatedOrgCode := Some (org_code org);
                      orgDefaultPermissions := Some (defaultPermissions org) |},
              s)).
Proof.
  unfold employee_membership.
  destruct (sb_org_code b) as [code |];
    [| left; eexists; split; [reflexivity | discriminate]].
  destruct (negb (JS.truthy_string (Some code)));
    [left; eexists; split; [reflexivity | discriminate] |].
  unfold bind, select_single_under.
  destruct (organization_lookup sv) as [| e | e].
  - destruct (orgs_by_code _ (world s)) as [| org [| org' rest]] eqn:Hrows;
      cbn [single data error].
    + left. eexists. split; [reflexivity | discriminate].
    + right. right. exists code, org. auto.
    + left. eexists. split; [reflexivity | discriminate].
  - left. eexists. split; [reflexivity | discriminate].
  - right. left. eauto.
Qed.

(** The users table after a signup that went through: the row inserted,
    or the role, the organization and the first name written over the row
    that was there. *)
Lemma create_profile_cases sv id email first_name role m s :
  (exists e, create_profile sv id email first_name role m s = (Raised e, s))
  \/ (exists r,
        status r = 200%Z
        /\ create_profile sv id email first_name role m s
           = (Sent r,
              {| world :=
                   with_users
                     (<[id :=
                          match users (world s) !! id with
                          | Some u =>
                              signup_update first_name role (organizationId m) u
                          | None =>
                              signup_profile email first_name role
                                (organizationId m)
                                (if String.eqb role "admin"
                                 then admin_permissions
                                 else JS.nullish (orgDefaultPermissions m)
                                        fallback_permissions)
                          end]> (users (world s)))
                     (world s);
                 model_calls := model_calls s |})
        /\ profile_insert sv = NoFault).
Proof.
  unfold create_profile. cbv zeta.
  rewrite (bind_done _ _ s (world s) s) by reflexivity.
  destruct (users (world s) !! id) as [u |] eqn:Hu.
  - destruct (profile_insert sv) as [| e | e]; [| left; eauto ..].
    unfold bind, write_under.
    destruct (profile_update sv) as [| e | e]; [| left; eauto ..].
    right. eexists. split; [| split; [| reflexivity]].
    2: { unfold succeed. do 3 f_equal.
         apply map_eq. intros k. destruct (decide (k = id)) as [-> | Hne].
         - rewrite lookup_alter_eq, lookup_insert_eq, Hu. reflexivity.
         - rewrite lookup_alter_ne, lookup_insert_ne by congruence.
           reflexivity. }
    reflexivity.
  - unfold bind, write_under.
    destruct (profile_insert sv) as [| e | e]; [| left; eauto ..].
    right. eexists. split; [| split; [reflexivity | reflexivity]].
    reflexivity.
Qed.

(** The three ways a signup ends: refused with nothing changed; an
    administrator's signup whose organization is inserted and whose
    profile fails; the profile written. *)
Lemma signup_cases sv b s :
  (exists r, signup sv b s = (Sent r, s) /\ status r <> 200%Z)
  \/ (exists r code,
        status r = 500%Z
        /\ sb_role b = Some "admin"
        /\ sb_admin_code b = Some (ADMIN_SECRET_of sv)
        /\ signup sv b s
           = (Sent r,
              {| world := with_organizations
                            (organizations (world s)
                             ++ [signup_organization sv code]) (world s);
                 model_calls := model_calls s |}))
  \/ (exists r id email first_name role m orgs,
        status r = 200%Z
        /\ sb_auth_user_id b = Some id
        /\ sb_email b = Some email
        /\ sb_first_name b = Some first_name
        /\ sb_role b = Some role
        /\ id <> "" /\ email <> "" /\ first_name <> ""
        /\ profile_insert sv = NoFault
        /\ ((role = "admin"
             /\ sb_admin_code b = Some (ADMIN_SECRET_of sv)
             /\ exists code,
                  m = {| organizationId := Some (new_organization_id sv);
                         generatedOrgCode := Some code;
                         orgDefaultPermissions := None |}
                  /\ orgs = organizations (world s)
                            ++ [signup_organization sv code]
                  /\ (length (orgs_by_code code (world s)) <> 1%nat
                      \/ code_lookup sv <> NoFault
                      \/ code = generateOrgCode (random_index sv) 50))
            \/ (role = "employee"
                /\ orgs = organizations (world s)
                /\ exists code org,
                     sb_org_code b = Some code
                     /\ orgs_by_code (su_toUpperCase sv (su_trim sv code))
                          (world s) = [org]
                     /\ m = {| organizationId := Some (org_id org);
                               generatedOrgCode := Some (org_code org);
                               orgDefaultPermissions :=
                                 Some (defaultPermissions org) |}))
        /\ signup sv b s
           = (Sent r,
              signed_up orgs id
                (signup_row email first_name role (organizationId m)
                   (if String.eqb role "admin" then admin_permissions
                    else JS.nullish (orgDefaultPermissions m)
                           fallback_permissions)
                   (users (world s) !! id))
                s)).
Proof.
  unfold signup, try_catch. cbv zeta. fold (ADMIN_SECRET_of sv).
  destruct (sb_auth_user_id b) as [id |];
    [| left; eexists; split; [reflexivity | discriminate]].
  destruct (sb_email b) as [email |];
    [| left; eexists; split; [reflexivity | discriminate]].
  destruct (sb_first_name b) as [first_name |];
    [| left; eexists; split; [reflexivity | discriminate]].
  destruct (sb_role b) as [role |];
    [| left; eexists; split; [reflexivity | discriminate]].
  destruct (String.eqb_spec id "") as [-> | Hid];
    [left; eexists; split; [reflexivity | discriminate] |].
  destruct (String.eqb_spec email "") as [-> | Hemail].
  { left. rewrite truthy_string_nonempty by assumption.
    eexists. split; [reflexivity | discriminate]. }
  destruct (String.eqb_spec first_name "") as [-> | Hname].
  { left. rewrite !truthy_string_nonempty by assumption.
    eexists. split; [reflexivity | discriminate]. }
  destruct (String.eqb_spec role "") as [-> | Hrole].
  { left. rewrite !truthy_string_nonempty by assumption.
    eexists. split; [reflexivity | discriminate]. }
  rewrite !truthy_string_nonempty by assumption. cbn [negb orb].
  destruct (String.eqb_spec role "admin") as [-> | Hnot_admin]; cbn [orb negb].
  - (* administrator *)
    destruct (admin_membership_cases sv b (ADMIN_SECRET_of sv) s)
      as [(r & Hm & Hr) | [[e Hm] | (code & Hcode & Hfresh & Hm)]].
    + left. rewrite (bind_sent _ _ _ _ _ Hm). eauto.
    + left. rewrite (bind_raised _ _ _ _ _ Hm).
      eexists. split; [reflexivity | discriminate].
    + rewrite (bind_done _ _ _ _ _ Hm).
      match goal with
      | |- context [create_profile sv id email first_name "admin" ?m ?s1] =>
          destruct (create_profile_cases sv id email first_name "admin" m s1)
            as [[e Hp] | (r & Hr & Hp & Hins)]
      end; rewrite Hp.
      * right. left. eexists _, code.
        split; [| split; [reflexivity | split; [exact Hcode | reflexivity]]].
        reflexivity.
      * right. right.
        eexists r, id, email, first_name, "admin", _, _.
        repeat (split; [first [assumption | reflexivity] |]).
        split; [left; split; [reflexivity |]; split; [exact Hcode |];
                exists code; auto |].
        reflexivity.
  - destruct (String.eqb_spec role "employee") as [-> | Hnot_employee];
      cbn [negb].
    2: { left. eexists. split; [reflexivity | discriminate]. }
    destruct (employee_membership_cases sv b s)
      as [(r & Hm & Hr) | [[e Hm] | (code & org & Hcode & Horg & Hm)]].
    + left. rewrite (bind_sent _ _ _ _ _ Hm). eauto.
    + left. rewrite (bind_raised _ _ _ _ _ Hm).
      eexists. split; [reflexivity | discriminate].
    + rewrite (bind_done _ _ _ _ _ Hm).
      match goal with
      | |- context [create_profile sv id email first_name "employee" ?m ?s1] =>
          destruct (create_profile_cases sv id email first_name "employee" m s1)
            as [[e Hp] | (r & Hr & Hp & Hins)]
      end; rewrite Hp.
      * left. eexists. split; [reflexivity | discriminate].
      * right. right.
        eexists r, id, email, first_name, "employee", _, _.
        repeat (split; [first [assumption | reflexivity] |]).
        split; [right; split; [reflexivity |]; split; [reflexivity |];
                exists code, org; auto |].
        reflexivity.
Qed.

Lemma signed_up_lookup orgs id row s k :
  users (world (signed_up orgs id row s)) !! k
  = if decide (k = id) then Some row else users (world s) !! k.
Proof.
  cbn [signed_up world users with_users].
  destruct (decide (k = id)) as [-> | Hne].
  - apply lookup_insert_eq.
  - apply lookup_insert_ne. congruence.
Qed.

(** X24. A signup that is answered 200 has written one row of the users
    table, the one of [auth_user_id], and no token was asked for it.  For
    an id without row the row is the profile of the body with the
    permissions of its role; for an id that has a row, the role, the
    organization and the first name are written over it and its
    permissions and e-mail stay.  As an administrator the body carried the
    admin code and a new organization was inserted; as an employee the
    organization is the one organization that has the code of the body,
    trimmed and upper-cased, and its defaults are the permissions. *)
Theorem signup_writes_role_and_organization
    (sv : SignupEnv) (b : SignupBody) (s : Sys) (r : Response) :
  (signup sv b s).1 = Sent r ->
  status r = 200%Z ->
  exists id email first_name role organization p,
    sb_auth_user_id b = Some id
    /\ sb_email b = Some email
    /\ sb_first_name b = Some first_name
    /\ sb_role b = Some role
    /\ users (world (signup sv b s).2) !! id
       = Some (signup_row email first_name role (Some organization) p
                 (users (world s) !! id))
    /\ (forall k, k <> id ->
          users (world (signup sv b s).2) !! k = users (world s) !! k)
    /\ ((role = "admin"
         /\ sb_admin_code b = Some (ADMIN_SECRET_of sv)
         /\ p = admin_permissions
         /\ organization = new_organization_id sv
         /\ exists code,
              organizations (world (signup sv b s).2)
              = organizations (world s) ++ [signup_organization sv code])
        \/ (role = "employee"
            /\ organizations (world (signup sv b s).2)
               = organizations (world s)
            /\ exists code org,
                 sb_org_code b = Some code
                 /\ orgs_by_code (su_toUpperCase sv (su_trim sv code))
                      (world s) = [org]
                 /\ organization = org_id org
                 /\ p = defaultPermissions org))
    /\ conversations (world (signup sv b s).2) = conversations (world s)
    /\ daily_usage (world (signup sv b s).2) = daily_usage (world s)
    /\ messages (world (signup sv b s).2) = messages (world s).
Proof.
  intros Hsent Hstatus.
  destruct (signup_cases sv b s)
    as [(r' & Hrun & Hr') | [(r' & code & Hr' & _ & _ & Hrun)
       | (r' & id & email & first_name & role & m & orgs & _ & Hid & Hemail
          & Hname & Hrole & _ & _ & _ & _ & Hbranch & Hrun)]];
    rewrite Hrun in Hsent |- *; injection Hsent as <-; cbn [snd].
  - contradiction.
  - lia.
  - destruct Hbranch as [(-> & Hcode & code & -> & -> & _)
                        | (-> & -> & code & org & Hcode & Horg & ->)].
    + exists id, email, first_name, "admin", (new_organization_id sv),
        admin_permissions.
      repeat (split; [assumption |]).
      split; [rewrite signed_up_lookup;
              destruct (decide (id = id)); [reflexivity | congruence] |].
      split.
      { intros k Hk. rewrite signed_up_lookup.
        destruct (decide (k = id)); [congruence | reflexivity]. }
      split.
      { left. split; [reflexivity |]. split; [exact Hcode |].
        split; [reflexivity |]. split; [reflexivity |].
        exists code. reflexivity. }
      repeat split.
    + exists id, email, first_name, "employee", (org_id org),
        (defaultPermissions org).
      repeat (split; [assumption |]).
      split; [rewrite signed_up_lookup;
              destruct (decide (id = id)); [reflexivity | congruence] |].
      split.
      { intros k Hk. rewrite signed_up_lookup.
        destruct (decide (k = id)); [congruence | reflexivity]. }
      split.
      { right. split; [reflexivity |]. split; [reflexivity |].
        exists code, org. auto. }
      repeat split.
Qed.

Lemma signup_writes_role_and_organization_witness :
  exists organization p,
    users (world (signup Sample6.sv Sample6.employee_signup Sample6.no_users).2)
      !! "u2"
    = Some (signup_row "paul@example.com" "Paul" "employee"
              (Some organization) p None).
Proof.
  destruct (signup_writes_role_and_organization Sample6.sv
              Sample6.employee_signup Sample6.no_users
              (signup_success
                 (signup_profile "paul@example.com" "Paul" "employee"
                    (Some "org-1")
                    (defaultPermissions (Sample.org_uploads true)))
                 {| organizationId := Some "org-1";
                    generatedOrgCode := Some "ORG-AB12C";
                    orgDefaultPermissions :=
                      Some (defaultPermissions (Sample.org_uploads true)) |}
                 "Compte créé avec succès")
              eq_refl eq_refl)
    as (id & email & first_name & role & organization & p
        & Hid & Hemail & Hname & Hrole & Hrow & _).
  cbn in Hid, Hemail, Hname, Hrole.
  injection Hid as <-. injection Hemail as <-. injection Hname as <-.
  injection Hrole as <-.
  exists organization, p. exact Hrow.
Defined.

Lemma employee_signup_run sv b s uid email first_name code org :
  sb_auth_user_id b = Some uid -> uid <> "" ->
  sb_email b = Some email -> email <> "" ->
  sb_first_name b = Some first_name -> first_name <> "" ->
  sb_role b = Some "employee" ->
  sb_org_code b = Some code -> code <> "" ->
  organization_lookup sv = NoFault ->
  profile_insert sv = NoFault ->
  orgs_by_code (su_toUpperCase sv (su_trim sv code)) (world s) = [org] ->
  users (world s) !! uid = None ->
  signup sv b s
  = (Sent (signup_success
             (join_update org (blank_profile email first_name))
             {| organizationId := Some (org_id org);
                generatedOrgCode := Some (org_code org);
                orgDefaultPermissions := Some (defaultPermissions org) |}
             "Compte créé avec succès"),
     {| world := with_users
                   (<[uid := join_update org (blank_profile email first_name)]>
                      (users (world s))) (world s);
        model_calls := model_calls s |}).
Proof.
  intros Hid Hid' Hemail Hemail' Hname Hname' Hrole Hcode Hcode' Hlookup
    Hinsert Horg Hnone.
  unfold signup, try_catch. cbv zeta.
  rewrite Hid, Hemail, Hname, Hrole.
  rewrite !truthy_string_nonempty by (assumption || discriminate).
  cbn [negb orb String.eqb Ascii.eqb Bool.eqb].
  assert (Hm : employee_membership sv b s
               = (Done {| organizationId := Some (org_id org);
                          generatedOrgCode := Some (org_code org);
                          orgDefaultPermissions :=
                            Some (defaultPermissions org) |}, s)).
  { unfold employee_membership. rewrite Hcode.
    rewrite truthy_string_nonempty by assumption. cbn [negb].
    unfold bind, select_single_under. rewrite Hlookup, Horg. reflexivity. }
  rewrite (bind_done _ _ _ _ _ Hm).
  unfold create_profile, bind, get_world, write_under. cbv zeta.
  rewrite Hnone, Hinsert. reflexivity.
Qed.

(** X25. Signing up as an employee writes what joining writes.  For an id
    without row, with the one organization that has the code of the body
    and the calls working, the signup is answered 200 and the row it
    inserts carries the role employee, the organization and, for each
    permission, the default of the organization or the fallback: the
    users table is then the same as after a blank profile for that id has
    joined the organization through [POST /api/organizations/join]. *)
Theorem employee_signup_writes_what_join_writes
    (sv : SignupEnv) (b : SignupBody) (s : Sys)
    (uid email first_name code : string) (org : OrgRow) :
  sb_auth_user_id b = Some uid -> uid <> "" ->
  sb_email b = Some email -> email <> "" ->
  sb_first_name b = Some first_name -> first_name <> "" ->
  sb_role b = Some "employee" ->
  sb_org_code b = Some code -> code <> "" ->
  organization_lookup sv = NoFault ->
  profile_insert sv = NoFault ->
  orgs_by_code (su_toUpperCase sv (su_trim sv code)) (world s) = [org] ->
  users (world s) !! uid = None ->
  (exists r, (signup sv b s).1 = Sent r /\ status r = 200%Z)
  /\ users (world (signup sv b s).2)
     = <[uid := join_update org (blank_profile email first_name)]>
         (users (world s))
  /\ (forall env req au joined,
        req_user req = Some au ->
        id au = uid ->
        body_org_code (req_body (http req)) = Some joined ->
        toUpperCase env joined = su_toUpperCase sv (su_trim sv code) ->
        db_fault env JoinOrg = NoFault ->
        db_fault env JoinUser = NoFault ->
        users (world (join_handler env req
                        (with_blank_profile uid email first_name s)).2)
        = users (world (signup sv b s).2)).
Proof.
  intros Hid Hid' Hemail Hemail' Hname Hname' Hrole Hcode Hcode' Hlookup
    Hinsert Horg Hnone.
  pose proof (employee_signup_run sv b s uid email first_name code org
                Hid Hid' Hemail Hemail' Hname Hname' Hrole Hcode Hcode'
                Hlookup Hinsert Horg Hnone) as Hrun.
  rewrite Hrun. cbn [fst snd world users with_users].
  split; [eexists; split; reflexivity |]. split; [reflexivity |].
  intros env req au joined Hau Hauid Hjoined Hupper Hf1 Hf2.
  rewrite (join_handler_run env req _ au joined org
             (blank_profile email first_name) Hau Hjoined Hf1 Hf2).
  - cbn [snd world users with_users with_blank_profile].
    rewrite Hauid.
    apply map_eq. intros k. destruct (decide (k = uid)) as [-> | Hne].
    + rewrite lookup_alter_eq, !lookup_insert_eq. reflexivity.
    + rewrite lookup_alter_ne, !lookup_insert_ne by congruence. reflexivity.
  - rewrite Hupper. exact Horg.
  - rewrite Hauid.
    cbn [with_blank_profile world users with_users].
    apply lookup_insert_eq.
Qed.

Lemma employee_signup_writes_what_join_writes_witness :
  users (world (signup Sample6.sv Sample6.employee_signup Sample6.no_users).2)
  = <["u2" := join_update (Sample.org_uploads true)
                (blank_profile "paul@example.com" "Paul")]>
      (users (world Sample6.no_users)).
Proof.
  apply (employee_signup_writes_what_join_writes Sample6.sv
           Sample6.employee_signup Sample6.no_users
           "u2" "paul@example.com" "Paul" "ORG-AB12C"
           (Sample.org_uploads true));
    first [reflexivity | discriminate].
Defined.

(** With the uniqueness query working the loop never throws. *)
Lemma unique_code_loop_done sv remaining : forall attempts code s,
  code_lookup sv = NoFault ->
  exists final,
    unique_code_loop sv remaining attempts code s = (Done final, s)
    /\ (length (orgs_by_code final (world s)) <> 1%nat
        \/ final = (if remaining is O then code
                    else generateOrgCode (random_index sv)
                           (5 * (attempts + remaining)))).
Proof.
  intros attempts code s Hf.
  destruct (unique_code_loop_cases sv remaining attempts code s)
    as [(final & Hrun & [H | [H | H]]) | [e Hrun]]; [eauto | congruence | eauto |].
  exfalso. revert attempts code Hrun.
  induction remaining as [| remaining IH]; intros attempts code;
    [discriminate |].
  cbn [unique_code_loop]. unfold bind, select_single_under. rewrite Hf.
  destruct (data (single (orgs_by_code code (world s))));
    [apply IH | discriminate].
Qed.

Lemma ADMIN_SECRET_nonempty sv : ADMIN_SECRET_of sv <> "".
Proof.
  unfold ADMIN_SECRET_of, JS.string_or.
  destruct (env_ADMIN_CREATION_CODE sv) as [c1 |].
  - destruct (String.eqb_spec c1 ""); [| assumption].
    destruct (env_ADMIN_SECRET_CODE sv) as [c2 |]; [| discriminate].
    destruct (String.eqb_spec c2 ""); [discriminate | assumption].
  - destruct (env_ADMIN_SECRET_CODE sv) as [c2 |]; [| discriminate].
    destruct (String.eqb_spec c2 ""); [discriminate | assumption].
Qed.

(** X26. Signing up as an administrator, with the admin code, a company
    name and an id without row, is answered 200 when the database calls
    work.  It inserts one organization with the defaults no RAG, uploads
    allowed, no edits, no deletions and 50 messages a day, and the profile
    of an administrator of it with every permission and a quota of 999999,
    whom the quota check never stops.  The code of the organization is not
    the code of exactly one organization, unless ten codes in a row were
    taken: the eleventh is used unchecked. *)
Theorem admin_signup_creates_the_organization
    (sv : SignupEnv) (b : SignupBody) (s : Sys)
    (uid email first_name company : string) :
  sb_auth_user_id b = Some uid -> uid <> "" ->
  sb_email b = Some email -> email <> "" ->
  sb_first_name b = Some first_name -> first_name <> "" ->
  sb_role b = Some "admin" ->
  sb_company_name b = Some company -> company <> "" ->
  sb_admin_code b = Some (ADMIN_SECRET_of sv) ->
  code_lookup sv = NoFault ->
  organization_create sv = NoFault ->
  profile_insert sv = NoFault ->
  users (world s) !! uid = None ->
  exists r code,
    (signup sv b s).1 = Sent r
    /\ status r = 200%Z
    /\ organizations (world (signup sv b s).2)
       = organizations (world s) ++ [signup_organization sv code]
    /\ (length (orgs_by_code code (world s)) <> 1%nat
        \/ code = generateOrgCode (random_index sv) 50)
    /\ users (world (signup sv b s).2)
       = <[uid := signup_profile email first_name "admin"
                    (Some (new_organization_id sv)) admin_permissions]>
           (users (world s))
    /\ (forall env req au,
          req_user req = Some au ->
          id au = uid ->
          checkDailyQuota env req (signup sv b s).2
          = (Done req, (signup sv b s).2)).
Proof.
  intros Hid Hid' Hemail Hemail' Hname Hname' Hrole Hcompany Hcompany' Hcode
    Hlookup Hcreate Hinsert Hnone.
  destruct (unique_code_loop_done sv 10 0
              (generateOrgCode (random_index sv) 0) s Hlookup)
    as (code & Hloop & Hfresh).
  assert (Hm : admin_membership sv b (ADMIN_SECRET_of sv) s
               = (Done {| organizationId := Some (new_organization_id sv);
                          generatedOrgCode := Some code;
                          orgDefaultPermissions := None |},
                  {| world := with_organizations
                                (organizations (world s)
                                 ++ [signup_organization sv code]) (world s);
                     model_calls := model_calls s |})).
  { unfold admin_membership. rewrite Hcompany, Hcode.
    rewrite !truthy_string_nonempty
      by (assumption || apply ADMIN_SECRET_nonempty).
    cbn [negb orb]. rewrite bool_decide_eq_true_2 by reflexivity.
    cbn [negb]. rewrite (bind_done _ _ _ _ _ Hloop).
    unfold bind, write_under. rewrite Hcreate. reflexivity. }
  assert (Hrun : signup sv b s
                 = (Sent (signup_success
                            (signup_profile email first_name "admin"
                               (Some (new_organization_id sv))
                               admin_permissions)
                            {| organizationId := Some (new_organization_id sv);
                               generatedOrgCode := Some code;
                               orgDefaultPermissions := None |}
                            ("Organisation créée : " ++ code)),
                    signed_up
                      (organizations (world s) ++ [signup_organization sv code])
                      uid
                      (signup_profile email first_name "admin"
                         (Some (new_organization_id sv)) admin_permissions)
                      s)).
  { unfold signup, try_catch. cbv zeta. fold (ADMIN_SECRET_of sv).
    rewrite Hid, Hemail, Hname, Hrole.
    rewrite !truthy_string_nonempty by (assumption || discriminate).
    cbn [negb orb String.eqb Ascii.eqb Bool.eqb].
    rewrite (bind_done _ _ _ _ _ Hm).
    unfold create_profile, bind, get_world, write_under. cbv zeta.
    cbn [world users with_organizations String.eqb Ascii.eqb Bool.eqb].
    rewrite Hnone, Hinsert. reflexivity. }
  rewrite Hrun. cbn [fst snd]. eexists _, code.
  split; [reflexivity |]. split; [reflexivity |].
  split; [reflexivity |]. split; [exact Hfresh |].
  split; [reflexivity |].
  intros env req au Hau Hauid.
  apply (checkDailyQuota_unlimited env req _ au
           (signup_profile email first_name "admin"
              (Some (new_organization_id sv)) admin_permissions) Hau).
  - cbn [signed_up world users with_users]. rewrite Hauid.
    apply lookup_insert_eq.
  - left. reflexivity.
Qed.

Lemma admin_signup_creates_the_organization_witness :
  exists code,
    organizations
      (world (signup Sample6.sv Sample6.admin_signup Sample6.no_users).2)
    = organizations (world Sample6.no_users)
      ++ [signup_organization Sample6.sv code].
Proof.
  destruct (admin_signup_creates_the_organization Sample6.sv
              Sample6.admin_signup Sample6.no_users
              "a2" "anne@example.com" "Anne" "Cabinet Anne"
              eq_refl ltac:(discriminate) eq_refl ltac:(discriminate)
              eq_refl ltac:(discriminate) eq_refl eq_refl ltac:(discriminate)
              eq_refl eq_refl eq_refl eq_refl eq_refl)
    as (r & code & _ & _ & Horg & _).
  exists code. exact Horg.
Defined.

(** X27. A signup that is not answered 200 writes no row of the users
    table, and nothing else but, at most, one organization: either the
    organizations are as they were, or the answer is 500, the body asked
    for an administrator with the admin code, and the organization the
    signup inserted before it failed is still there. *)
Theorem failed_signup_writes_no_profile
    (sv : SignupEnv) (b : SignupBody) (s : Sys) (r : Response) :
  (signup sv b s).1 = Sent r ->
  status r <> 200%Z ->
  users (world (signup sv b s).2) = users (world s)
  /\ conversations (world (signup sv b s).2) = conversations (world s)
  /\ daily_usage (world (signup sv b s).2) = daily_usage (world s)
  /\ messages (world (signup sv b s).2) = messages (world s)
  /\ model_calls (signup sv b s).2 = model_calls s
  /\ (organizations (world (signup sv b s).2) = organizations (world s)
      \/ (status r = 500%Z
          /\ sb_role b = Some "admin"
          /\ sb_admin_code b = Some (ADMIN_SECRET_of sv)
          /\ exists code,
               organizations (world (signup sv b s).2)
               = organizations (world s) ++ [signup_organization sv code])).
Proof.
  intros Hsent Hstatus.
  destruct (signup_cases sv b s)
    as [(r' & Hrun & Hr') | [(r' & code & Hr' & Hrole & Hcode & Hrun)
       | (r' & id & email & first_name & role & m & orgs & Hr' & _ & _
          & _ & _ & _ & _ & _ & _ & _ & Hrun)]];
    rewrite Hrun in Hsent |- *; injection Hsent as <-; cbn [snd].
  - repeat (split; [reflexivity |]). left. reflexivity.
  - repeat (split; [reflexivity |]). right.
    split; [exact Hr' |]. split; [exact Hrole |]. split; [exact Hcode |].
    exists code. reflexivity.
  - contradiction.
Qed.

Lemma failed_signup_writes_no_profile_witness :
  users (world (signup Sample6.sv_profile_down Sample6.admin_signup
                  Sample6.no_users).2)
  = users (world Sample6.no_users).
Proof.
  apply (failed_signup_writes_no_profile Sample6.sv_profile_down
           Sample6.admin_signup Sample6.no_users
           (signup_refusal 500 "Erreur création profil utilisateur"));
    [reflexivity | discriminate].
Defined.

Lemma create_profile_fails sv id email first_name role m s :
  profile_insert sv <> NoFault ->
  exists e, create_profile sv id email first_name role m s = (Raised e, s).
Proof.
  intros Hf. unfold create_profile. cbv zeta.
  rewrite (bind_done _ _ s (world s) s) by reflexivity.
  destruct (users (world s) !! id) as [u |].
  - destruct (profile_insert sv) as [| e | e]; [contradiction | eauto ..].
  - unfold bind, write_under.
    destruct (profile_insert sv) as [| e | e]; [contradiction | eauto ..].
Qed.

Lemma admin_membership_run sv b s company :
  sb_company_name b = Some company -> company <> "" ->
  sb_admin_code b = Some (ADMIN_SECRET_of sv) ->
  code_lookup sv = NoFault ->
  organization_create sv = NoFault ->
  exists code,
    (length (orgs_by_code code (world s)) <> 1%nat
     \/ code = generateOrgCode (random_index sv) 50)
    /\ admin_membership sv b (ADMIN_SECRET_of sv) s
       = (Done {| organizationId := Some (new_organization_id sv);
                  generatedOrgCode := Some code;
                  orgDefaultPermissions := None |},
          {| world := with_organizations
                        (organizations (world s)
                         ++ [signup_organization sv code]) (world s);
             model_calls := model_calls s |}).
Proof.
  intros Hcompany Hcompany' Hcode Hlookup Hcreate.
  destruct (unique_code_loop_done sv 10 0
              (generateOrgCode (random_index sv) 0) s Hlookup)
    as (code & Hloop & Hfresh).
  exists code. split; [exact Hfresh |].
  unfold admin_membership. rewrite Hcompany, Hcode.
  rewrite !truthy_string_nonempty
    by (assumption || apply ADMIN_SECRET_nonempty).
  cbn [negb orb]. rewrite bool_decide_eq_true_2 by reflexivity.
  cbn [negb]. rewrite (bind_done _ _ _ _ _ Hloop).
  unfold bind, write_under. rewrite Hcreate. reflexivity.
Qed.

(** X28. The signup of an administrator is not undone when its second
    write fails.  With the admin code and a company name, and the
    organization inserted, a failure of the insert into the users table is
    answered 500 and leaves the new organization in the table, while the
    users table is as it was: the organization has no administrator. *)
Theorem failed_profile_leaves_the_organization
    (sv : SignupEnv) (b : SignupBody) (s : Sys)
    (uid email first_name company : string) :
  sb_auth_user_id b = Some uid -> uid <> "" ->
  sb_email b = Some email -> email <> "" ->
  sb_first_name b = Some first_name -> first_name <> "" ->
  sb_role b = Some "admin" ->
  sb_company_name b = Some company -> company <> "" ->
  sb_admin_code b = Some (ADMIN_SECRET_of sv) ->
  code_lookup sv = NoFault ->
  organization_create sv = NoFault ->
  profile_insert sv <> NoFault ->
  exists r code,
    (signup sv b s).1 = Sent r
    /\ status r = 500%Z
    /\ organizations (world (signup sv b s).2)
       = organizations (world s) ++ [signup_organization sv code]
    /\ users (world (signup sv b s).2) = users (world s).
Proof.
  intros Hid Hid' Hemail Hemail' Hname Hname' Hrole Hcompany Hcompany' Hcode
    Hlookup Hcreate Hinsert.
  destruct (admin_membership_run sv b s company Hcompany Hcompany' Hcode
              Hlookup Hcreate) as (code & _ & Hm).
  match type of Hm with
  | _ = (Done ?m, ?s1) =>
      destruct (create_profile_fails sv uid email first_name "admin" m s1
                  Hinsert) as [e Hp]
  end.
  assert (Hrun : signup sv b s
                 = (Sent (signup_refusal 500
                            (JS.string_or (Some e) "Erreur création compte")),
                    {| world := with_organizations
                                  (organizations (world s)
                                   ++ [signup_organization sv code]) (world s);
                       model_calls := model_calls s |})).
  { unfold signup, try_catch. cbv zeta. fold (ADMIN_SECRET_of sv).
    rewrite Hid, Hemail, Hname, Hrole.
    rewrite !truthy_string_nonempty by (assumption || discriminate).
    cbn [negb orb String.eqb Ascii.eqb Bool.eqb].
    rewrite (bind_done _ _ _ _ _ Hm), Hp. reflexivity. }
  rewrite Hrun. cbn [fst snd]. eexists _, code.
  repeat (split; [reflexivity |]). reflexivity.
Qed.

Lemma failed_profile_leaves_the_organization_witness :
  exists code,
    organizations
      (world (signup Sample6.sv_profile_down Sample6.admin_signup
                Sample6.no_users).2)
    = organizations (world Sample6.no_users)
      ++ [signup_organization Sample6.sv_profile_down code].
Proof.
  destruct (failed_profile_leaves_the_organization Sample6.sv_profile_down
              Sample6.admin_signup Sample6.no_users
              "a2" "anne@example.com" "Anne" "Cabinet Anne"
              eq_refl ltac:(discriminate) eq_refl ltac:(discriminate)
              eq_refl ltac:(discriminate) eq_refl eq_refl ltac:(discriminate)
              eq_refl eq_refl eq_refl ltac:(discriminate))
    as (r & code & _ & _ & Horg & _).
  exists code. exact Horg.
Defined.

Lemma validated_secret_nonempty sv :
  JS.string_or (env_ADMIN_SECRET_CODE sv) "AIOS-ADMIN-2025" <> "".
Proof.
  unfold JS.string_or.
  destruct (env_ADMIN_SECRET_CODE sv) as [c |]; [| discriminate].
  destruct (String.eqb_spec c ""); [discriminate | assumption].
Qed.

(** X29. The code [POST /api/validate-admin-code] accepts is not always
    the one the signup asks for.  The validation compares with
    [ADMIN_SECRET_CODE] or the built-in code; the signup first looks at
    [ADMIN_CREATION_CODE].  So with [ADMIN_CREATION_CODE] set to another,
    non-empty value, the signup of an administrator with a code that was
    judged valid is refused with 403 and changes nothing; with the
    variable unset, empty or equal to the code, it is not refused: the
    answer is 200 or 500. *)
Theorem validated_admin_code_may_be_refused
    (sv : SignupEnv) (b : SignupBody) (s : Sys)
    (uid email first_name company code : string) :
  sb_auth_user_id b = Some uid -> uid <> "" ->
  sb_email b = Some email -> email <> "" ->
  sb_first_name b = Some first_name -> first_name <> "" ->
  sb_role b = Some "admin" ->
  sb_company_name b = Some company -> company <> "" ->
  sb_admin_code b = Some code ->
  validate_admin_code sv (Some code) = valid_answer true ->
  (forall k,
     env_ADMIN_CREATION_CODE sv = Some k -> k <> "" -> k <> code ->
     signup sv b s
     = (Sent (signup_refusal 403 "Code administrateur incorrect"), s))
  /\ (JS.string_or (env_ADMIN_CREATION_CODE sv) code = code ->
      exists r, (signup sv b s).1 = Sent r
                /\ (status r = 200%Z \/ status r = 500%Z)).
Proof.
  intros Hid Hid' Hemail Hemail' Hname Hname' Hrole Hcompany Hcompany' Hcode
    Hvalid.
  assert (Hsecret : code
                    = JS.string_or (env_ADMIN_SECRET_CODE sv) "AIOS-ADMIN-2025").
  { unfold validate_admin_code, valid_answer in Hvalid. cbv zeta in Hvalid.
    injection Hvalid as Hvalid. apply bool_decide_eq_true_1 in Hvalid.
    congruence. }
  assert (Hcode' : code <> "")
    by (rewrite Hsecret; apply validated_secret_nonempty).
  assert (Hstart : signup sv b s
                   = try_catch
                       (m <- admin_membership sv b (ADMIN_SECRET_of sv) ;;
                        create_profile sv uid email first_name "admin" m)
                       (fun e => refuse 500
                                   (JS.string_or (Some e)
                                      "Erreur création compte")) s).
  { unfold signup, try_catch. cbv zeta. fold (ADMIN_SECRET_of sv).
    rewrite Hid, Hemail, Hname, Hrole.
    rewrite !truthy_string_nonempty by (assumption || discriminate).
    reflexivity. }
  split.
  - intros k Hk Hk' Hne. rewrite Hstart. unfold try_catch.
    assert (Hm : admin_membership sv b (ADMIN_SECRET_of sv) s
                 = (Sent (signup_refusal 403 "Code administrateur incorrect"),
                    s)).
    { unfold admin_membership. rewrite Hcompany, Hcode.
      rewrite !truthy_string_nonempty by assumption. cbn [negb orb].
      rewrite bool_decide_eq_false_2; [reflexivity |].
      unfold ADMIN_SECRET_of, JS.string_or at 1. rewrite Hk.
      destruct (String.eqb_spec k ""); [contradiction | congruence]. }
    rewrite (bind_sent _ _ _ _ _ Hm). reflexivity.
  - intros Hsame.
    assert (Hof : ADMIN_SECRET_of sv = code).
    { unfold ADMIN_SECRET_of. rewrite <- Hsecret. exact Hsame. }
    rewrite Hstart. unfold try_catch.
    destruct (admin_membership_cases sv b (ADMIN_SECRET_of sv) s)
      as [(r & Hm & Hr) | [[e Hm] | (c & _ & _ & Hm)]].
    + exfalso. revert Hm. unfold admin_membership. rewrite Hcompany, Hcode.
      rewrite !truthy_string_nonempty by assumption. cbn [negb orb].
      rewrite bool_decide_eq_true_2 by congruence. cbn [negb].
      destruct (unique_code_loop_cases sv 10 0
                  (generateOrgCode (random_index sv) 0) s)
        as [(c & Hloop & _) | [e Hloop]].
      * rewrite (bind_done _ _ _ _ _ Hloop). unfold bind, write_under.
        destruct (organization_create sv); discriminate.
      * rewrite (bind_raised _ _ _ _ _ Hloop). discriminate.
    + rewrite (bind_raised _ _ _ _ _ Hm). eexists. split; [reflexivity |].
      right. reflexivity.
    + rewrite (bind_done _ _ _ _ _ Hm).
      match goal with
      | |- context [create_profile sv uid email first_name "admin" ?m ?s1] =>
          destruct (create_profile_cases sv uid email first_name "admin" m s1)
            as [[e Hp] | (r & Hr & Hp & _)]
      end; rewrite Hp.
      * eexists. split; [reflexivity |]. right. reflexivity.
      * exists r. split; [reflexivity |]. left. exact Hr.
Qed.

Lemma validated_admin_code_may_be_refused_witness :
  signup Sample6.sv_creation_code Sample6.admin_signup Sample6.no_users
  = (Sent (signup_refusal 403 "Code administrateur incorrect"),
     Sample6.no_users).
Proof.
  apply (validated_admin_code_may_be_refused Sample6.sv_creation_code
           Sample6.admin_signup Sample6.no_users
           "a2" "anne@example.com" "Anne" "Cabinet Anne" "AIOS-ADMIN-2025"
           eq_refl ltac:(discriminate) eq_refl ltac:(discriminate)
           eq_refl ltac:(discriminate) eq_refl eq_refl ltac:(discriminate)
           eq_refl eq_refl)
    with (k := "CREATE-2026"); [reflexivity | discriminate | discriminate].
Defined.

(** * The defaults of an organization *)

Lemma authenticateUser_claims env req s token u :
  bearer_token (http req) = Some token ->
  auth_getUser env token = Returned (Some u) ->
  exists au,
    id au = identity_id u
    /\ organization_id au = claimed_organization env token
    /\ authenticateUser env req s = (Done (authenticated req au), s).
Proof.
  unfold authenticateUser, bearer_token, try_catch, bind, lift_try, respond,
    ret, raise, authenticated, claimed_organization.
  destruct (authorization (http req)) as [a |]; [| discriminate].
  destruct (String.prefix "Bearer " a) eqn:Hprefix; [| discriminate].
  intros [= <-] Hu.
  assert (JS.truthy_string (Some a) = true) as ->.
  { destruct a; [discriminate | reflexivity]. }
  cbn [negb orb]. rewrite Hu.
  eexists. split; [| split; [| reflexivity]]; reflexivity.
Qed.

Lemma patch_organization_handler_run f req orgId updates s au :
  req_user req = Some au ->
  patch_organization_handler f req orgId updates s
  = if bool_decide (organization_id au = Some orgId)
    then match f with
         | NoFault =>
             (Sent {| status := 200; body := JObj [("success", JBool true)] |},
              {| world := with_organization_updates orgId updates (world s);
                 model_calls := model_calls s |})
         | _ =>
             (Sent {| status := 500;
                      body := error_body "Erreur mise à jour permissions" |},
              s)
         end
    else (Sent {| status := 403; body := error_body "Accès refusé" |}, s).
Proof.
  intros Hau. unfold patch_organization_handler, try_catch. rewrite Hau.
  destruct (bool_decide (organization_id au = Some orgId)); cbn [negb];
    [| reflexivity].
  unfold bind, write_under. destruct f; reflexivity.
Qed.

Lemma update_organization_code orgId updates o :
  upd_org_code updates = None ->
  org_code (update_organization orgId updates o) = org_code o.
Proof.
  intros Hcode. unfold update_organization.
  destruct (String.eqb (org_id o) orgId); [| reflexivity].
  cbn [organization_update org_code]. rewrite Hcode. reflexivity.
Qed.

Lemma orgs_by_code_updated orgId updates code w :
  upd_org_code updates = None ->
  orgs_by_code code (with_organization_updates orgId updates w)
  = map (update_organization orgId updates) (orgs_by_code code w).
Proof.
  intros Hcode. unfold orgs_by_code, with_organization_updates.
  cbn [organizations with_organizations].
  induction (organizations w) as [| o rest IH]; [reflexivity |].
  cbn [map List.filter]. rewrite update_organization_code by assumption.
  destruct (String.eqb (org_code o) code); cbn [map]; rewrite IH; reflexivity.
Qed.

(** X30. [PATCH /api/organizations/:id/permissions] looks at the
    organization claim of the token and at nothing else: neither at a role
    nor at the users table.  A caller whose claim is not the organization
    of the path is answered 403 and changes nothing.  A caller whose claim
    is that organization, administrator or not, has the body written over
    every organization with that id, unless the update fails, which is
    answered 500 with nothing changed.  No row of the users table changes;
    but an employee who signs up afterwards with the code of the
    organization gets the defaults as the body left them. *)
Theorem organization_defaults_are_patched_by_any_member
    (env : Env) (f : Fault) (h : HttpRequest) (orgId : string)
    (updates : OrgUpdates) (s : Sys) (token : string) (u : Identity) :
  bearer_token h = Some token ->
  auth_getUser env token = Returned (Some u) ->
  (claimed_organization env token <> Some orgId ->
   patch_organization_permissions env f h orgId updates s
   = (Sent {| status := 403; body := error_body "Accès refusé" |}, s))
  /\ (claimed_organization env token = Some orgId ->
      f <> NoFault ->
      patch_organization_permissions env f h orgId updates s
      = (Sent {| status := 500;
                 body := error_body "Erreur mise à jour permissions" |}, s))
  /\ (claimed_organization env token = Some orgId ->
      f = NoFault ->
      (patch_organization_permissions env f h orgId updates s).1
      = Sent {| status := 200; body := JObj [("success", JBool true)] |}
      /\ organizations
           (world (patch_organization_permissions env f h orgId updates s).2)
         = map (update_organization orgId updates) (organizations (world s))
      /\ users (world (patch_organization_permissions env f h orgId updates s).2)
         = users (world s)
      /\ (forall sv b uid email first_name code org,
            sb_auth_user_id b = Some uid -> uid <> "" ->
            sb_email b = Some email -> email <> "" ->
            sb_first_name b = Some first_name -> first_name <> "" ->
            sb_role b = Some "employee" ->
            sb_org_code b = Some code -> code <> "" ->
            organization_lookup sv = NoFault ->
            profile_insert sv = NoFault ->
            upd_org_code updates = None ->
            orgs_by_code (su_toUpperCase sv (su_trim sv code)) (world s)
            = [org] ->
            org_id org = orgId ->
            users (world s) !! uid = None ->
            users (world
                     (signup sv b
                        (patch_organization_permissions env f h orgId updates
                           s).2).2)
            = <[uid := join_update (organization_update updates org)
                         (blank_profile email first_name)]>
                (users (world s)))).
Proof.
  intros Htoken Hu.
  destruct (authenticateUser_claims env (incoming h) s token u Htoken Hu)
    as (au & _ & Hclaim & Hauth).
  assert (Hrun : patch_organization_permissions env f h orgId updates s
                 = patch_organization_handler f (authenticated (incoming h) au)
                     orgId updates s).
  { unfold patch_organization_permissions.
    rewrite (bind_done _ _ _ _ _ Hauth). reflexivity. }
  rewrite Hrun.
  rewrite (patch_organization_handler_run f (authenticated (incoming h) au)
             orgId updates s au eq_refl).
  rewrite Hclaim.
  split; [| split].
  - intros Hne. rewrite bool_decide_eq_false_2 by assumption. reflexivity.
  - intros Heq Hf. rewrite bool_decide_eq_true_2 by assumption.
    destruct f; [contradiction | reflexivity | reflexivity].
  - intros Heq ->. rewrite bool_decide_eq_true_2 by assumption.
    cbn [fst snd world].
    split; [reflexivity |]. split; [reflexivity |]. split; [reflexivity |].
    intros sv b uid email first_name code org Hid Hid' Hemail Hemail' Hname
      Hname' Hrole Hcode Hcode' Hlookup Hinsert Hupd Horg Horgid Hnone.
    rewrite (employee_signup_run sv b _ uid email first_name code
               (organization_update updates org)
               Hid Hid' Hemail Hemail' Hname Hname' Hrole Hcode Hcode'
               Hlookup Hinsert).
    + reflexivity.
    + cbn [world]. rewrite orgs_by_code_updated by assumption.
      rewrite Horg. cbn [map]. unfold update_organization.
      rewrite Horgid, String.eqb_refl. reflexivity.
    + exact Hnone.
Qed.

Lemma organization_defaults_are_patched_by_any_member_witness :
  users (world
           (signup Sample6.sv Sample6.employee_signup
              (patch_organization_permissions Sample3.env_claims NoFault
                 Sample3.as_employee "org-1" Sample3.default_quota_5
                 Sample6.no_users).2).2)
  = <["u2" := join_update
                (organization_update Sample3.default_quota_5
                   (Sample.org_uploads true))
                (blank_profile "paul@example.com" "Paul")]>
      (users (world Sample6.no_users)).
Proof.
  destruct (organization_defaults_are_patched_by_any_member
              Sample3.env_claims NoFault Sample3.as_employee "org-1"
              Sample3.default_quota_5 Sample6.no_users "t1"
              {| identity_id := "u1";
                 identity_email := Some "julie@example.com" |}
              eq_refl eq_refl)
    as (_ & _ & Hpatched).
  destruct (Hpatched eq_refl eq_refl) as (_ & _ & _ & Hsignup).
  apply (Hsignup Sample6.sv Sample6.employee_signup "u2" "paul@example.com"
           "Paul" "ORG-AB12C" (Sample.org_uploads true));
    first [reflexivity | discriminate].
Defined.
